(** * Verification of the computer-using agent loop (src/agent.py)

    A shallow embedding of the interaction engine of [agent.py]: the action
    dispatcher [execute_computer_tool], the stream decoder
    [collect_from_stream], the history manager [strip_old_images] with the
    log truncation of [run_agent_loop], the rate limiter
    [wait_until_itpm_reset] and the loop controller [run_agent_loop].

    Conventions of the embedding:
    - Python values that travel as JSON are the inductive [json]; a Python
      [dict] is an insertion-ordered association list ([dict]) read with
      [dict_get] (first binding) and written with [dict_set] (overwrite in
      place, else append), as CPython does.
    - A message log is a tree of such values.  Where the source shares one
      object under several names (the blocks of [collect_from_stream], the
      tool calls of [run_agent_loop]) the names are references into the one
      place that holds the object, and an in-place write is a functional
      update of that place.
    - Python [float] inside JSON payloads is Rocq's binary64 [float].
    - The waiting-time arithmetic of the rate limiter is carried out over
      [Q]: every operation is exact, so binary64 rounding is not modelled
      there, nor are a stamp without an offset and a header value that
      [float] reads as an infinity or a NaN;
      [RateLimit.wait_binary64] evaluates the same lines on floats.
    - Exceptions are values of [exn]; a computation that may raise returns
      [result A].  Code under [try ... except Exception] is a function that
      inspects that result.
    - Library calls whose code is not part of the repository (pyautogui,
      py2neo, [json.loads], [repr], [int], [float], [datetime]) are
      parameters: fields of [Effector], [Graph], or section variables.
    - The provider is a script of responses, one per call of
      [client.beta.messages.create]; logging and [print] are left out. *)

From Stdlib Require Import ZArith QArith Qround Qminmax List String Floats Uint63.
From stdpp Require Import base option list gmap strings.
Import ListNotations.

Set Warnings "-register-all,-inexact-float".
#[global] Arguments String.eqb : simpl never.

Local Open Scope Z_scope.
Local Open Scope string_scope.
Local Open Scope list_scope.

(** ** Python values *)

Module Py.

Inductive json : Type :=
| JNull
| JBool (b : bool)
| JInt (z : Z)
| JFloat (f : float)
| JStr (s : string)
| JList (l : list json)
| JDict (d : list (string * json)).

(** A Python dict with string keys, in insertion order. *)
Definition dict : Type := list (string * json).

(** [d.get(k)] / [k in d]. *)
Fixpoint dict_get (k : string) (d : dict) : option json :=
  match d with
  | [] => None
  | (k', v) :: d' => if String.eqb k k' then Some v else dict_get k d'
  end.

Definition dict_mem (k : string) (d : dict) : bool :=
  match dict_get k d with Some _ => true | None => false end.

(** [d.get(k, dflt)]. *)
Definition dict_get_default (k : string) (dflt : json) (d : dict) : json :=
  match dict_get k d with Some v => v | None => dflt end.

(** [d[k] = v]: an existing key keeps its position, a new key goes last. *)
Fixpoint dict_set (k : string) (v : json) (d : dict) : dict :=
  match d with
  | [] => [(k, v)]
  | (k', v') :: d' =>
      if String.eqb k k' then (k', v) :: d' else (k', v') :: dict_set k v d'
  end.

(** Truth value of a Python object ([if x:], [x or y]). *)
Definition truthy (v : json) : bool :=
  match v with
  | JNull => false
  | JBool b => b
  | JInt z => negb (Z.eqb z 0)
  | JFloat f => negb (PrimFloat.eqb f PrimFloat.zero)
  | JStr s => negb (String.eqb s "")
  | JList l => match l with [] => false | _ => true end
  | JDict d => match d with [] => false | _ => true end
  end.

(** [v == s] for a string literal [s]. *)
Definition eq_str (v : json) (s : string) : bool :=
  match v with JStr s' => String.eqb s' s | _ => false end.

(** [x.get(k) == s] where a missing key gives [None]. *)
Definition get_eq_str (k : string) (d : dict) (s : string) : bool :=
  match dict_get k d with Some v => eq_str v s | None => false end.

(** Exceptions: the class name and [str(e)]; for the exceptions that the
    interpreter raises the text is abridged. *)
Record exn : Type := Exn { exn_class : string; exn_str : string }.

Inductive result (A : Type) : Type :=
| Ok (a : A)
| Raise (e : exn).
Arguments Ok {A} a.
Arguments Raise {A} e.

Definition KeyError (k : string) : exn := Exn "KeyError" k.
Definition TypeError (m : string) : exn := Exn "TypeError" m.
Definition IndexError (m : string) : exn := Exn "IndexError" m.
Definition AttributeError (m : string) : exn := Exn "AttributeError" m.
Definition ValueError (m : string) : exn := Exn "ValueError" m.
Definition UnboundLocalError (m : string) : exn := Exn "UnboundLocalError" m.
Definition JSONDecodeError (m : string) : exn := Exn "JSONDecodeError" m.

(** [except cls:] on an exception raised as an instance of the class that
    [exn_class] names. *)
Definition caught_by (cls : string) (e : exn) : bool := String.eqb (exn_class e) cls.

(** [d[k]], which raises [KeyError] on a missing key. *)
Definition dict_item (k : string) (d : dict) : result json :=
  match dict_get k d with Some v => Ok v | None => Raise (KeyError k) end.

(** Sequencing of statements that may raise; written [x ← m; k]. *)
#[global] Instance result_ret : MRet result := fun A a => Ok a.
#[global] Instance result_bind : MBind result := fun A B f m =>
  match m with Ok a => f a | Raise e => Raise e end.
#[global] Instance result_fmap : FMap result := fun A B f m =>
  match m with Ok a => Ok (f a) | Raise e => Raise e end.

End Py.
Import Py.

(** ** History manager: [strip_old_images] and the truncation window *)

Module History.

(** Lines 447-450, the body run on one block [blk] of a message's content.
    [src = blk.get("source") or blk] aliases either the nested source object
    or the block itself; the write [src["data"] = ""] lands in that object. *)
Definition strip_block (blk : json) : json :=
  match blk with
  | JDict b =>
      if get_eq_str "type" b "image" then
        match dict_get "source" b with
        | Some src =>
            if truthy src then
              match src with
              | JDict s =>
                  if dict_mem "data" s
                  then JDict (dict_set "source" (JDict (dict_set "data" (JStr "") s)) b)
                  else blk
              | _ => blk
              end
            else
              if dict_mem "data" b then JDict (dict_set "data" (JStr "") b) else blk
        | None =>
            if dict_mem "data" b then JDict (dict_set "data" (JStr "") b) else blk
        end
      else blk
  | _ => blk
  end.

(** Lines 442-450 for one message: a content that is not a list is skipped;
    the blocks are visited from the last to the first and mutated in place,
    so each keeps its position. *)
Definition strip_message (msg : dict) : dict :=
  match dict_get "content" msg with
  | Some (JList content) =>
      dict_set "content" (JList (rev (map strip_block (rev content)))) msg
  | _ => msg
  end.

(** [strip_old_images(messages)]: the messages are visited from the most
    recent to the oldest; the function returns the log as it stands after
    the in-place updates. *)
Definition strip_old_images (messages : list dict) : list dict :=
  rev (map strip_message (rev messages)).

(** [messages[-n:]] for [n > 0]. *)
Definition last_n {A} (n : nat) (l : list A) : list A :=
  drop (length l - n) l.

(** Line 593: [messages[:] = [messages[0]] + messages[-60:]];
    [messages[0]] raises [IndexError] on an empty log. *)
Definition truncate (messages : list dict) : result (list dict) :=
  match messages with
  | [] => Raise (IndexError "list index out of range")
  | m0 :: _ => Ok (m0 :: last_n 60 messages)
  end.

(** *** Frame relations for [strip_old_images]

    [blank_source_data blk blk']: [blk] is an image block whose source is a
    dict holding "data", and [blk'] is [blk] with that one field blanked. *)
Definition blank_source_data (blk blk' : json) : Prop :=
  exists b s,
    blk = JDict b /\ get_eq_str "type" b "image" = true /\
    dict_get "source" b = Some (JDict s) /\ dict_mem "data" s = true /\
    blk' = JDict (dict_set "source" (JDict (dict_set "data" (JStr "") s)) b).

(** [blank_own_data blk blk']: [blk] is an image block without a usable
    source ([blk.get("source")] is missing or falsy) that holds "data"
    itself, and [blk'] is [blk] with that field blanked. *)
Definition blank_own_data (blk blk' : json) : Prop :=
  exists b,
    blk = JDict b /\ get_eq_str "type" b "image" = true /\
    match dict_get "source" b with Some v => truthy v = false | None => True end /\
    dict_mem "data" b = true /\
    blk' = JDict (dict_set "data" (JStr "") b).

(** The change of one block as the specification words it: nothing, or the
    "data" field inside the source of an image block. *)
Definition block_frame_stated (blk blk' : json) : Prop :=
  blk' = blk \/ blank_source_data blk blk'.

(** The change of one block as the code makes it. *)
Definition block_frame (blk blk' : json) : Prop :=
  blk' = blk \/ blank_source_data blk blk' \/ blank_own_data blk blk'.

(** A message keeps every field; its content list, when it is one, keeps
    its length and order and changes blockwise by [R]. *)
Definition message_frame (R : json -> json -> Prop) (msg msg' : dict) : Prop :=
  msg' = msg \/
  exists content content',
    dict_get "content" msg = Some (JList content) /\
    Forall2 R content content' /\
    msg' = dict_set "content" (JList content') msg.

(** The log keeps its length and order and changes messagewise. *)
Definition log_frame (R : json -> json -> Prop) (messages messages' : list dict) : Prop :=
  Forall2 (message_frame R) messages messages'.

(** A log whose single message holds an image block that carries its
    payload directly, without a "source" object. *)
Definition log_direct_image : list dict :=
  [ [("role", JStr "user");
     ("content", JList [JDict [("type", JStr "image"); ("data", JStr "iVBORw0KGgo=")]])] ].

End History.

(** ** Stream decoder: [collect_from_stream] *)

Module Decoder.

(** [ev.delta]: its [type] and payload. *)
Inductive Delta : Type :=
| text_delta (text : string)
| input_json_delta (partial_json : string)
| other_delta (type : string).

(** A streaming event, by [ev.type]; any type the loop has no branch for is
    [other_event].  [content_block] is [ev.content_block.to_dict()] and
    [tdict] is [ev.to_dict()], each a fresh dict. *)
Inductive Event : Type :=
| content_block_start (index : Z) (content_block : dict)
| content_block_delta (index : Z) (delta : Delta)
| content_block_stop (index : Z)
| tool_use (tdict : dict)
| message_stop
| other_event (type : string).

(** The locals of [collect_from_stream].  Every block dict the function
    creates is appended to [assistant_blocks], so a block object is
    identified by its position there; [open_blocks] and [tool_requests]
    hold such positions, which makes the sharing of the Python objects
    explicit: a write through one name is seen through the others. *)
Record State : Type := mkState {
  assistant_blocks : list dict;
  tool_requests : list nat;
  open_blocks : gmap Z nat;
  partial_json : gmap Z string;
}.

Definition init : State := mkState [] [] ∅ ∅.

(** The block object behind a reference. A reference taken from
    [open_blocks] is always in range (lemma [open_blocks_in_range]); the
    [Raise] branch has no counterpart in the source. *)
Definition deref (st : State) (ref : nat) : result dict :=
  match assistant_blocks st !! ref with
  | Some blk => Ok blk
  | None => Raise (Exn "dangling" "")
  end.

(** [open_blocks[ev.index]]. *)
Definition open_block (st : State) (index : Z) : result nat :=
  match open_blocks st !! index with
  | Some ref => Ok ref
  | None => Raise (KeyError "index")
  end.

(** A write [blk[k] = v] to the block object at [ref]. *)
Definition write_block (st : State) (ref : nat) (k : string) (v : json) : State :=
  mkState (alter (dict_set k v) ref (assistant_blocks st))
          (tool_requests st) (open_blocks st) (partial_json st).

(** [blk.get("text", "")]. *)
Definition get_text (blk : dict) : json := dict_get_default "text" (JStr "") blk.

Section Loads.

(** [json.loads] on a string: the value, or the exception it raises,
    [json.JSONDecodeError] on text that is no JSON document and others
    besides ([RecursionError] on text nested too deep, [ValueError] on an
    integer literal too long to convert). *)
Variable json_loads : string -> result json.

(** Lines 409-412: [json.loads(...)] under [except json.JSONDecodeError],
    which gives the empty dict; any other exception is not caught. *)
Definition loads_input (acc : string) : result json :=
  match json_loads acc with
  | Ok v => Ok v
  | Raise e => if caught_by "JSONDecodeError" e then Ok (JDict []) else Raise e
  end.

(** One pass of the loop body, lines 387-418 ([message_stop] is handled by
    the loop, which breaks).  An exception ends the function and its locals
    with it, so a pass that raises returns no state. *)
Definition step (ev : Event) (st : State) : result State :=
  match ev with
  | content_block_start index blk =>
      ty ← dict_item "type" blk;
      Ok (mkState (assistant_blocks st ++ [blk])
                  (tool_requests st)
                  (<[index := length (assistant_blocks st)]> (open_blocks st))
                  (if eq_str ty "tool_use"
                   then <[index := ""]> (partial_json st)
                   else partial_json st))
  | content_block_delta index delta =>
      ref ← open_block st index;
      match delta with
      | text_delta text =>
          blk ← deref st ref;
          match get_text blk with
          | JStr old => Ok (write_block st ref "text" (JStr (old +:+ text)))
          | _ => Raise (TypeError "unsupported operand type(s) for +")
          end
      | input_json_delta fragment =>
          match partial_json st !! index with
          | Some acc =>
              Ok (mkState (assistant_blocks st) (tool_requests st) (open_blocks st)
                          (<[index := acc +:+ fragment]> (partial_json st)))
          | None => Raise (KeyError "index")
          end
      | other_delta _ => Ok st
      end
  | content_block_stop index =>
      ref ← open_block st index;
      blk ← deref st ref;
      ty ← dict_item "type" blk;
      if eq_str ty "tool_use" then
        match partial_json st !! index with
        | Some acc =>
            input ← loads_input acc;
            let st' := write_block st ref "input" input in
            Ok (mkState (assistant_blocks st') (tool_requests st' ++ [ref])
                        (open_blocks st') (partial_json st'))
        | None => Raise (KeyError "index")
        end
      else Ok st
  | tool_use tdict =>
      Ok (mkState (assistant_blocks st ++ [tdict])
                  (tool_requests st ++ [length (assistant_blocks st)])
                  (open_blocks st) (partial_json st))
  | message_stop => Ok st
  | other_event _ => Ok st
  end.

(** [for ev in stream: ...] with the [break] on [message_stop]. *)
Fixpoint collect_loop (stream : list Event) (st : State) : result State :=
  match stream with
  | [] => Ok st
  | message_stop :: _ => Ok st
  | ev :: rest => st' ← step ev st; collect_loop rest st'
  end.

(** [collect_from_stream(stream)]: the blocks, and the tool requests as
    references into them. *)
Definition collect_from_stream (stream : list Event) : result (list dict * list nat) :=
  st ← collect_loop stream init;
  Ok (assistant_blocks st, tool_requests st).

(** The same loop body over a list without the [break]. *)
Fixpoint run_steps (evs : list Event) (st : State) : result State :=
  match evs with
  | [] => Ok st
  | ev :: rest => st' ← step ev st; run_steps rest st'
  end.

End Loads.

(** The list of dicts behind the returned references. *)
Definition tool_request_blocks (blocks : list dict) (refs : list nat) : list dict :=
  omap (fun ref => blocks !! ref) refs.

(** The events the loop consumes: those before the first [message_stop]. *)
Fixpoint consumed (stream : list Event) : list Event :=
  match stream with
  | [] => []
  | message_stop :: _ => []
  | ev :: rest => ev :: consumed rest
  end.

(** What created each element of [assistant_blocks], in order. *)
Inductive Creator : Type :=
| by_start (index : Z) (stub : dict)
| by_tool_use (tdict : dict).

Fixpoint creators (evs : list Event) : list Creator :=
  match evs with
  | [] => []
  | content_block_start index stub :: rest => by_start index stub :: creators rest
  | tool_use tdict :: rest => by_tool_use tdict :: creators rest
  | _ :: rest => creators rest
  end.

Fixpoint start_indices (evs : list Event) : list Z :=
  match evs with
  | [] => []
  | content_block_start index _ :: rest => index :: start_indices rest
  | _ :: rest => start_indices rest
  end.

(** The [text_delta] fragments delivered for [index], in arrival order. *)
Fixpoint text_fragments (index : Z) (evs : list Event) : list string :=
  match evs with
  | [] => []
  | content_block_delta i (text_delta text) :: rest =>
      if bool_decide (i = index) then text :: text_fragments index rest
      else text_fragments index rest
  | _ :: rest => text_fragments index rest
  end.

Fixpoint concat_str (l : list string) : string :=
  match l with
  | [] => ""
  | s :: rest => s +:+ concat_str rest
  end.

(** Well-formedness of the consumed events, per index: one
    [content_block_start], then its [content_block_delta] events, then its
    single [content_block_stop].  [phase !! i] is [None] before the start of
    [i], [Some false] while [i] is open and [Some true] after its stop. *)
Definition wf_step (phase : gmap Z bool) (ev : Event) : option (gmap Z bool) :=
  match ev with
  | content_block_start index _ =>
      match phase !! index with
      | None => Some (<[index := false]> phase)
      | Some _ => None
      end
  | content_block_delta index _ =>
      match phase !! index with
      | Some false => Some phase
      | _ => None
      end
  | content_block_stop index =>
      match phase !! index with
      | Some false => Some (<[index := true]> phase)
      | _ => None
      end
  | _ => Some phase
  end.

Fixpoint wf_run (phase : gmap Z bool) (evs : list Event) : option (gmap Z bool) :=
  match evs with
  | [] => Some phase
  | ev :: rest =>
      match wf_step phase ev with
      | Some phase' => wf_run phase' rest
      | None => None
      end
  end.

Definition well_formed (stream : list Event) : bool :=
  match wf_run ∅ (consumed stream) with Some _ => true | None => false end.

(** The reconstruction of text as the specification words it: in a
    well-formed stream that is decoded, the text of every block created by
    a [content_block_start] is the concatenation of the fragments delivered
    for its index. *)
Definition text_as_stated (json_loads : string -> result json)
    (stream : list Event) : Prop :=
  forall blocks reqs k i stub,
    well_formed stream = true ->
    collect_from_stream json_loads stream = Ok (blocks, reqs) ->
    creators (consumed stream) !! k = Some (by_start i stub) ->
    exists blk, blocks !! k = Some blk /\
      get_text blk = JStr (concat_str (text_fragments i (consumed stream))).

(** Some consumed [content_block_delta] or [content_block_stop] names an
    index for which no [content_block_start] came before it; [started] is
    the set of indices started so far. *)
Fixpoint unopened_reference (started : gset Z) (stream : list Event) : bool :=
  match stream with
  | [] => false
  | message_stop :: _ => false
  | content_block_start index _ :: rest => unopened_reference ({[index]} ∪ started) rest
  | content_block_delta index _ :: rest
  | content_block_stop index :: rest =>
      if bool_decide (index ∈ started) then unopened_reference started rest else true
  | _ :: rest => unopened_reference started rest
  end.

(** Invariant of the loop: whenever the block open at an index is a
    tool-use block, that index has an accumulator in [partial_json];
    references are in range. *)
Definition accumulator_inv (st : State) : Prop :=
  forall (i : Z) (ref : nat), open_blocks st !! i = Some ref ->
    (ref < length (assistant_blocks st))%nat /\
    forall blk, assistant_blocks st !! ref = Some blk ->
      get_eq_str "type" blk "tool_use" = true ->
      is_Some (partial_json st !! i).

(** Invariant of the loop over the events [done] processed so far, used
    for the reconstruction of text: the blocks are in one-to-one order with
    their creating events; [open_blocks] sends an index to the block its
    [content_block_start] created; an index not yet started has received no
    text; and the text of a block is the text of its stub followed by the
    fragments delivered for its index. *)
Definition text_inv (done : list Event) (st : State) : Prop :=
  length (assistant_blocks st) = length (creators done) /\
  (forall (i : Z) (ref : nat), open_blocks st !! i = Some ref ->
     exists stub, creators done !! ref = Some (by_start i stub)) /\
  (forall i : Z, open_blocks st !! i = None -> text_fragments i done = []) /\
  (forall (k : nat) (i : Z) (stub : dict) (s0 : string),
     creators done !! k = Some (by_start i stub) ->
     get_text stub = JStr s0 ->
     exists blk, assistant_blocks st !! k = Some blk /\
       get_text blk = JStr (s0 +:+ concat_str (text_fragments i done))).

End Decoder.

(** ** Action dispatcher: [execute_computer_tool] *)

Module Dispatcher.

(** The module globals [PROCESSSTEP_ID] and [PROCESSSTEP] together with the
    state [world] of the desktop that pyautogui acts on. *)
Record State (W : Type) : Type := mkState {
  PROCESSSTEP_ID : Z;
  PROCESSSTEP : Z;
  world : W;
}.
Arguments mkState {W}.
Arguments PROCESSSTEP_ID {W}.
Arguments PROCESSSTEP {W}.
Arguments world {W}.

(** The effector interface: the calls into pyautogui and [time.sleep].
    Each may raise and may change the desktop whether it raises or not.
    [capture] stands for lines 251-258: the screenshot, its file on disk
    and its base64 encoding, which is the value returned. *)
Class Effector (W : Type) : Type := {
  capture : W -> result string * W;
  moveTo : list json -> W -> result unit * W;
  click : string -> option (json * json) -> W -> result unit * W;
  doubleClick : option (json * json) -> W -> result unit * W;
  write : string -> W -> result unit * W;
  press : string -> W -> result unit * W;
  scroll : json -> W -> result unit * W;
  hscroll : json -> W -> result unit * W;
  sleep : json -> W -> result unit * W;
}.

(** The step-graph collaborator: [graph.run(q, sid=str(step_id))] for the
    three queries, returning the rows as pairs (id, description). *)
Record Graph : Type := mkGraph {
  run_prev : Z -> result (list (json * json));
  run_next : Z -> result (list (json * json));
  run_curr : Z -> result (list (json * json));
}.

(** [d.get(k)], with [None] for a missing key. *)
Definition py_get (k : string) (d : dict) : json := dict_get_default k JNull d.

(** The characters of a [str].  A string holds the UTF-8 encoding of the
    text, in which the bytes 10xxxxxx continue the character before them. *)
Definition is_continuation (c : Ascii.ascii) : bool :=
  let n := Ascii.nat_of_ascii c in (Nat.leb 128 n && Nat.ltb n 192)%bool.

Fixpoint code_points_from (current : string) (s : string) : list string :=
  match s with
  | EmptyString => [current]
  | String c rest =>
      if is_continuation c then code_points_from (current +:+ String c "") rest
      else current :: code_points_from (String c "") rest
  end.

Definition code_points (s : string) : list string :=
  match s with
  | EmptyString => []
  | String c rest => code_points_from (String c "") rest
  end.

(** [v[n]] for a JSON value and an index [n] that is not negative. *)
Definition py_index (v : json) (n : nat) : result json :=
  match v with
  | JList l =>
      match l !! n with
      | Some x => Ok x
      | None => Raise (IndexError "list index out of range")
      end
  | JStr s =>
      match code_points s !! n with
      | Some c => Ok (JStr c)
      | None => Raise (IndexError "string index out of range")
      end
  | JDict _ => Raise (KeyError "index")
  | _ => Raise (TypeError "object is not subscriptable")
  end.

(** [a or b]. *)
Definition py_or (a b : json) : json := if truthy a then a else b.

Fixpoint str_repeat (n : nat) (s : string) : string :=
  match n with O => "" | S n' => s +:+ str_repeat n' s end.

(** [100 * v]. *)
Definition py_mul100 (v : json) : result json :=
  match v with
  | JInt z => Ok (JInt (100 * z))
  | JBool b => Ok (JInt (if b then 100 else 0))
  | JFloat f => Ok (JFloat (PrimFloat.mul 100%float f))
  | JStr s => Ok (JStr (str_repeat 100 s))
  | JList l => Ok (JList (mjoin (replicate 100 l)))
  | _ => Raise (TypeError "unsupported operand type(s) for *")
  end.

(** [-v]. *)
Definition py_neg (v : json) : result json :=
  match v with
  | JInt z => Ok (JInt (- z))
  | JBool b => Ok (JInt (if b then -1 else 0))
  | JFloat f => Ok (JFloat (PrimFloat.opp f))
  | _ => Raise (TypeError "bad operand type for unary -")
  end.

Definition is_list (v : json) : bool := match v with JList _ => true | _ => false end.
Definition is_str (v : json) : bool := match v with JStr _ => true | _ => false end.
(** [isinstance(v, (int, float))]; [bool] is a subclass of [int]. *)
Definition is_number (v : json) : bool :=
  match v with JInt _ | JFloat _ | JBool _ => true | _ => false end.

(** [time.sleep(0.2)]: the settle delay. *)
Definition settle : json := JFloat 0.2%float.

Definition no_prev_step : string :=
  "Es existiert kein vorheriger Schritt. Gehe zum letzten Schritt zurück.".
Definition no_next_step : string :=
  "Es existiert kein nachfolgender Schritt. Gehe zum letzten Schritt zurück.".
Definition no_curr_step : string :=
  "Der aktuellen Schritt existiert nicht. Gehe zum letzten Schritt zurück.".
Definition unknown_action : string :=
  "Unbekannte Aktion oder fehlende Parameter: ".

Section Dispatch.

Context {W : Type} `{Effector W}.

(** [repr] of a dict, for the f-string of line 351, and [int(x)]. *)
Variable py_repr : dict -> string.
Variable py_int : json -> result Z.

(** Statements that read and write the state and may raise; the state
    reached when an exception is raised is kept, as the [except] clause of
    line 356 sees the globals and the desktop as the failing call left
    them. *)
Definition M (A : Type) : Type := State W -> result A * State W.

#[local] Instance M_ret : MRet M := fun A a st => (Ok a, st).
#[local] Instance M_bind : MBind M := fun A B f m st =>
  match m st with
  | (Ok a, st') => f a st'
  | (Raise e, st') => (Raise e, st')
  end.

Definition effect {A} (op : W -> result A * W) : M A := fun st =>
  let '(r, w) := op (world st) in
  (r, mkState (PROCESSSTEP_ID st) (PROCESSSTEP st) w).

Definition lift {A} (r : result A) : M A := fun st => (r, st).

(** [PROCESSSTEP += 1]. *)
Definition incr_PROCESSSTEP : M unit := fun st =>
  (Ok (), mkState (PROCESSSTEP_ID st) (PROCESSSTEP st + 1) (world st)).

Definition get_PROCESSSTEP_ID : M Z := fun st => (Ok (PROCESSSTEP_ID st), st).

Definition set_PROCESSSTEP_ID (id : Z) : M unit := fun st =>
  (Ok (), mkState id (PROCESSSTEP st) (world st)).

(** [graph.run] on the optional connection; [None.run] raises. *)
Definition graph_run (graph_db : option Graph)
    (q : Graph -> Z -> result (list (json * json))) (step_id : Z)
  : result (list (json * json)) :=
  match graph_db with
  | Some g => q g step_id
  | None => Raise (AttributeError "'NoneType' object has no attribute 'run'")
  end.

Definition get_prev_step (graph_db : option Graph) (step_id : Z) : result (Z * json) :=
  rst ← graph_run graph_db run_prev step_id;
  match rst with
  | [] => Ok (step_id - 1, JStr no_prev_step)
  | (id, description) :: _ => n ← py_int id; Ok (n, description)
  end.

Definition get_next_step (graph_db : option Graph) (step_id : Z) : result (Z * json) :=
  rst ← graph_run graph_db run_next step_id;
  match rst with
  | [] => Ok (step_id + 1, JStr no_next_step)
  | (id, description) :: _ => n ← py_int id; Ok (n, description)
  end.

Definition get_curr_step (graph_db : option Graph) (step_id : Z) : result (Z * json) :=
  rst ← graph_run graph_db run_curr step_id;
  match rst with
  | [] => Ok (step_id, JStr no_curr_step)
  | (id, description) :: _ => n ← py_int id; Ok (n, description)
  end.

(** [(result_type, result_data, is_error)]. *)
Definition Outcome : Type := string * json * bool.

Definition done_text : M Outcome := mret ("text", JStr "", false).

(** The click branches, lines 276-305: at [coord] when it is truthy, else
    at the pointer; [act] is the pyautogui call. *)
Definition click_at (act : option (json * json) -> W -> result unit * W)
    (coord : json) : M Outcome :=
  (if truthy coord then
     x ← lift (py_index coord 0);
     y ← lift (py_index coord 1);
     _ ← effect (act (Some (x, y)));
     effect (sleep settle)
   else
     _ ← effect (act None);
     effect (sleep settle));;
  incr_PROCESSSTEP;;
  done_text.

(** A navigation branch, lines 335-348; [query] is one of the three step
    queries. *)
Definition navigate (query : Z -> result (Z * json)) : M Outcome :=
  step_id ← get_PROCESSSTEP_ID;
  '(id, description) ← lift (query step_id);
  set_PROCESSSTEP_ID id;;
  mret ("text", description, false).

(** The body of the [try], lines 250-354. *)
Definition dispatch (tool_input : dict) (graph_db : option Graph) : M Outcome :=
  let action := py_get "action" tool_input in
  let text := py_get "text" tool_input in
  let coord := py_get "coordinate" tool_input in
  let scroll_dir := py_get "scroll_direction" tool_input in
  let scroll_amt := py_get "scroll_amount" tool_input in
  let duration := py_get "duration" tool_input in
  if eq_str action "screenshot" then
    encoded ← effect capture;
    incr_PROCESSSTEP;;
    mret ("image",
          JDict [("type", JStr "base64"); ("media_type", JStr "image/png");
                 ("data", JStr encoded)],
          false)
  else if eq_str action "mouse_move" && is_list coord then
    effect (moveTo (match coord with JList l => l | _ => [] end));;
    effect (sleep settle);;
    incr_PROCESSSTEP;;
    done_text
  else if eq_str action "left_click" then click_at (click "left") coord
  else if eq_str action "right_click" then click_at (click "right") coord
  else if eq_str action "double_click" then click_at doubleClick coord
  else if eq_str action "type" && is_str text then
    effect (write (match text with JStr s => s | _ => "" end));;
    effect (sleep settle);;
    incr_PROCESSSTEP;;
    done_text
  else if eq_str action "key" && is_str text then
    effect (press (match text with JStr s => s | _ => "" end));;
    effect (sleep settle);;
    incr_PROCESSSTEP;;
    done_text
  else if eq_str action "scroll" && truthy scroll_dir then
    amt ← lift (py_mul100 (py_or scroll_amt (JInt 0)));
    (if eq_str scroll_dir "up" then effect (scroll amt)
     else if eq_str scroll_dir "down" then
       namt ← lift (py_neg amt); effect (scroll namt)
     else if eq_str scroll_dir "left" then
       namt ← lift (py_neg amt); effect (hscroll namt)
     else effect (hscroll amt));;
    effect (sleep settle);;
    incr_PROCESSSTEP;;
    done_text
  else if eq_str action "wait" && is_number duration then
    effect (sleep duration);;
    incr_PROCESSSTEP;;
    done_text
  else if eq_str action "prev" then navigate (get_prev_step graph_db)
  else if eq_str action "next" then navigate (get_next_step graph_db)
  else if eq_str action "curr" then navigate (get_curr_step graph_db)
  else
    incr_PROCESSSTEP;;
    mret ("text", JStr (unknown_action +:+ py_repr tool_input), true).

(** [execute_computer_tool(tool_input, graph_db)]: the [try] body under
    [except Exception as e: return "text", str(e), True]. *)
Definition execute_computer_tool (tool_input : dict) (graph_db : option Graph)
    (st : State W) : Outcome * State W :=
  match dispatch tool_input graph_db st with
  | (Ok out, st') => (out, st')
  | (Raise e, st') => (("text", JStr (exn_str e), true), st')
  end.

End Dispatch.

(** The three kinds of request, by the guards of the [if]/[elif] chain in
    their order: a desktop action with its required arguments, a step-graph
    navigation, or the final [else]. *)
Inductive Kind : Type := DesktopAction | Navigation | Invalid.

Definition classify (tool_input : dict) : Kind :=
  let action := py_get "action" tool_input in
  if eq_str action "screenshot" then DesktopAction
  else if eq_str action "mouse_move" && is_list (py_get "coordinate" tool_input)
  then DesktopAction
  else if eq_str action "left_click" then DesktopAction
  else if eq_str action "right_click" then DesktopAction
  else if eq_str action "double_click" then DesktopAction
  else if eq_str action "type" && is_str (py_get "text" tool_input) then DesktopAction
  else if eq_str action "key" && is_str (py_get "text" tool_input) then DesktopAction
  else if eq_str action "scroll" && truthy (py_get "scroll_direction" tool_input)
  then DesktopAction
  else if eq_str action "wait" && is_number (py_get "duration" tool_input)
  then DesktopAction
  else if eq_str action "prev" then Navigation
  else if eq_str action "next" then Navigation
  else if eq_str action "curr" then Navigation
  else Invalid.

(** The counter rule as the specification words it: every recognised
    request that succeeds adds one to [PROCESSSTEP]; a request that is not
    recognised, or lacks a required argument, leaves the counter and returns
    a text error payload. *)
Definition counter_as_stated {W : Type} `{Effector W}
    (py_repr : dict -> string) (py_int : json -> result Z)
    (tool_input : dict) (graph_db : option Graph) (st : State W) : Prop :=
  let '((flag, data, is_err), st') :=
    execute_computer_tool py_repr py_int tool_input graph_db st in
  match classify tool_input with
  | DesktopAction | Navigation =>
      is_err = false -> PROCESSSTEP st' = PROCESSSTEP st + 1
  | Invalid =>
      PROCESSSTEP st' = PROCESSSTEP st /\ flag = "text" /\ is_err = true
  end.

End Dispatcher.

(** ** Rate limiter: [wait_until_itpm_reset] *)

Module RateLimit.

Local Open Scope Q_scope.

(** HTTP response headers as [httpx.Headers] holds them: the items of the
    response, name and value, in the order received. *)
Definition Headers : Type := list (string * string).

(** [bytes.lower()]: the ASCII letters in lower case. *)
Definition ascii_lower (c : Ascii.ascii) : Ascii.ascii :=
  let n := Ascii.nat_of_ascii c in
  if (Nat.leb 65 n && Nat.leb n 90)%bool then Ascii.ascii_of_nat (n + 32) else c.

Fixpoint str_lower (s : string) : string :=
  match s with
  | EmptyString => EmptyString
  | String c rest => String (ascii_lower c) (str_lower rest)
  end.

(** [", ".join(items)]. *)
Fixpoint join_comma (items : list string) : string :=
  match items with
  | [] => ""
  | [item] => item
  | item :: rest => item +:+ ", " +:+ join_comma rest
  end.

(** [headers.get(k)]: the names are compared without regard to the case of
    their letters, and the values of all the items of that name are joined
    by ", "; [None] when there is no such item. *)
Definition headers_get (k : string) (h : Headers) : option string :=
  match List.filter (fun item => String.eqb (str_lower (fst item)) (str_lower k)) h with
  | [] => None
  | items => Some (join_comma (map snd items))
  end.

(** [math.ceil(wait * 1000) / 1000]. *)
Definition ceil_ms (wait : Q) : Q := inject_Z (Qceiling (wait * 1000)) / 1000.

Section Clock.

(** [datetime.fromisoformat(ts.replace("Z", "+00:00"))] as seconds since
    the epoch, raising [ValueError] on a malformed stamp; and [float(s)],
    with [None] for [ValueError]. *)
Variable fromisoformat : string -> result Q.
Variable py_float : string -> option Q.

(** Lines 473-483: the duration handed to [time.sleep]; [now] is the
    reading of [datetime.now(timezone.utc)].  [if ts:] is false for [None]
    and for the empty string. *)
Definition wait_until_itpm_reset
    (headers : Headers) (ts : option string) (fudge : Q) (now : Q) : result Q :=
  wait ← (if match ts with Some t => negb (String.eqb t "") | None => false end
          then
            reset ← fromisoformat (default "" ts);
            Ok ((reset - now) + fudge)
          else
            Ok (match py_float (default "0" (headers_get "retry-after" headers)) with
                | Some w => w
                | None => 0
                end));
  let wait := Qmax 0 (wait + fudge) in
  Ok (ceil_ms wait).

End Clock.

(** The wait as the specification words it, for a reset stamp that parses:
    the fudge is added once. *)
Definition wait_as_stated (reset now fudge : Q) : Q :=
  ceil_ms (Qmax 0 ((reset - now) + fudge)).

(** *** The same arithmetic in binary64

    Lines 475 and 482-483 on Python floats, from the value [delta] of
    [(reset - now).total_seconds()].  [math.ceil] raises on an infinity or a
    NaN ([None]); [float_of_int] is exact below 2^53, where the quotient by
    1000 is then rounded once, as Python's division of integers is. *)
Definition float_ceil (f : float) : option Z :=
  match Prim2SF f with
  | S754_zero _ => Some 0%Z
  | S754_finite sign m e =>
      let up := if (0 <=? e)%Z then (Z.pos m * 2 ^ e)%Z
                else (- ((- Z.pos m) / 2 ^ (- e)))%Z in
      let down := if (0 <=? e)%Z then (Z.pos m * 2 ^ e)%Z
                  else (Z.pos m / 2 ^ (- e))%Z in
      Some (if sign then (- down)%Z else up)
  | _ => None
  end.

Definition float_of_int (n : Z) : float :=
  if (0 <=? n)%Z then PrimFloat.of_uint63 (Uint63.of_Z n)
  else PrimFloat.opp (PrimFloat.of_uint63 (Uint63.of_Z (- n))).

(** [max(0.0, x)]: the second argument when it is the greater. *)
Definition max0 (x : float) : float :=
  if PrimFloat.ltb 0%float x then x else 0%float.

Definition wait_binary64 (delta fudge : float) : option float :=
  let wait := PrimFloat.add delta fudge in
  let wait := max0 (PrimFloat.add wait fudge) in
  match float_ceil (PrimFloat.mul wait 1000%float) with
  | Some n => Some (PrimFloat.div (float_of_int n) 1000%float)
  | None => None
  end.

End RateLimit.

(** ** Loop controller: [run_agent_loop] *)

Module Loop.

(** What [client.beta.messages.create] does on one call: it returns a
    stream with its response headers, raises [anthropic.RateLimitError]
    (with the headers of the failed response; [now] is the clock reading the
    handler takes), is interrupted by the operator, or raises anything else.
    The provider is a script: the outcomes of the successive calls. *)
Inductive Response : Type :=
| stream_ok (headers : RateLimit.Headers) (events : list Decoder.Event)
| rate_limited (headers : RateLimit.Headers) (now : Q)
| interrupted
| failed (e : exn).

(** The locals of [run_agent_loop] and the globals.  [TIME_TO_WAIT] is
    [None] while the local has not been assigned; [slept] lists the waits of
    the rate limiter and [sent] the message logs of the requests issued. *)
Record State (W : Type) : Type := mkState {
  messages : list dict;
  TIME_TO_WAIT : option (option string);
  run : Dispatcher.State W;
  slept : list Q;
  sent : list (list dict);
}.
Arguments mkState {W}.
Arguments messages {W}.
Arguments TIME_TO_WAIT {W}.
Arguments run {W}.
Arguments slept {W}.
Arguments sent {W}.

(** How the function ends: [return v], an exception that leaves it, or a
    provider script that ends while the loop still waits for a response. *)
Inductive Exit : Type :=
| returned (v : option nat)
| raised (e : exn)
| script_ended.

Definition initial_message (user_prompt : string) : dict :=
  [("role", JStr "user"); ("content", JStr user_prompt)].
Definition assistant_message (blocks : list dict) : dict :=
  [("role", JStr "assistant"); ("content", JList (map JDict blocks))].
Definition user_message (tool_results : list json) : dict :=
  [("role", JStr "user"); ("content", JList tool_results)].

(** The tool-call object [tc]: the block at position [ref] of the content
    of the assistant message at position [a] of the log.  The blocks are
    shared between the log and [tool_calls], so [tc] is read from the log as
    it stands.  The [Raise] branches have no counterpart in the source. *)
Definition tool_call (messages : list dict) (a ref : nat) : result dict :=
  match messages !! a with
  | Some msg =>
      match dict_get "content" msg with
      | Some (JList blocks) =>
          match blocks !! ref with
          | Some (JDict tc) => Ok tc
          | _ => Raise (Exn "dangling" "")
          end
      | _ => Raise (Exn "dangling" "")
      end
  | None => Raise (Exn "dangling" "")
  end.

(** Line 586: the content of a tool result. *)
Definition result_content (flag : string) (result : json) : json :=
  if String.eqb flag "image"
  then JList [JDict [("type", JStr "image"); ("source", result)]]
  else result.

(** Lines 592-593, on the log [pre] as it stands after line 590; [flag] is
    the variable left by the last pass of the [for] loop. *)
Definition truncate_after (flag : string) (pre : list dict) : result (list dict) :=
  if String.eqb flag "image" then History.truncate pre else Ok pre.

Section Run.

Context {W : Type} `{Dispatcher.Effector W}.
Variable py_repr : dict -> string.
Variable py_int : json -> result Z.
Variable json_loads : string -> result json.
Variable fromisoformat : string -> result Q.
Variable py_float : string -> option Q.
Variable graph_db : option Dispatcher.Graph.

(** Lines 560-566: the [while True] around the request.  Each call takes
    the next outcome of the script. *)
Fixpoint await_provider (script : list Response) (st : State W)
  : (Exit + RateLimit.Headers * list Decoder.Event) * State W * list Response :=
  match script with
  | [] => (inl script_ended, st, [])
  | response :: rest =>
      let st := mkState (messages st) (TIME_TO_WAIT st) (run st) (slept st)
                        (sent st ++ [messages st]) in
      match response with
      | stream_ok headers events => (inr (headers, events), st, rest)
      | rate_limited headers now =>
          match TIME_TO_WAIT st with
          | None =>
              (inl (raised (UnboundLocalError
                 "cannot access local variable 'TIME_TO_WAIT' where it is not associated with a value")),
               st, rest)
          | Some ts =>
              match RateLimit.wait_until_itpm_reset fromisoformat py_float
                      headers ts (1 # 2)%Q now with
              | Ok wait =>
                  await_provider rest
                    (mkState (messages st) (TIME_TO_WAIT st) (run st)
                             (slept st ++ [wait]) (sent st))
              | Raise e => (inl (raised e), st, rest)
              end
          end
      | interrupted => (inl (returned None), st, rest)
      | failed e => (inl (raised e), st, rest)
      end
  end.

(** Lines 578-588: the [for tc in tool_calls] loop.  [a] is the position of
    the assistant message in the log.  The result is the exception that
    ended the loop, if any, with the log, the tool results, the flags of the
    passes in order (the last one is the value of [flag] after the loop) and
    the globals as the loop left them. *)
Fixpoint dispatch_calls (a : nat) (tool_calls : list nat)
    (messages : list dict) (tool_results : list json) (flags : list string)
    (rs : Dispatcher.State W)
  : option exn * (list dict * list json * list string) * Dispatcher.State W :=
  match tool_calls with
  | [] => (None, (messages, tool_results, flags), rs)
  | ref :: rest =>
      match (tc ← tool_call messages a ref;
             input ← dict_item "input" tc;
             match input with
             | JDict tool_input => Ok tool_input
             | _ => Raise (AttributeError "object has no attribute 'get'")
             end) with
      | Raise e => (Some e, (messages, tool_results, flags), rs)
      | Ok tool_input =>
          let '((flag, result, is_err), rs') :=
            Dispatcher.execute_computer_tool py_repr py_int tool_input graph_db rs in
          let messages' :=
            if String.eqb flag "image" then History.strip_old_images messages
            else messages in
          match (tc ← tool_call messages' a ref; dict_item "id" tc) with
          | Raise e => (Some e, (messages', tool_results, flags ++ [flag]), rs')
          | Ok id =>
              dispatch_calls a rest messages'
                (tool_results ++
                   [JDict [("type", JStr "tool_result");
                           ("tool_use_id", id);
                           ("content", result_content flag result);
                           ("is_error", JBool is_err)]])
                (flags ++ [flag]) rs'
          end
      end
  end.

(** One pass of the [for i in range(...)] body after the request returned,
    lines 568-593: the exit taken, if the pass leaves the function, and the
    state.  The third component is a record for the properties below: the
    flags of the tool results of the pass, in order, and the log [pre] as
    line 590 leaves it, before the truncation. *)
Definition iteration_trace (i : nat) (headers : RateLimit.Headers)
    (events : list Decoder.Event) (st : State W)
  : option Exit * State W * (list string * list dict) :=
  let ttw := Some (RateLimit.headers_get "anthropic-ratelimit-input-tokens-reset" headers) in
  match Decoder.collect_from_stream json_loads events with
  | Raise e =>
      (Some (raised e), mkState (messages st) ttw (run st) (slept st) (sent st),
       ([], messages st))
  | Ok (assistant_blocks, tool_calls) =>
      let messages1 := messages st ++ [assistant_message assistant_blocks] in
      match tool_calls with
      | [] =>
          (Some (returned (Some i)),
           mkState messages1 ttw (run st) (slept st) (sent st),
           ([], messages1))
      | _ :: _ =>
          match dispatch_calls (length (messages st)) tool_calls messages1 [] []
                  (run st) with
          | (Some e, (messages2, _, flags), rs) =>
              (Some (raised e), mkState messages2 ttw rs (slept st) (sent st),
               (flags, messages2))
          | (None, (messages2, tool_results, flags), rs) =>
              let pre := messages2 ++ [user_message tool_results] in
              match truncate_after (List.last flags "") pre with
              | Raise e =>
                  (Some (raised e), mkState pre ttw rs (slept st) (sent st),
                   (flags, pre))
              | Ok post =>
                  (None, mkState post ttw rs (slept st) (sent st), (flags, pre))
              end
          end
      end
  end.

Definition iteration (i : nat) (headers : RateLimit.Headers)
    (events : list Decoder.Event) (st : State W) : option Exit * State W :=
  fst (iteration_trace i headers events st).

(** The truncation rule as the specification words it, for a pass that goes
    on to the next one: if any tool result of the pass carried an image,
    the log is message 0 followed by the window of the most recent 60
    messages (all of them, if there are fewer), at most 61 in all; if none
    did, the log is left as it was. *)
Definition truncation_as_stated (i : nat) (headers : RateLimit.Headers)
    (events : list Decoder.Event) (st : State W) : Prop :=
  match iteration_trace i headers events st with
  | (None, st', (flags, pre)) =>
      ("image" ∈ flags ->
         exists m0 dropped window,
           pre !! 0%nat = Some m0 /\
           pre = dropped ++ window /\
           length window = Nat.min 60 (length pre) /\
           messages st' = m0 :: window /\
           (length (messages st') <= 61)%nat) /\
      ("image" ∉ flags -> messages st' = pre)
  | _ => True
  end.

(** Lines 547-598: [remaining] passes of the [for] loop are left, the next
    one with loop variable [i]. *)
Fixpoint iterations (remaining : nat) (i : nat) (script : list Response)
    (st : State W) : Exit * State W :=
  match remaining with
  | O => (returned None, st)
  | S remaining' =>
      match await_provider script st with
      | (inl exit, st', _) => (exit, st')
      | (inr (headers, events), st', script') =>
          match iteration i headers events st' with
          | (Some exit, st'') => (exit, st'')
          | (None, st'') => iterations remaining' (S i) script' st''
          end
      end
  end.

(** [run_agent_loop(..., user_prompt, max_iterations, ..., graph_db)]
    against a provider script, from the globals and desktop [rs]. *)
Definition run_agent_loop (user_prompt : string) (max_iterations : nat)
    (script : list Response) (rs : Dispatcher.State W) : Exit * State W :=
  iterations max_iterations 1 script
    (mkState [initial_message user_prompt] None rs [] []).

End Run.

End Loop.

(** ** Concrete instances used in the examples *)

Module Examples.

(** A desktop on which every call succeeds and nothing is observed. *)
#[global] Instance calm_desktop : Dispatcher.Effector unit := {|
  Dispatcher.capture := fun w => (Ok "iVBORw0KGgo=", w);
  Dispatcher.moveTo := fun _ w => (Ok (), w);
  Dispatcher.click := fun _ _ w => (Ok (), w);
  Dispatcher.doubleClick := fun _ w => (Ok (), w);
  Dispatcher.write := fun _ w => (Ok (), w);
  Dispatcher.press := fun _ w => (Ok (), w);
  Dispatcher.scroll := fun _ w => (Ok (), w);
  Dispatcher.hscroll := fun _ w => (Ok (), w);
  Dispatcher.sleep := fun _ w => (Ok (), w);
|}.

(** A desktop that records the calls it receives, each with its argument. *)
Definition recording : Type := list (string * json).
Definition record (call : string) (arg : json) (w : recording)
  : result unit * recording := (Ok (), w ++ [(call, arg)]).
Definition position (at_ : option (json * json)) : json :=
  match at_ with Some (x, y) => JList [x; y] | None => JNull end.

Definition recording_desktop : Dispatcher.Effector recording := {|
  Dispatcher.capture := fun w => (Ok "iVBORw0KGgo=", w ++ [("screenshot", JNull)]);
  Dispatcher.moveTo := fun coord => record "moveTo" (JList coord);
  Dispatcher.click := fun button at_ => record ("click " +:+ button) (position at_);
  Dispatcher.doubleClick := fun at_ => record "doubleClick" (position at_);
  Dispatcher.write := fun text => record "write" (JStr text);
  Dispatcher.press := fun key => record "press" (JStr key);
  Dispatcher.scroll := fun amt => record "scroll" amt;
  Dispatcher.hscroll := fun amt => record "hscroll" amt;
  Dispatcher.sleep := fun secs => record "sleep" secs;
|}.

(** A desktop on which the pointer calls raise, as pyautogui's fail-safe
    does. *)
Definition failsafe : exn := Exn "FailSafeException" "PyAutoGUI fail-safe triggered".
Definition stuck_desktop : Dispatcher.Effector unit := {|
  Dispatcher.capture := fun w => (Ok "iVBORw0KGgo=", w);
  Dispatcher.moveTo := fun _ w => (Raise failsafe, w);
  Dispatcher.click := fun _ _ w => (Raise failsafe, w);
  Dispatcher.doubleClick := fun _ w => (Raise failsafe, w);
  Dispatcher.write := fun _ w => (Ok (), w);
  Dispatcher.press := fun _ w => (Ok (), w);
  Dispatcher.scroll := fun _ w => (Ok (), w);
  Dispatcher.hscroll := fun _ w => (Ok (), w);
  Dispatcher.sleep := fun _ w => (Ok (), w);
|}.

(** A step graph that holds no step. *)
Definition empty_graph : Dispatcher.Graph :=
  Dispatcher.mkGraph (fun _ => Ok []) (fun _ => Ok []) (fun _ => Ok []).

(** Stand-ins for [repr] and [int] where an example needs to run them. *)
Definition repr_stub (d : dict) : string := "{...}".
Definition int_stub (v : json) : result Z :=
  match v with
  | JInt z => Ok z
  | _ => Raise (ValueError "invalid literal for int()")
  end.

Definition start_state : Dispatcher.State unit := Dispatcher.mkState 1 0 ().

(** JSON texts of two tool inputs, and a stand-in for [json.loads] that
    decodes exactly these and the empty object and raises
    [json.JSONDecodeError] on every other text. *)
Definition dq : string := String (Ascii.ascii_of_nat 34) "".
Definition screenshot_json : string :=
  "{" +:+ dq +:+ "action" +:+ dq +:+ ": " +:+ dq +:+ "screenshot" +:+ dq +:+ "}".
Definition left_click_json : string :=
  "{" +:+ dq +:+ "action" +:+ dq +:+ ": " +:+ dq +:+ "left_click" +:+ dq +:+ "}".

Definition loads_stub (text : string) : result json :=
  if String.eqb text screenshot_json then Ok (JDict [("action", JStr "screenshot")])
  else if String.eqb text left_click_json then Ok (JDict [("action", JStr "left_click")])
  else if String.eqb text "{}" then Ok (JDict [])
  else Raise (JSONDecodeError "Expecting value").

(** Stand-ins for [datetime.fromisoformat] and [float] on the stamps and
    header values of the examples. *)
Definition iso_stub (ts : string) : result Q :=
  if String.eqb ts "2025-07-25T12:34:56Z" then Ok (inject_Z 1753446896)
  else Raise (ValueError "Invalid isoformat string").
Definition float_stub (text : string) : option Q :=
  if String.eqb text "0" then Some (inject_Z 0)
  else if String.eqb text "30" then Some (inject_Z 30)
  else None.

Definition tool_use_stub (id : string) : dict :=
  [("type", JStr "tool_use"); ("id", JStr id); ("name", JStr "computer");
   ("input", JDict [])].
Definition text_stub : dict := [("type", JStr "text"); ("text", JStr "")].

(** A response that streams a text block and a tool-use block whose
    argument text is cut short. *)
Definition stream_text_and_broken_tool : list Decoder.Event :=
  [ Decoder.content_block_start 0 text_stub;
    Decoder.content_block_delta 0 (Decoder.text_delta "Hel");
    Decoder.content_block_delta 0 (Decoder.text_delta "lo");
    Decoder.content_block_stop 0;
    Decoder.content_block_start 1 (tool_use_stub "toolu_01");
    Decoder.content_block_delta 1 (Decoder.input_json_delta "[1, 2");
    Decoder.content_block_stop 1;
    Decoder.message_stop ].

(** A tool call whose argument text arrives in two fragments. *)
Definition stream_two_fragments : list Decoder.Event :=
  [ Decoder.content_block_start 0 (tool_use_stub "toolu_01");
    Decoder.content_block_delta 0
      (Decoder.input_json_delta ("{" +:+ dq +:+ "action" +:+ dq +:+ ": "));
    Decoder.content_block_delta 0
      (Decoder.input_json_delta (dq +:+ "screenshot" +:+ dq +:+ "}"));
    Decoder.content_block_stop 0;
    Decoder.message_stop ].

(** A well-formed stream whose text block starts with text in its stub. *)
Definition stream_prefilled_stub : list Decoder.Event :=
  [ Decoder.content_block_start 0 [("type", JStr "text"); ("text", JStr "Hello")];
    Decoder.content_block_delta 0 (Decoder.text_delta " world");
    Decoder.content_block_stop 0;
    Decoder.message_stop ].

(** A stream whose first event is a delta for an index never started. *)
Definition stream_delta_first : list Decoder.Event :=
  [ Decoder.content_block_delta 0 (Decoder.text_delta "x");
    Decoder.content_block_start 0 text_stub;
    Decoder.message_stop ].

(** A response with two tool calls: a screenshot, then a left click. *)
Definition stream_screenshot_then_click : list Decoder.Event :=
  [ Decoder.content_block_start 0 (tool_use_stub "toolu_01");
    Decoder.content_block_delta 0 (Decoder.input_json_delta screenshot_json);
    Decoder.content_block_stop 0;
    Decoder.content_block_start 1 (tool_use_stub "toolu_02");
    Decoder.content_block_delta 1 (Decoder.input_json_delta left_click_json);
    Decoder.content_block_stop 1;
    Decoder.message_stop ].

(** A response with one tool call, a screenshot. *)
Definition stream_screenshot : list Decoder.Event :=
  [ Decoder.content_block_start 0 (tool_use_stub "toolu_01");
    Decoder.content_block_delta 0 (Decoder.input_json_delta screenshot_json);
    Decoder.content_block_stop 0;
    Decoder.message_stop ].

(** The loop against a provider that answers every request with the same
    events. *)
Definition run_loop (max_iterations : nat) (events : list Decoder.Event)
  : Loop.Exit * Loop.State unit :=
  Loop.run_agent_loop repr_stub int_stub loads_stub iso_stub float_stub
    (Some empty_graph) "Open the settings." max_iterations
    (replicate max_iterations (Loop.stream_ok [] events)) start_state.

(** The state before the first pass and after a first pass that took a
    screenshot. *)
Definition loop_start : Loop.State unit :=
  Loop.mkState [Loop.initial_message "Open the settings."] None start_state [] [].
Definition after_screenshot : Loop.State unit :=
  snd (Loop.iteration repr_stub int_stub loads_stub (Some empty_graph)
         1%nat [] stream_screenshot loop_start).

(** The state after 30 passes that each took a screenshot and clicked. *)
Definition after_thirty : Loop.State unit :=
  snd (run_loop 30 stream_screenshot_then_click).

End Examples.

(** ** Observations on message logs *)

Module Log.

(** The payload that lines 448-450 aim at in a block: for an image block,
    the "data" entry of [src = blk.get("source") or blk] when [src] is a
    dict; no payload for any other block. *)
Definition image_payload (blk : json) : option json :=
  match blk with
  | JDict b =>
      if get_eq_str "type" b "image" then
        match dict_get "source" b with
        | Some src =>
            if truthy src then
              match src with
              | JDict s => dict_get "data" s
              | _ => None
              end
            else dict_get "data" b
        | None => dict_get "data" b
        end
      else None
  | _ => None
  end.

(** [isinstance(blk, dict) and blk.get("type") == "image"], line 447. *)
Definition is_image_block (blk : json) : bool :=
  match blk with
  | JDict b => get_eq_str "type" b "image"
  | _ => false
  end.

(** Whether the content of a message is a list with an image block in it:
    the messages on which [strip_old_images] has something to look at. *)
Definition has_image_block (msg : dict) : bool :=
  match dict_get "content" msg with
  | Some (JList content) => existsb is_image_block content
  | _ => false
  end.

End Log.

(** ** Observations on decoded streams *)

Module Stream.

(** The dict a block object started as. *)
Definition creator_dict (c : Decoder.Creator) : dict :=
  match c with
  | Decoder.by_start _ stub => stub
  | Decoder.by_tool_use tdict => tdict
  end.

(** The [input_json_delta] fragments delivered for [index], in arrival
    order. *)
Fixpoint json_fragments (index : Z) (evs : list Decoder.Event) : list string :=
  match evs with
  | [] => []
  | Decoder.content_block_delta i (Decoder.input_json_delta fragment) :: rest =>
      if bool_decide (i = index) then fragment :: json_fragments index rest
      else json_fragments index rest
  | _ :: rest => json_fragments index rest
  end.

(** Lines 409-412: the value stored as "input" for the accumulated text,
    when one is stored. *)
Definition parsed_input (json_loads : string -> result json) (acc : string) : json :=
  match json_loads acc with
  | Ok v => v
  | Raise _ => JDict []
  end.

(** Invariant of the loop for the frame of the blocks: they are in the
    order of the events that created them; a block differs from the dict it
    started as in its "text" and "input" entries at most; a block made by a
    "tool_use" event is never written; [open_blocks] only refers to blocks
    made by a [content_block_start]. *)
Definition frame_inv (done : list Decoder.Event) (st : Decoder.State) : Prop :=
  length (Decoder.assistant_blocks st) = length (Decoder.creators done) /\
  (forall (i : Z) (ref : nat), Decoder.open_blocks st !! i = Some ref ->
     exists stub, Decoder.creators done !! ref = Some (Decoder.by_start i stub)) /\
  (forall (k : nat) (c : Decoder.Creator), Decoder.creators done !! k = Some c ->
     exists blk, Decoder.assistant_blocks st !! k = Some blk /\
       (forall key, key <> "text" -> key <> "input" ->
          dict_get key blk = dict_get key (creator_dict c)) /\
       (forall tdict, c = Decoder.by_tool_use tdict -> blk = tdict)).

(** Invariants of the loop on a well-formed stream, with [phase] the
    per-index phase of [Decoder.wf_run] after the events [done].

    [open_inv]: an index is in [open_blocks] exactly when it was started;
    the block its [content_block_start] made is the one [open_blocks] names;
    an index not yet started has no accumulator and has received no
    fragment. *)
Definition open_inv (done : list Decoder.Event) (st : Decoder.State)
    (phase : gmap Z bool) : Prop :=
  (forall i : Z, phase !! i = None <-> Decoder.open_blocks st !! i = None) /\
  (forall (k : nat) (i : Z) (stub : dict),
     Decoder.creators done !! k = Some (Decoder.by_start i stub) ->
     Decoder.open_blocks st !! i = Some k) /\
  (forall i : Z, phase !! i = None ->
     json_fragments i done = [] /\ Decoder.partial_json st !! i = None).

(** [acc_inv]: the accumulator of a started tool-use block is the
    concatenation of the fragments delivered for its index; a block of
    another type has no accumulator. *)
Definition acc_inv (done : list Decoder.Event) (st : Decoder.State) : Prop :=
  forall (k : nat) (i : Z) (stub : dict),
    Decoder.creators done !! k = Some (Decoder.by_start i stub) ->
    Decoder.partial_json st !! i =
      if get_eq_str "type" stub "tool_use"
      then Some (Decoder.concat_str (json_fragments i done))
      else None.

(** [req_inv]: the tool requests are distinct; each is a block made by a
    "tool_use" event or a tool-use block whose index was stopped; and a
    stopped tool-use block is requested, its "input" being the parse of the
    fragments of its index. *)
Definition req_inv (json_loads : string -> result json)
    (done : list Decoder.Event) (st : Decoder.State) (phase : gmap Z bool) : Prop :=
  NoDup (Decoder.tool_requests st) /\
  (forall ref : nat, ref ∈ Decoder.tool_requests st ->
     (exists tdict, Decoder.creators done !! ref = Some (Decoder.by_tool_use tdict)) \/
     (exists i stub, Decoder.creators done !! ref = Some (Decoder.by_start i stub) /\
        get_eq_str "type" stub "tool_use" = true /\ phase !! i = Some true)) /\
  (forall (k : nat) (i : Z) (stub : dict),
     Decoder.creators done !! k = Some (Decoder.by_start i stub) ->
     get_eq_str "type" stub "tool_use" = true ->
     phase !! i = Some true ->
     k ∈ Decoder.tool_requests st /\
     exists blk, Decoder.assistant_blocks st !! k = Some blk /\
       dict_get "input" blk
       = Some (parsed_input json_loads (Decoder.concat_str (json_fragments i done)))).


End Stream.

(** ** Provider scripts and tool results *)

Module Provider.

(** No block that the consumed events of a response create is of type
    "image". *)
Definition no_image_stub (events : list Decoder.Event) : bool :=
  forallb (fun c => negb (get_eq_str "type" (Stream.creator_dict c) "image"))
          (Decoder.creators (Decoder.consumed events)).

(** No response of the script streams an image block. *)
Definition sends_no_image (script : list Loop.Response) : bool :=
  forallb (fun response =>
             match response with
             | Loop.stream_ok _ events => no_image_stub events
             | _ => true
             end) script.




End Provider.

(** ** Import of the step graph *)

Module StepGraph.

(** A py2neo [Node("Step", id=..., description=...)]. *)
Record Node : Type := mkNode { node_id : string; node_description : json }.

(** The calls [import_steps] makes on the connection and its transaction,
    lines 87-109: [graph.begin()], [tx.merge(n, "Step", "id")],
    [tx.merge(Relationship(a, "NEXT", b))], [graph.commit(tx)] and
    [graph.rollback(tx)]. *)
Inductive Call : Type :=
| begin
| merge_node (n : Node)
| merge_rel (start_node end_node : Node)
| commit
| rollback.

Definition is_merge (c : Call) : bool :=
  match c with merge_node _ | merge_rel _ _ => true | _ => false end.

Definition is_merge_rel (c : Call) : bool :=
  match c with merge_rel _ _ => true | _ => false end.

(** [s.get("next") is not None]. *)
Definition has_next (s : json) : bool :=
  match s with
  | JDict d => match dict_get_default "next" JNull d with JNull => false | _ => true end
  | _ => false
  end.

Section Importer.

(** [str(x)], and the database: whether a call raises an [Exception],
    given the calls made before it. *)
Variable py_str : json -> string.
Variable fails : list Call -> Call -> option exn.

(** Statements that call the database and may raise; the state is the
    list of the calls made so far, kept when an exception is raised. *)
Definition T (A : Type) : Type := list Call -> result A * list Call.

#[local] Instance T_ret : MRet T := fun A a trace => (Ok a, trace).
#[local] Instance T_bind : MBind T := fun A B f m trace =>
  match m trace with
  | (Ok a, trace') => f a trace'
  | (Raise e, trace') => (Raise e, trace')
  end.

Definition lift {A} (r : result A) : T A := fun trace => (r, trace).

Definition call (c : Call) : T unit := fun trace =>
  (match fails trace c with Some e => Raise e | None => Ok () end, trace ++ [c]).

(** The node of lines 92-96 for a step [d] whose "id" entry is [id]. *)
Definition node_of (d : dict) (id : json) : Node :=
  mkNode (py_str id) (dict_get_default "description" (JStr "") d).

(** Lines 91-98: the first loop, which merges one node per step and
    records it under its id.  [s["id"]] raises [KeyError] on a dict without
    the key and [TypeError] on a step that is no dict. *)
Fixpoint merge_nodes (steps : list json) (nodes : gmap string Node)
  : T (gmap string Node) :=
  match steps with
  | [] => mret nodes
  | s :: rest =>
      match s with
      | JDict d =>
          id ← lift (dict_item "id" d);
          let n := node_of d id in
          call (merge_node n);;
          merge_nodes rest (<[py_str id := n]> nodes)
      | _ => lift (Raise (TypeError "indices must be integers"))
      end
  end.

(** [nodes[k]]. *)
Definition nodes_item (nodes : gmap string Node) (k : string) : result Node :=
  match nodes !! k with
  | Some n => Ok n
  | None => Raise (KeyError k)
  end.

(** Lines 100-104: the second loop, which merges one relationship per
    step whose "next" is not [None]. *)
Fixpoint merge_rels (steps : list json) (nodes : gmap string Node) : T unit :=
  match steps with
  | [] => mret ()
  | s :: rest =>
      match s with
      | JDict d =>
          match dict_get_default "next" JNull d with
          | JNull => merge_rels rest nodes
          | nxt =>
              id ← lift (dict_item "id" d);
              a ← lift (nodes_item nodes (py_str id));
              b ← lift (nodes_item nodes (py_str nxt));
              call (merge_rel a b);;
              merge_rels rest nodes
          end
      | _ => lift (Raise (AttributeError "object has no attribute 'get'"))
      end
  end.

(** Line 83: [data["steps"] if isinstance(data, dict) and "steps" in data
    else data]. *)
Definition steps_of (data : json) : json :=
  match data with
  | JDict d => match dict_get "steps" d with Some v => v | None => data end
  | _ => data
  end.

Definition not_a_list : exn :=
  ValueError "YAML muss eine Liste oder ein Dict mit Schlüssel 'steps' sein.".

(** Lines 89-106: the body of the [try]. *)
Definition transaction (steps : list json) : T unit :=
  nodes ← merge_nodes steps ∅;
  merge_rels steps nodes;;
  call commit.

(** Lines 88 and 108-110: [try: body except Exception: graph.rollback(tx);
    raise].  An exception of the rollback itself replaces the one being
    handled. *)
Definition rolling_back (body : T unit) : T unit := fun trace =>
  match body trace with
  | (Ok tt, trace') => (Ok tt, trace')
  | (Raise e, trace') =>
      match call rollback trace' with
      | (Ok _, trace'') => (Raise e, trace'')
      | (Raise e', trace'') => (Raise e', trace'')
      end
  end.

(** [import_steps], lines 83-110, on the value [data] that
    [yaml.safe_load] returned (mappings with their string keys): the
    outcome and the calls made.  [graph.begin()] stands before the [try]. *)
Definition import_steps (data : json) : T unit :=
  match steps_of data with
  | JList steps =>
      call begin;;
      rolling_back (transaction steps)
  | _ => lift (Raise not_a_list)
  end.

End Importer.

(** A database on which no call fails. *)
Definition sound_store (made : list Call) (c : Call) : option exn := None.

End StepGraph.

(** ** Further sample inputs *)

Module Samples.

(** What [collect_from_stream] returns for a stream that decodes. *)
Definition decoded (stream : list Decoder.Event) : list dict * list nat :=
  match Decoder.collect_from_stream Examples.loads_stub stream with
  | Ok r => r
  | Raise _ => ([], [])
  end.



(** Requests: a click with an empty coordinate list, a click with a
    one-element coordinate list, and a scroll in an unknown direction. *)
Definition click_nowhere : dict :=
  [("action", JStr "left_click"); ("coordinate", JList [])].
Definition click_short : dict :=
  [("action", JStr "left_click"); ("coordinate", JList [JInt 5])].
Definition scroll_diagonal : dict :=
  [("action", JStr "scroll"); ("scroll_direction", JStr "diagonal");
   ("scroll_amount", JInt 3)].

(** A log of 62 equal messages. *)
Definition long_log : list dict := replicate 62 (Loop.initial_message "Open the settings.").



(** The [for] loop over the tool call of a first pass that takes a
    screenshot. *)
Definition first_log : list dict :=
  [Loop.initial_message "Open the settings.";
   Loop.assistant_message (fst (decoded Examples.stream_screenshot))].
Definition first_pass
  : option exn * (list dict * list json * list string) * Dispatcher.State unit :=
  Loop.dispatch_calls Examples.repr_stub Examples.int_stub (Some Examples.empty_graph)
    1%nat (snd (decoded Examples.stream_screenshot)) first_log [] []
    Examples.start_state.

(** The 31st pass of a run whose first 30 passes each took a screenshot
    and clicked, when it takes a screenshot only: the log of line 590 holds
    63 messages and is cut. *)
Definition cut_pass
  : option Loop.Exit * Loop.State unit * (list string * list dict) :=
  Loop.iteration_trace Examples.repr_stub Examples.int_stub Examples.loads_stub
    (Some Examples.empty_graph) 31%nat [] Examples.stream_screenshot
    Examples.after_thirty.

(** A provider that asks for a screenshot and then answers with text. *)
Definition stream_done : list Decoder.Event :=
  [ Decoder.content_block_start 0 Examples.text_stub;
    Decoder.content_block_delta 0 (Decoder.text_delta "Done.");
    Decoder.content_block_stop 0;
    Decoder.message_stop ].
Definition script_two_passes : list Loop.Response :=
  [Loop.stream_ok [] Examples.stream_screenshot; Loop.stream_ok [] stream_done].
Definition run_two_passes : Loop.Exit * Loop.State unit :=
  Loop.run_agent_loop Examples.repr_stub Examples.int_stub Examples.loads_stub
    Examples.iso_stub Examples.float_stub (Some Examples.empty_graph)
    "Open the settings." 5%nat script_two_passes Examples.start_state.

(** Step files: two steps linked by "next", and a step whose "next" names
    no step.  [str_stub] stands for [str] on the ids of these files. *)
Definition str_stub (v : json) : string :=
  match v with JStr text => text | _ => "?" end.
Definition dangling_step : dict := [("id", JStr "1"); ("next", JStr "3")].
Definition imported (data : json) : result unit * list StepGraph.Call :=
  StepGraph.import_steps str_stub StepGraph.sound_store data [].

End Samples.

(* ===================================================================== *)
(** * Part II: properties *)
(* ===================================================================== *)

(** ** Python dicts *)

Lemma dict_get_set_eq k v d : dict_get k (dict_set k v d) = Some v.
Proof.
  induction d as [|[k' v'] d IH]; simpl.
  - by rewrite String.eqb_refl.
  - destruct (String.eqb k k') eqn:E; simpl; rewrite E; auto.
Qed.

Lemma dict_get_set_ne k k' v d :
  k' <> k -> dict_get k' (dict_set k v d) = dict_get k' d.
Proof.
  intros Hne. induction d as [|[k0 v0] d IH]; simpl.
  - destruct (String.eqb k' k) eqn:E; auto.
    apply String.eqb_eq in E. congruence.
  - destruct (String.eqb k k0) eqn:E; simpl.
    + apply String.eqb_eq in E. subst k0.
      destruct (String.eqb k' k) eqn:E'; auto.
      apply String.eqb_eq in E'. congruence.
    + by rewrite IH.
Qed.

Lemma dict_set_set k v v' d : dict_set k v (dict_set k v' d) = dict_set k v d.
Proof.
  induction d as [|[k0 v0] d IH]; simpl.
  - by rewrite String.eqb_refl.
  - destruct (String.eqb k k0) eqn:E; simpl; rewrite E; auto.
    by rewrite IH.
Qed.

Lemma dict_mem_set_eq k v d : dict_mem k (dict_set k v d) = true.
Proof. unfold dict_mem. by rewrite dict_get_set_eq. Qed.

Lemma dict_set_length_mem k v d :
  dict_mem k d = true -> length (dict_set k v d) = length d.
Proof.
  unfold dict_mem. induction d as [|[k0 v0] d IH]; simpl; [done|].
  destruct (String.eqb k k0); simpl; auto.
Qed.

Lemma dict_set_keys_mem k v d :
  dict_mem k d = true -> map fst (dict_set k v d) = map fst d.
Proof.
  unfold dict_mem. induction d as [|[k0 v0] d IH]; simpl; [done|].
  destruct (String.eqb k k0); simpl; auto. intros H. by rewrite IH.
Qed.

Lemma get_eq_str_set_ne k k' v d s :
  k' <> k -> get_eq_str k' (dict_set k v d) s = get_eq_str k' d s.
Proof. intros. unfold get_eq_str. by rewrite dict_get_set_ne. Qed.

(** ** History manager *)

Lemma rev_map_rev {A B} (f : A -> B) (l : list A) :
  rev (map f (rev l)) = map f l.
Proof. by rewrite map_rev, rev_involutive. Qed.

(** Visiting in reverse order and writing in place is a pointwise map. *)
Lemma strip_old_images_map messages :
  History.strip_old_images messages = map History.strip_message messages.
Proof. apply rev_map_rev. Qed.

Lemma strip_message_content msg content :
  dict_get "content" msg = Some (JList content) ->
  History.strip_message msg =
    dict_set "content" (JList (map History.strip_block content)) msg.
Proof. intros H. unfold History.strip_message. by rewrite H, rev_map_rev. Qed.

Lemma strip_block_idem blk :
  History.strip_block (History.strip_block blk) = History.strip_block blk.
Proof.
  destruct blk as [| | | | |l|b]; try reflexivity.
  unfold History.strip_block at 2 3.
  destruct (get_eq_str "type" b "image") eqn:Ht; [|simpl; by rewrite Ht].
  destruct (dict_get "source" b) as [src|] eqn:Hs.
  - destruct (truthy src) eqn:Htr.
    + destruct src as [| | | | | |s]; try (simpl; by rewrite Ht, Hs, Htr).
      destruct (dict_mem "data" s) eqn:Hd; [|simpl; by rewrite Ht, Hs, Htr, Hd].
      simpl. rewrite get_eq_str_set_ne, Ht by done.
      rewrite dict_get_set_eq.
      assert (truthy (JDict (dict_set "data" (JStr "") s)) = true) as ->.
      { destruct s as [|[k0 v0] s]; simpl; [done|].
        by destruct (String.eqb "data" k0). }
      by rewrite dict_mem_set_eq, dict_set_set, dict_set_set.
    + destruct (dict_mem "data" b) eqn:Hd; [|simpl; by rewrite Ht, Hs, Htr, Hd].
      simpl. rewrite get_eq_str_set_ne, Ht by done.
      rewrite dict_get_set_ne, Hs, Htr by done.
      by rewrite dict_mem_set_eq, dict_set_set.
  - destruct (dict_mem "data" b) eqn:Hd; [|simpl; by rewrite Ht, Hs, Hd].
    simpl. rewrite get_eq_str_set_ne, Ht by done.
    rewrite dict_get_set_ne, Hs by done.
    by rewrite dict_mem_set_eq, dict_set_set.
Qed.

Lemma strip_message_idem msg :
  History.strip_message (History.strip_message msg) = History.strip_message msg.
Proof.
  destruct (dict_get "content" msg) as [c|] eqn:Hc.
  - destruct c as [| | | | |content|]; try (unfold History.strip_message; by rewrite Hc, Hc).
    rewrite (strip_message_content _ _ Hc).
    rewrite (strip_message_content _ (map History.strip_block content))
      by apply dict_get_set_eq.
    rewrite dict_set_set. do 2 f_equal.
    rewrite map_map. apply map_ext. intros. apply strip_block_idem.
  - unfold History.strip_message. by rewrite Hc, Hc.
Qed.

(** C7. [strip_old_images] is idempotent: applying it twice to any message
    log leaves the log as one application does. *)
Theorem strip_old_images_idempotent (messages : list dict) :
  History.strip_old_images (History.strip_old_images messages)
  = History.strip_old_images messages.
Proof.
  rewrite !strip_old_images_map, map_map.
  apply map_ext. intros. apply strip_message_idem.
Qed.

Lemma strip_block_frame blk : History.block_frame blk (History.strip_block blk).
Proof.
  destruct blk as [| | | | |l|b]; try (by left).
  unfold History.strip_block.
  destruct (get_eq_str "type" b "image") eqn:Ht; [|by left].
  destruct (dict_get "source" b) as [src|] eqn:Hs.
  - destruct (truthy src) eqn:Htr.
    + destruct src as [| | | | | |s]; try (by left).
      destruct (dict_mem "data" s) eqn:Hd; [|by left].
      right; left. by exists b, s.
    + destruct (dict_mem "data" b) eqn:Hd; [|by left].
      right; right. exists b. by rewrite Hs.
  - destruct (dict_mem "data" b) eqn:Hd; [|by left].
    right; right. exists b. by rewrite Hs.
Qed.

(** A block that is not an image block is returned as it is. *)
Lemma strip_block_non_image blk :
  (forall b, blk = JDict b -> get_eq_str "type" b "image" = false) ->
  History.strip_block blk = blk.
Proof.
  intros H. destruct blk as [| | | | |l|b]; try reflexivity.
  simpl. by rewrite (H b eq_refl).
Qed.

Lemma strip_message_frame msg :
  History.message_frame History.block_frame msg (History.strip_message msg).
Proof.
  destruct (dict_get "content" msg) as [c|] eqn:Hc.
  - destruct c as [| | | | |content|];
      try (left; unfold History.strip_message; by rewrite Hc).
    right. exists content, (map History.strip_block content).
    split; [done|]. split; [|by apply strip_message_content].
    clear Hc. induction content; constructor; auto using strip_block_frame.
  - left. unfold History.strip_message. by rewrite Hc.
Qed.

(** Every field of a message other than "content" is kept, and so are the
    keys and their order. *)
Lemma strip_message_fields msg :
  map fst (History.strip_message msg) = map fst msg /\
  forall k, k <> "content" ->
    dict_get k (History.strip_message msg) = dict_get k msg.
Proof.
  unfold History.strip_message.
  destruct (dict_get "content" msg) as [[| | | | |content|]|] eqn:Hc; try done.
  split.
  - apply dict_set_keys_mem. unfold dict_mem. by rewrite Hc.
  - intros k Hk. by apply dict_get_set_ne.
Qed.

(** C10 (amended). [strip_old_images] keeps the number and order of the
    messages and of the blocks of every message, keeps every block that is
    not an image block, and changes an image block at most in one "data"
    field: that of its source object, or, when the block has no usable
    source, the "data" field of the block itself; the field becomes the
    empty string. *)
Theorem strip_old_images_frame (messages : list dict) :
  History.log_frame History.block_frame messages (History.strip_old_images messages)
  /\ length (History.strip_old_images messages) = length messages.
Proof.
  split.
  - rewrite strip_old_images_map. unfold History.log_frame.
    induction messages; constructor; auto using strip_message_frame.
  - rewrite strip_old_images_map. apply length_map.
Qed.

(** C10 as stated fails: on a log whose image block carries "data" directly
    (no source object), the change made by [strip_old_images] is not
    confined to the "data" field inside a source. *)
Lemma strip_old_images_touches_block_data :
  History.strip_old_images History.log_direct_image
    = [ [("role", JStr "user");
         ("content", JList [JDict [("type", JStr "image"); ("data", JStr "")]])] ]
  /\ ~ History.log_frame History.block_frame_stated
        History.log_direct_image
        (History.strip_old_images History.log_direct_image).
Proof.
  split; [reflexivity|].
  intros H. apply Forall2_cons_1 in H as [Hm _].
  destruct Hm as [Hm | (content & content' & Hc & Hf & Hm)]; [discriminate Hm|].
  injection Hc as <-.
  apply Forall2_cons_inv_l in Hf as (blk' & rest & Hb & Hrest & ->).
  apply Forall2_nil_inv_l in Hrest as ->.
  destruct Hb as [-> | (b & s & Hb & _ & Hsrc & _)]; [discriminate Hm|].
  injection Hb as <-. discriminate Hsrc.
Qed.

(** ** Stream decoder *)

Lemma append_nil_r (s : string) : s +:+ "" = s.
Proof.
  induction s as [|c s IH]; [done|].
  change (String c (s +:+ "") = String c s). by rewrite IH.
Qed.

Lemma append_assoc (a b c : string) : (a +:+ b) +:+ c = a +:+ (b +:+ c).
Proof.
  induction a as [|x a IH]; [done|].
  change (String x ((a +:+ b) +:+ c) = String x (a +:+ (b +:+ c))). by rewrite IH.
Qed.

Lemma concat_str_snoc l s : Decoder.concat_str (l ++ [s]) = Decoder.concat_str l +:+ s.
Proof.
  induction l as [|a l IH]; simpl.
  - by rewrite append_nil_r.
  - by rewrite IH, append_assoc.
Qed.

Lemma bind_Ok {A B} (f : A -> result B) (m : result A) (b : B) :
  mbind f m = Ok b <-> exists a, m = Ok a /\ f a = Ok b.
Proof.
  destruct m as [a|e]; simpl; split.
  - intros H. by exists a.
  - by intros (a' & [= <-] & H).
  - discriminate.
  - by intros (a' & [=] & _).
Qed.

(** Splits a hypothesis [x ← m; k = Ok b] into its two steps. *)
Ltac bind_inv H :=
  let a := fresh "a" in
  let Ha := fresh "Ha" in
  apply bind_Ok in H as (a & Ha & H).

Section DecoderFacts.

Variable json_loads : string -> result json.

Abbreviation step := (Decoder.step json_loads).
Abbreviation run_steps := (Decoder.run_steps json_loads).
Abbreviation collect_loop := (Decoder.collect_loop json_loads).
Abbreviation collect_from_stream := (Decoder.collect_from_stream json_loads).

Lemma collect_loop_consumed stream st :
  collect_loop stream st = run_steps (Decoder.consumed stream) st.
Proof.
  revert st. induction stream as [|ev rest IH]; intros st; [done|].
  destruct ev;
    cbn [Decoder.collect_loop Decoder.consumed Decoder.run_steps]; try done;
    match goal with
    | |- context [Decoder.step _ ?ev st] => destruct (step ev st); simpl; auto
    end.
Qed.

Lemma run_steps_app evs1 evs2 st :
  run_steps (evs1 ++ evs2) st = (st' ← run_steps evs1 st; run_steps evs2 st').
Proof.
  revert st. induction evs1 as [|ev evs1 IH]; intros st; [done|].
  simpl. destruct (step ev st); simpl; auto.
Qed.

Lemma run_steps_snoc evs ev st st' :
  run_steps (evs ++ [ev]) st = Ok st' <->
  exists st1, run_steps evs st = Ok st1 /\ step ev st1 = Ok st'.
Proof.
  rewrite run_steps_app, bind_Ok. simpl.
  split; intros (st1 & H1 & H2); exists st1; split; auto.
  - by destruct (step ev st1).
  - by rewrite H2.
Qed.

(** What [step] does to [open_blocks]. *)
Lemma step_open_blocks ev st st' :
  step ev st = Ok st' ->
  Decoder.open_blocks st' =
    match ev with
    | Decoder.content_block_start index _ =>
        <[index := length (Decoder.assistant_blocks st)]> (Decoder.open_blocks st)
    | _ => Decoder.open_blocks st
    end.
Proof.
  intros H. destruct ev as [index blk|index delta|index|tdict| |ty]; simpl in H.
  - bind_inv H. by injection H as <-.
  - bind_inv H. destruct delta as [text|frag|ty].
    + bind_inv H. destruct (Decoder.get_text _); try discriminate.
      by injection H as <-.
    + destruct (Decoder.partial_json st !! index); try discriminate.
      by injection H as <-.
    + by injection H as <-.
  - bind_inv H. bind_inv H. bind_inv H.
    destruct (eq_str _ _); [|by injection H as <-].
    destruct (Decoder.partial_json st !! index); try discriminate.
    bind_inv H. by injection H as <-.
  - by injection H as <-.
  - by injection H as <-.
  - by injection H as <-.
Qed.

Lemma collect_loop_cons ev rest st :
  ev <> Decoder.message_stop ->
  collect_loop (ev :: rest) st = (st' ← step ev st; collect_loop rest st').
Proof. by destruct ev. Qed.

Lemma unopened_reference_raises stream : forall started st,
  (forall i, i ∈ started <-> is_Some (Decoder.open_blocks st !! i)) ->
  Decoder.unopened_reference started stream = true ->
  exists e, collect_loop stream st = Raise e.
Proof.
  induction stream as [|ev rest IH]; intros started st Hdom Hun; [done|].
  assert (ev = Decoder.message_stop \/ ev <> Decoder.message_stop) as [->|Hev]
    by (destruct ev; (by left) || (by right)).
  { done. }
  rewrite collect_loop_cons by done.
  destruct (step ev st) as [st'|e] eqn:Hs; [|by exists e].
  pose proof (step_open_blocks _ _ _ Hs) as Ho. simpl.
  destruct ev as [index blk|index delta|index|tdict| |ty]; simpl in Hun; try done.
  - apply (IH ({[index]} ∪ started)); [|done].
    intros i. rewrite Ho, elem_of_union, elem_of_singleton, Hdom.
    destruct (decide (index = i)) as [->|Hne].
    + rewrite lookup_insert_eq. split; eauto.
    + rewrite lookup_insert_ne by done.
      split; [intros [?|?]; [congruence|done] | by right].
  - case_bool_decide as Hin.
    + apply (IH started); [|done]. intros i. by rewrite Ho.
    + exfalso. simpl in Hs. unfold Decoder.open_block in Hs.
      destruct (Decoder.open_blocks st !! index) eqn:Hl; [|done].
      apply Hin, Hdom. by rewrite Hl.
  - case_bool_decide as Hin.
    + apply (IH started); [|done]. intros i. by rewrite Ho.
    + exfalso. simpl in Hs. unfold Decoder.open_block in Hs.
      destruct (Decoder.open_blocks st !! index) eqn:Hl; [|done].
      apply Hin, Hdom. by rewrite Hl.
  - apply (IH started); [|done]. intros i. by rewrite Ho.
  - apply (IH started); [|done]. intros i. by rewrite Ho.
Qed.

(** A consumed reference to an index that was never started makes
    [collect_from_stream] raise. *)
Lemma collect_from_stream_raises (stream : list Decoder.Event) :
  Decoder.unopened_reference ∅ stream = true ->
  exists e, collect_from_stream stream = Raise e.
Proof.
  intros H. unfold Decoder.collect_from_stream.
  destruct (unopened_reference_raises stream ∅ Decoder.init) as [e He]; [|done|].
  - intros i. simpl. rewrite lookup_empty. split; [set_solver|by intros [? ?]].
  - exists e. by rewrite He.
Qed.

Lemma alter_lookup_inv {A} (f : A -> A) (ref r : nat) (l : list A) (y : A) :
  alter f ref l !! r = Some y ->
  exists x, l !! r = Some x /\ ((r <> ref /\ y = x) \/ (r = ref /\ y = f x)).
Proof.
  destruct (decide (ref = r)) as [->|Hne].
  - rewrite list_lookup_alter_eq. destruct (l !! r) as [x|]; [|done].
    intros [= <-]. exists x. auto.
  - rewrite list_lookup_alter_ne by done. intros H. exists y. auto.
Qed.

Lemma accumulator_inv_write st ref k v :
  k <> "type" -> Decoder.accumulator_inv st ->
  Decoder.accumulator_inv (Decoder.write_block st ref k v).
Proof.
  intros Hk Hinv i r Ho. simpl in *. destruct (Hinv i r Ho) as [Hlt Hty].
  split; [by rewrite length_alter|].
  intros blk' Hb' Ht.
  apply alter_lookup_inv in Hb' as (blk & Hb & [[_ ->] | [_ ->]]); [eauto|].
  apply (Hty blk Hb). by rewrite get_eq_str_set_ne in Ht.
Qed.

Lemma step_accumulator_inv ev st st' :
  Decoder.accumulator_inv st -> step ev st = Ok st' -> Decoder.accumulator_inv st'.
Proof.
  intros Hinv H. destruct ev as [index blk|index delta|index|tdict| |ty]; simpl in H.
  - bind_inv H. injection H as <-. intros i r. simpl.
    rewrite length_app. simpl.
    destruct (decide (index = i)) as [->|Hne].
    + rewrite lookup_insert_eq. intros [= <-]. split; [lia|].
      intros blk'. rewrite lookup_app_r, Nat.sub_diag by lia. intros [= <-] Ht.
      unfold dict_item in Ha. unfold get_eq_str in Ht.
      destruct (dict_get "type" blk); [|done]. injection Ha as <-.
      rewrite Ht. by rewrite lookup_insert_eq.
    + rewrite lookup_insert_ne by done. intros Ho.
      destruct (Hinv i r Ho) as [Hlt Hty]. split; [lia|].
      intros blk'. rewrite lookup_app_l by done. intros Hb Ht.
      destruct (eq_str a "tool_use"); [rewrite lookup_insert_ne by done|]; eauto.
  - bind_inv H. destruct delta as [text|frag|ty].
    + bind_inv H. destruct (Decoder.get_text _); try discriminate.
      injection H as <-. by apply accumulator_inv_write.
    + destruct (Decoder.partial_json st !! index) eqn:Hp; try discriminate.
      injection H as <-. intros i r Ho. simpl in *.
      destruct (Hinv i r Ho) as [Hlt Hty]. split; [done|].
      intros blk Hb Ht. destruct (decide (index = i)) as [->|Hne].
      * by rewrite lookup_insert_eq.
      * rewrite lookup_insert_ne by done. eauto.
    + by injection H as <-.
  - bind_inv H. bind_inv H. bind_inv H.
    destruct (eq_str _ _); [|by injection H as <-].
    destruct (Decoder.partial_json st !! index); try discriminate.
    bind_inv H.
    injection H as <-.
    by apply (accumulator_inv_write st a "input" _).
  - injection H as <-. intros i r Ho. simpl in *.
    destruct (Hinv i r Ho) as [Hlt Hty]. rewrite length_app. split; [lia|].
    intros blk. rewrite lookup_app_l by done. eauto.
  - by injection H as <-.
  - by injection H as <-.
Qed.

Lemma run_steps_accumulator_inv evs : forall st st',
  Decoder.accumulator_inv st -> run_steps evs st = Ok st' -> Decoder.accumulator_inv st'.
Proof.
  induction evs as [|ev evs IH]; intros st st' Hinv H; simpl in H.
  - by injection H as <-.
  - bind_inv H. eauto using step_accumulator_inv.
Qed.

Lemma accumulator_inv_init : Decoder.accumulator_inv Decoder.init.
Proof. intros i r. simpl. by rewrite lookup_empty. Qed.

(** References held in [open_blocks] are never dangling. *)
Lemma open_blocks_in_range evs st i ref :
  run_steps evs Decoder.init = Ok st ->
  Decoder.open_blocks st !! i = Some ref ->
  exists blk, Decoder.deref st ref = Ok blk.
Proof.
  intros Hrun Ho.
  destruct (run_steps_accumulator_inv _ _ _ accumulator_inv_init Hrun i ref Ho) as [Hlt _].
  apply lookup_lt_is_Some in Hlt as [blk Hb]. exists blk.
  unfold Decoder.deref. by rewrite Hb.
Qed.

(** The references in [tool_requests] are in range as well. *)
Lemma step_requests_in_range ev st st' :
  Decoder.accumulator_inv st ->
  Forall (fun r => (r < length (Decoder.assistant_blocks st))%nat)
         (Decoder.tool_requests st) ->
  step ev st = Ok st' ->
  Forall (fun r => (r < length (Decoder.assistant_blocks st'))%nat)
         (Decoder.tool_requests st').
Proof.
  intros Hinv Hr H. destruct ev as [index blk|index delta|index|tdict| |ty]; simpl in H.
  - bind_inv H. injection H as <-. simpl. rewrite length_app.
    eapply Forall_impl; [exact Hr|]. simpl. lia.
  - bind_inv H. destruct delta as [text|frag|ty].
    + bind_inv H. destruct (Decoder.get_text _); try discriminate.
      injection H as <-. simpl. by rewrite length_alter.
    + destruct (Decoder.partial_json st !! index); try discriminate.
      by injection H as <-.
    + by injection H as <-.
  - bind_inv H. rename a into ref. unfold Decoder.open_block in Ha.
    destruct (Decoder.open_blocks st !! index) as [r|] eqn:Ho; [|done].
    injection Ha as ->. destruct (Hinv index ref Ho) as [Hlt _].
    bind_inv H. bind_inv H.
    destruct (eq_str _ _); [|by injection H as <-].
    destruct (Decoder.partial_json st !! index); try discriminate.
    bind_inv H.
    injection H as <-. simpl. rewrite length_alter.
    apply Forall_app. split; [done|]. by constructor.
  - injection H as <-. simpl. rewrite length_app. simpl.
    apply Forall_app. split.
    + eapply Forall_impl; [exact Hr|]. simpl. lia.
    + constructor; [lia|constructor].
  - by injection H as <-.
  - by injection H as <-.
Qed.

Lemma run_steps_requests_in_range evs : forall st st',
  Decoder.accumulator_inv st ->
  Forall (fun r => (r < length (Decoder.assistant_blocks st))%nat)
         (Decoder.tool_requests st) ->
  run_steps evs st = Ok st' ->
  Forall (fun r => (r < length (Decoder.assistant_blocks st'))%nat)
         (Decoder.tool_requests st').
Proof.
  induction evs as [|ev evs IH]; intros st st' Hinv Hr H; simpl in H.
  - by injection H as <-.
  - bind_inv H. eauto using step_accumulator_inv, step_requests_in_range.
Qed.

(** Every reference that [collect_from_stream] returns names a block that
    it returns. *)
Lemma collect_from_stream_requests_in_range stream blocks reqs :
  collect_from_stream stream = Ok (blocks, reqs) ->
  Forall (fun r => is_Some (blocks !! r)) reqs.
Proof.
  unfold Decoder.collect_from_stream. intros H. bind_inv H.
  injection H as <- <-. rewrite collect_loop_consumed in Ha.
  eapply Forall_impl.
  - eapply run_steps_requests_in_range; [apply accumulator_inv_init| |exact Ha].
    constructor.
  - intros r. apply lookup_lt_is_Some.
Qed.

Lemma creators_app evs1 evs2 :
  Decoder.creators (evs1 ++ evs2) = Decoder.creators evs1 ++ Decoder.creators evs2.
Proof.
  induction evs1 as [|ev evs1 IH]; [done|].
  destruct ev; simpl; by rewrite ?IH.
Qed.

Lemma start_indices_app evs1 evs2 :
  Decoder.start_indices (evs1 ++ evs2)
  = Decoder.start_indices evs1 ++ Decoder.start_indices evs2.
Proof.
  induction evs1 as [|ev evs1 IH]; [done|].
  destruct ev; simpl; by rewrite ?IH.
Qed.

Lemma text_fragments_app i evs1 evs2 :
  Decoder.text_fragments i (evs1 ++ evs2)
  = Decoder.text_fragments i evs1 ++ Decoder.text_fragments i evs2.
Proof.
  induction evs1 as [|ev evs1 IH]; [done|].
  destruct ev as [| ? [] | | | |]; simpl; try done.
  case_bool_decide; simpl; by rewrite IH.
Qed.

Lemma creators_start_index evs : forall k i stub,
  Decoder.creators evs !! k = Some (Decoder.by_start i stub) ->
  i ∈ Decoder.start_indices evs.
Proof.
  induction evs as [|ev evs IH]; intros k i stub H; [done|].
  destruct ev; simpl in *; eauto; destruct k as [|k]; simpl in H;
    try discriminate; [injection H as <- <-; left | right; eauto | eauto].
Qed.

Lemma creators_start_inj evs : forall k k' i stub stub',
  NoDup (Decoder.start_indices evs) ->
  Decoder.creators evs !! k = Some (Decoder.by_start i stub) ->
  Decoder.creators evs !! k' = Some (Decoder.by_start i stub') ->
  k = k'.
Proof.
  induction evs as [|ev evs IH]; intros k k' i stub stub' Hnd Hk Hk'; [done|].
  destruct ev as [j blk| | |tdict| |]; simpl in *; eauto.
  - apply NoDup_cons in Hnd as [Hj Hnd].
    destruct k as [|k], k' as [|k']; simpl in *; auto.
    + injection Hk as <- <-. exfalso. eauto using creators_start_index.
    + injection Hk' as <- <-. exfalso. eauto using creators_start_index.
    + f_equal. eauto.
  - destruct k as [|k], k' as [|k']; simpl in *; try discriminate.
    f_equal. eauto.
Qed.

Lemma get_text_set_text v blk : Decoder.get_text (dict_set "text" v blk) = v.
Proof. unfold Decoder.get_text, dict_get_default. by rewrite dict_get_set_eq. Qed.

Lemma get_text_set_input v blk :
  Decoder.get_text (dict_set "input" v blk) = Decoder.get_text blk.
Proof. unfold Decoder.get_text, dict_get_default. by rewrite dict_get_set_ne. Qed.

Lemma text_inv_same_text done ev st st' :
  Decoder.text_inv done st ->
  Decoder.creators [ev] = [] ->
  (forall i, Decoder.text_fragments i [ev] = []) ->
  Decoder.open_blocks st' = Decoder.open_blocks st ->
  length (Decoder.assistant_blocks st') = length (Decoder.assistant_blocks st) ->
  (forall k blk, Decoder.assistant_blocks st !! k = Some blk ->
     exists blk', Decoder.assistant_blocks st' !! k = Some blk' /\
       Decoder.get_text blk' = Decoder.get_text blk) ->
  Decoder.text_inv (done ++ [ev]) st'.
Proof.
  intros (I1 & I2 & I3 & I5) Hc Hf Ho Hlen Htext.
  unfold Decoder.text_inv. rewrite creators_app, Hc, app_nil_r, Ho, Hlen.
  split; [done|]. split; [done|]. split.
  - intros i Hn. rewrite text_fragments_app, Hf, app_nil_r. auto.
  - intros k i stub s0 Hk Hs0. rewrite text_fragments_app, Hf, app_nil_r.
    destruct (I5 k i stub s0 Hk Hs0) as (blk & Hb & Ht).
    destruct (Htext k blk Hb) as (blk' & Hb' & Ht'). exists blk'.
    split; [done|]. by rewrite Ht'.
Qed.

Lemma lookup_alter_same_text (f : dict -> dict) ref (l : list dict) k blk :
  (forall b, Decoder.get_text (f b) = Decoder.get_text b) ->
  l !! k = Some blk ->
  exists blk', alter f ref l !! k = Some blk' /\
    Decoder.get_text blk' = Decoder.get_text blk.
Proof.
  intros Hf Hb. destruct (decide (ref = k)) as [->|Hne].
  - exists (f blk). by rewrite list_lookup_alter_eq, Hb.
  - exists blk. by rewrite list_lookup_alter_ne.
Qed.

Lemma text_inv_step done ev st st' :
  NoDup (Decoder.start_indices (done ++ [ev])) ->
  Decoder.text_inv done st ->
  step ev st = Ok st' ->
  Decoder.text_inv (done ++ [ev]) st'.
Proof.
  intros Hnd Hinv H. rewrite start_indices_app in Hnd.
  destruct ev as [index blk|index delta|index|tdict| |ty]; simpl in H.
  - (* content_block_start *)
    destruct Hinv as (I1 & I2 & I3 & I5).
    bind_inv H. injection H as <-. simpl in Hnd.
    apply NoDup_app in Hnd as (Hnd & Hfresh & _).
    assert (Decoder.open_blocks st !! index = None) as Hclosed.
    { destruct (Decoder.open_blocks st !! index) as [r|] eqn:Ho; [|done].
      destruct (I2 index r Ho) as [stub Hr].
      exfalso. apply (Hfresh index); [eauto using creators_start_index|left]. }
    unfold Decoder.text_inv. rewrite creators_app. simpl.
    split; [by rewrite !length_app, I1|]. split; [|split].
    + intros i r. destruct (decide (index = i)) as [->|Hne].
      * rewrite lookup_insert_eq. intros [= <-]. exists blk.
        by rewrite I1, lookup_app_r, Nat.sub_diag.
      * rewrite lookup_insert_ne by done. intros Ho.
        destruct (I2 i r Ho) as [stub Hr]. exists stub.
        by apply lookup_app_l_Some.
    + intros i Hn. rewrite text_fragments_app. simpl. rewrite app_nil_r.
      apply I3. destruct (decide (index = i)) as [->|Hne].
      * by rewrite lookup_insert_eq in Hn.
      * by rewrite lookup_insert_ne in Hn.
    + intros k i stub s0 Hk Hs0. rewrite text_fragments_app. simpl.
      rewrite app_nil_r. apply lookup_app_Some in Hk as [Hk|[Hge Hk]].
      * destruct (I5 k i stub s0 Hk Hs0) as (b & Hb & Ht). exists b.
        split; [by apply lookup_app_l_Some|done].
      * destruct (k - length (Decoder.creators done))%nat as [|n] eqn:Hk0;
          [|done]. injection Hk as <- <-.
        assert (k = length (Decoder.assistant_blocks st)) as -> by lia.
        exists blk. rewrite lookup_app_r, Nat.sub_diag by done.
        split; [done|]. by rewrite (I3 index Hclosed), Hs0, append_nil_r.
  - (* content_block_delta *)
    bind_inv H. rename a into ref.
    unfold Decoder.open_block in Ha.
    destruct (Decoder.open_blocks st !! index) as [r|] eqn:Ho; [|done].
    injection Ha as ->.
    destruct delta as [text|frag|ty].
    + destruct Hinv as (I1 & I2 & I3 & I5).
      bind_inv H. rename a into blk. unfold Decoder.deref in Ha.
      destruct (Decoder.assistant_blocks st !! ref) as [b|] eqn:Hb; [|done].
      injection Ha as ->.
      destruct (Decoder.get_text blk) as [| | | |old| |] eqn:Hold; try done.
      injection H as <-. simpl in Hnd. rewrite app_nil_r in Hnd.
      unfold Decoder.text_inv. rewrite creators_app. simpl.
      rewrite app_nil_r, length_alter.
      split; [done|]. split; [done|]. split.
      * intros i Hn. rewrite text_fragments_app. simpl.
        case_bool_decide as Hi; [congruence|]. rewrite app_nil_r. auto.
      * intros k i stub s0 Hk Hs0. rewrite text_fragments_app. simpl.
        destruct (I5 k i stub s0 Hk Hs0) as (b0 & Hb0 & Ht0).
        case_bool_decide as Hi.
        -- subst i. destruct (I2 index ref Ho) as [stub' Hr].
           assert (k = ref) as -> by eauto using creators_start_inj.
           rewrite Hb in Hb0. injection Hb0 as <-.
           rewrite Hold in Ht0. injection Ht0 as ->.
           eexists. rewrite list_lookup_alter_eq, Hb. split; [done|].
           by rewrite get_text_set_text, concat_str_snoc, append_assoc.
        -- rewrite app_nil_r. exists b0. split; [|done].
           rewrite list_lookup_alter_ne; [done|]. intros ->.
           destruct (I2 index k Ho) as [stub' Hr]. congruence.
    + destruct (Decoder.partial_json st !! index); [|done]. injection H as <-.
      apply (text_inv_same_text done _ st); eauto.
    + injection H as <-. apply (text_inv_same_text done _ st); eauto.
  - (* content_block_stop *)
    bind_inv H. bind_inv H. bind_inv H.
    destruct (eq_str _ _).
    + destruct (Decoder.partial_json st !! index); [|done].
      bind_inv H. injection H as <-.
      apply (text_inv_same_text done _ st); simpl; auto using length_alter.
      intros k b Hb. apply lookup_alter_same_text; [|done].
      intros b'. apply get_text_set_input.
    + injection H as <-. apply (text_inv_same_text done _ st); eauto.
  - (* tool_use *)
    destruct Hinv as (I1 & I2 & I3 & I5). injection H as <-.
    unfold Decoder.text_inv. rewrite creators_app. simpl.
    split; [by rewrite !length_app, I1|]. split; [|split].
    + intros i r Ho. destruct (I2 i r Ho) as [stub Hr]. exists stub.
      by apply lookup_app_l_Some.
    + intros i Hn. rewrite text_fragments_app. simpl. rewrite app_nil_r. auto.
    + intros k i stub s0 Hk Hs0. rewrite text_fragments_app. simpl.
      rewrite app_nil_r. apply lookup_app_Some in Hk as [Hk|[Hge Hk]].
      * destruct (I5 k i stub s0 Hk Hs0) as (b & Hb & Ht). exists b.
        split; [by apply lookup_app_l_Some|done].
      * by destruct (k - length (Decoder.creators done))%nat.
  - injection H as <-. apply (text_inv_same_text done _ st); eauto.
  - injection H as <-. apply (text_inv_same_text done _ st); eauto.
Qed.

Lemma text_inv_init : Decoder.text_inv [] Decoder.init.
Proof.
  unfold Decoder.text_inv. simpl. split; [done|]. split; [|split]; done.
Qed.

Lemma run_steps_text_inv evs : forall st,
  NoDup (Decoder.start_indices evs) ->
  run_steps evs Decoder.init = Ok st ->
  Decoder.text_inv evs st.
Proof.
  induction evs as [|ev evs IH] using rev_ind; intros st Hnd H.
  - injection H as <-. apply text_inv_init.
  - apply run_steps_snoc in H as (st1 & H1 & H2).
    apply (text_inv_step evs ev st1 st); try done.
    apply IH; [|done]. rewrite start_indices_app in Hnd.
    by apply NoDup_app in Hnd as (? & _).
Qed.

Lemma wf_run_NoDup evs : forall phase phase',
  Decoder.wf_run phase evs = Some phase' ->
  NoDup (Decoder.start_indices evs) /\
  forall i, i ∈ Decoder.start_indices evs -> phase !! i = None.
Proof.
  induction evs as [|ev evs IH]; intros phase phase' H; simpl in *.
  - split; [constructor|]. intros i Hi. by apply elem_of_nil in Hi.
  - destruct (Decoder.wf_step phase ev) as [phase1|] eqn:Hs; [|done].
    destruct (IH _ _ H) as [Hnd Hnone].
    destruct ev as [index blk|index delta|index|tdict| |ty]; simpl in *.
    + destruct (phase !! index) eqn:Hp; [done|]. injection Hs as <-.
      split.
      * constructor; [|done]. intros Hin. apply Hnone in Hin.
        by rewrite lookup_insert_eq in Hin.
      * intros i [->|Hin]%elem_of_cons; [done|].
        apply Hnone in Hin. destruct (decide (index = i)) as [->|Hne].
        -- by rewrite lookup_insert_eq in Hin.
        -- by rewrite lookup_insert_ne in Hin.
    + destruct (phase !! index) as [[]|]; try done. by injection Hs as <-.
    + destruct (phase !! index) as [[]|] eqn:Hp; try done. injection Hs as <-.
      split; [done|]. intros i Hin. apply Hnone in Hin.
      destruct (decide (index = i)) as [->|Hne].
      * by rewrite lookup_insert_eq in Hin.
      * by rewrite lookup_insert_ne in Hin.
    + by injection Hs as <-.
    + by injection Hs as <-.
    + by injection Hs as <-.
Qed.

Lemma well_formed_NoDup stream :
  Decoder.well_formed stream = true ->
  NoDup (Decoder.start_indices (Decoder.consumed stream)).
Proof.
  unfold Decoder.well_formed.
  destruct (Decoder.wf_run ∅ (Decoder.consumed stream)) eqn:H; [|done].
  intros _. by apply wf_run_NoDup in H as [? _].
Qed.

(** C5 (amended). For a well-formed stream (per index: one
    [content_block_start], then its deltas, then its single
    [content_block_stop]) that [collect_from_stream] decodes, the block
    created by the [content_block_start] of index [i] ends with a text field
    equal to the text its stub carried ([stub.get("text", "")], a string)
    followed by the concatenation, in arrival order, of the [text_delta]
    fragments delivered for [i]. *)
Theorem collect_from_stream_text
    (stream : list Decoder.Event) (blocks : list dict) (reqs : list nat)
    (k : nat) (i : Z) (stub : dict) (s0 : string) :
  Decoder.well_formed stream = true ->
  collect_from_stream stream = Ok (blocks, reqs) ->
  Decoder.creators (Decoder.consumed stream) !! k = Some (Decoder.by_start i stub) ->
  Decoder.get_text stub = JStr s0 ->
  exists blk, blocks !! k = Some blk /\
    Decoder.get_text blk =
      JStr (s0 +:+ Decoder.concat_str
                     (Decoder.text_fragments i (Decoder.consumed stream))).
Proof.
  intros Hwf H Hk Hs0. unfold Decoder.collect_from_stream in H.
  bind_inv H. injection H as <- <-. rewrite collect_loop_consumed in Ha.
  apply run_steps_text_inv in Ha as (_ & _ & _ & I5);
    [|by apply well_formed_NoDup].
  eauto.
Qed.

(** For a stub that arrives with no text, as the provider sends it, the
    text is the concatenation of the fragments alone. *)
Lemma collect_from_stream_text_empty_stub stream blocks reqs k i stub :
  Decoder.well_formed stream = true ->
  collect_from_stream stream = Ok (blocks, reqs) ->
  Decoder.creators (Decoder.consumed stream) !! k = Some (Decoder.by_start i stub) ->
  Decoder.get_text stub = JStr "" ->
  exists blk, blocks !! k = Some blk /\
    Decoder.get_text blk =
      JStr (Decoder.concat_str (Decoder.text_fragments i (Decoder.consumed stream))).
Proof.
  intros Hwf H Hk Hs0. unfold Decoder.collect_from_stream in H.
  bind_inv H. injection H as <- <-. rewrite collect_loop_consumed in Ha.
  apply run_steps_text_inv in Ha as (_ & _ & _ & I5);
    [|by apply well_formed_NoDup].
  apply (I5 k i stub "" Hk Hs0).
Qed.

End DecoderFacts.

(** ** Action dispatcher *)

Section DispatcherFacts.

Context {W : Type} `{Dispatcher.Effector W}.
Variable py_repr : dict -> string.
Variable py_int : json -> result Z.

Abbreviation execute_computer_tool := (Dispatcher.execute_computer_tool py_repr py_int).
Abbreviation dispatch := (Dispatcher.dispatch py_repr py_int).

(** [leaf x] holds when [x] has no case analysis inside it. *)
Ltac leaf x :=
  lazymatch x with
  | context [match _ with (_, _) => _ end] => fail
  | context [match _ with Ok _ => _ | Raise _ => _ end] => fail
  | context [if _ then _ else _] => fail
  | _ => idtac
  end.

(** Runs the statements of a branch of [dispatch], splitting on the outcome
    of every call that may raise, innermost first. *)
Ltac run_branch :=
  unfold Dispatcher.done_text;
  unfold mbind, mret, Dispatcher.M_bind, Dispatcher.M_ret, Dispatcher.effect,
    Dispatcher.lift, Dispatcher.incr_PROCESSSTEP,
    Dispatcher.get_PROCESSSTEP_ID, Dispatcher.set_PROCESSSTEP_ID;
  repeat first
    [ progress cbn [Dispatcher.PROCESSSTEP Dispatcher.PROCESSSTEP_ID Dispatcher.world
                    fst snd]
    | match goal with
      | |- context [match ?x with (_, _) => _ end] => leaf x; destruct x eqn:?
      | |- context [match ?x with Ok _ => _ | Raise _ => _ end] =>
          leaf x; destruct x eqn:?
      | |- context [if ?c then _ else _] => leaf c; destruct c eqn:?
      end ].

Lemma click_at_counter act coord st :
  match Dispatcher.click_at act coord st with
  | (Ok (_, _, is_err), st') =>
      is_err = false /\ Dispatcher.PROCESSSTEP st' = Dispatcher.PROCESSSTEP st + 1
  | (Raise _, st') => Dispatcher.PROCESSSTEP st' = Dispatcher.PROCESSSTEP st
  end.
Proof. unfold Dispatcher.click_at. run_branch; auto. Qed.

Lemma navigate_counter query (st : Dispatcher.State W) :
  match Dispatcher.navigate query st with
  | (_, st') => Dispatcher.PROCESSSTEP st' = Dispatcher.PROCESSSTEP st
  end.
Proof. unfold Dispatcher.navigate. run_branch; auto. Qed.

(** The click and navigation branches of [dispatch], by their lemmas. *)
Ltac click_case st :=
  match goal with
  | |- context [Dispatcher.click_at ?act ?coord st] =>
      pose proof (click_at_counter act coord st) as Hc;
      destruct (Dispatcher.click_at act coord st) as [[[[? ?] ?]|?] ?];
      [destruct Hc as [-> ->]|]; lia
  end.

Ltac nav_case st :=
  match goal with
  | |- context [Dispatcher.navigate ?q st] =>
      pose proof (navigate_counter q st) as Hn;
      destruct (Dispatcher.navigate q st) as [[[[? ?] ?]|?] ?]; exact Hn
  end.

(** The final [else], lines 350-354, also counts the request. *)
Lemma execute_computer_tool_invalid_counts tool_input graph_db (st : Dispatcher.State W) :
  Dispatcher.classify tool_input = Dispatcher.Invalid ->
  Dispatcher.PROCESSSTEP (snd (execute_computer_tool tool_input graph_db st))
  = Dispatcher.PROCESSSTEP st + 1.
Proof.
  unfold Dispatcher.classify, Dispatcher.execute_computer_tool, Dispatcher.dispatch.
  repeat match goal with
         | |- context [if ?c then _ else _] => leaf c; destruct c eqn:?
         end; try discriminate.
  reflexivity.
Qed.

(** C1 (amended). For every request dispatched by [execute_computer_tool]:
    a desktop action that carries its required arguments adds one to
    [PROCESSSTEP] when it returns without error and leaves the counter as it
    was when it returns an error; the navigation actions [prev], [next] and
    [curr] never change [PROCESSSTEP]; every other request returns a text
    payload that describes the invalid request, with [is_error] set. *)
Theorem execute_computer_tool_counter tool_input graph_db (st : Dispatcher.State W) :
  let '((flag, data, is_err), st') := execute_computer_tool tool_input graph_db st in
  match Dispatcher.classify tool_input with
  | Dispatcher.DesktopAction =>
      Dispatcher.PROCESSSTEP st'
      = Dispatcher.PROCESSSTEP st + (if is_err then 0 else 1)
  | Dispatcher.Navigation =>
      Dispatcher.PROCESSSTEP st' = Dispatcher.PROCESSSTEP st
  | Dispatcher.Invalid =>
      flag = "text" /\ is_err = true /\
      data = JStr (Dispatcher.unknown_action +:+ py_repr tool_input)
  end.
Proof.
  unfold Dispatcher.classify, Dispatcher.execute_computer_tool, Dispatcher.dispatch.
  repeat match goal with
         | |- context [if ?c then _ else _] =>
             lazymatch c with
             | eq_str (Dispatcher.py_get "action" _) _ => destruct c eqn:?
             | (eq_str (Dispatcher.py_get "action" _) _ && _)%bool => destruct c eqn:?
             end
         end.
  - (* screenshot *) run_branch; lia.
  - (* mouse_move *) run_branch; lia.
  - (* left_click *) click_case st.
  - (* right_click *) click_case st.
  - (* double_click *) click_case st.
  - (* type *) run_branch; lia.
  - (* key *) run_branch; lia.
  - (* scroll *) run_branch; lia.
  - (* wait *) run_branch; lia.
  - (* prev *) nav_case st.
  - (* next *) nav_case st.
  - (* curr *) nav_case st.
  - (* else *) run_branch. auto.
Qed.

End DispatcherFacts.

(** ** Loop controller *)

Lemma last_n_length {A} (n : nat) (l : list A) : (length (History.last_n n l) <= n)%nat.
Proof. unfold History.last_n. rewrite length_drop. lia. Qed.

Lemma last_n_all {A} (n : nat) (l : list A) :
  (length l <= n)%nat -> History.last_n n l = l.
Proof.
  intros Hl. unfold History.last_n.
  by replace (length l - n)%nat with 0%nat by lia.
Qed.

Lemma strip_message_initial user_prompt :
  History.strip_message (Loop.initial_message user_prompt)
  = Loop.initial_message user_prompt.
Proof. reflexivity. Qed.

Lemma strip_old_images_head messages user_prompt :
  messages !! 0%nat = Some (Loop.initial_message user_prompt) ->
  History.strip_old_images messages !! 0%nat = Some (Loop.initial_message user_prompt).
Proof.
  intros Hm. rewrite strip_old_images_map, list_lookup_fmap, Hm. simpl.
  by rewrite strip_message_initial.
Qed.

Section LoopFacts.

Context {W : Type} `{Dispatcher.Effector W}.
Variable py_repr : dict -> string.
Variable py_int : json -> result Z.
Variable json_loads : string -> result json.
Variable fromisoformat : string -> result Q.
Variable py_float : string -> option Q.
Variable graph_db : option Dispatcher.Graph.

Abbreviation dispatch_calls := (Loop.dispatch_calls py_repr py_int graph_db).
Abbreviation iteration := (Loop.iteration py_repr py_int json_loads graph_db).
Abbreviation iteration_trace :=
  (Loop.iteration_trace py_repr py_int json_loads graph_db).
Abbreviation await_provider := (Loop.await_provider (W:=W) fromisoformat py_float).
Abbreviation run_agent_loop :=
  (Loop.run_agent_loop py_repr py_int json_loads fromisoformat py_float graph_db).

(** The [for] loop over the tool calls keeps the first message of the log. *)
Lemma dispatch_calls_head user_prompt a calls : forall messages results flags
    (rs : Dispatcher.State W) exn messages' results' flags' rs',
  dispatch_calls a calls messages results flags rs
    = (exn, (messages', results', flags'), rs') ->
  messages !! 0%nat = Some (Loop.initial_message user_prompt) ->
  messages' !! 0%nat = Some (Loop.initial_message user_prompt).
Proof.
  induction calls as [|ref calls IH];
    intros messages results flags rs exn messages' results' flags' rs' Hd Hm;
    simpl in Hd.
  - by injection Hd as <- <- <- <- <-.
  - destruct (mbind _ (Loop.tool_call messages a ref)) as [tool_input|e].
    2: { by injection Hd as <- <- <- <- <-. }
    destruct (Dispatcher.execute_computer_tool _ _ _ _ _) as [[[flag result] is_err] rs1].
    assert ((if String.eqb flag "image" then History.strip_old_images messages
             else messages) !! 0%nat = Some (Loop.initial_message user_prompt)) as Hm'.
    { destruct (String.eqb flag "image"); auto using strip_old_images_head. }
    destruct (mbind _ (Loop.tool_call _ a ref)) as [id|e].
    + eapply IH; eauto.
    + by injection Hd as <- <- <- <- <-.
Qed.

(** The tool-call objects stay reachable through the log: the references
    of the decoder point into the assistant message, and
    [strip_old_images] keeps every block a dict at its position. *)
Lemma tool_call_assistant (messages : list dict) blocks ref tc :
  blocks !! ref = Some tc ->
  Loop.tool_call (messages ++ [Loop.assistant_message blocks]) (length messages) ref
  = Ok tc.
Proof.
  intros Hb. unfold Loop.tool_call.
  rewrite lookup_app_r, Nat.sub_diag by done. simpl.
  change (dict_get "content" (Loop.assistant_message blocks))
    with (Some (JList (map JDict blocks))).
  unfold dict in *. by rewrite list_lookup_fmap, Hb.
Qed.

Lemma strip_block_dict tc : exists tc', History.strip_block (JDict tc) = JDict tc'.
Proof.
  unfold History.strip_block.
  repeat match goal with
         | |- context [match ?x with _ => _ end] => destruct x
         end; eauto.
Qed.

Lemma tool_call_strip messages a ref tc :
  Loop.tool_call messages a ref = Ok tc ->
  exists tc', Loop.tool_call (History.strip_old_images messages) a ref = Ok tc'.
Proof.
  unfold Loop.tool_call. rewrite strip_old_images_map, list_lookup_fmap.
  destruct (messages !! a) as [msg|]; [|done]. simpl.
  destruct (dict_get "content" msg) as [[| | | | |blocks|]|] eqn:Hc; try done.
  rewrite (strip_message_content _ _ Hc), dict_get_set_eq, list_lookup_fmap.
  destruct (blocks !! ref) as [[| | | | | |d]|]; try done. intros _.
  cbn [fmap option_fmap option_map].
  destruct (strip_block_dict d) as [tc' ->]. by exists tc'.
Qed.

(** The [for] loop over the tool calls never fails on a lost reference. *)
Lemma dispatch_calls_reachable a calls : forall messages results flags
    (rs : Dispatcher.State W) e out rs',
  Forall (fun ref => exists tc, Loop.tool_call messages a ref = Ok tc) calls ->
  dispatch_calls a calls messages results flags rs = (Some e, out, rs') ->
  exn_class e <> "dangling".
Proof.
  induction calls as [|ref calls IH];
    intros messages results flags rs e out rs' Hreach Hd; simpl in Hd; [done|].
  apply Forall_cons in Hreach as [[tc Htc] Hreach].
  rewrite Htc in Hd. simpl in Hd. unfold dict_item in Hd.
  destruct (dict_get "input" tc) as [input|]; simpl in Hd;
    [|by injection Hd as <- _ _].
  destruct input; simpl in Hd; try by injection Hd as <- _ _.
  destruct (Dispatcher.execute_computer_tool _ _ _ _ _) as [[[flag result] is_err] rs1].
  assert (Forall (fun ref => exists tc,
            Loop.tool_call (if String.eqb flag "image"
                            then History.strip_old_images messages else messages)
                           a ref = Ok tc) (ref :: calls)) as Hreach'.
  { destruct (String.eqb flag "image"); [|by constructor; eauto].
    constructor; [by eapply tool_call_strip|].
    eapply Forall_impl; [exact Hreach|]. intros r [tc0 Hr]. by eapply tool_call_strip. }
  apply Forall_cons in Hreach' as [[tc1 Htc1] Hreach'].
  rewrite Htc1 in Hd. simpl in Hd.
  destruct (dict_get "id" tc1) as [id|]; simpl in Hd; [|by injection Hd as <- _ _].
  eapply IH; eauto.
Qed.

(** What a pass that goes on to the next one has done. *)
Lemma iteration_continues i headers events (st st' : Loop.State W) flags pre :
  iteration_trace i headers events st = (None, st', (flags, pre)) ->
  exists blocks calls messages2 results,
    Decoder.collect_from_stream json_loads events = Ok (blocks, calls) /\
    dispatch_calls (length (Loop.messages st)) calls
        (Loop.messages st ++ [Loop.assistant_message blocks]) [] [] (Loop.run st)
      = (None, (messages2, results, flags), Loop.run st') /\
    pre = messages2 ++ [Loop.user_message results] /\
    Loop.truncate_after (List.last flags "") pre = Ok (Loop.messages st').
Proof.
  unfold Loop.iteration_trace. intros Hi.
  destruct (Decoder.collect_from_stream json_loads events) as [[blocks calls]|e];
    [|discriminate].
  destruct calls as [|c calls]; [discriminate|].
  destruct (Loop.dispatch_calls _ _ _ _ _ _ _ _ _) as [[[e|] [[messages2 results] flags']] rs]
    eqn:Hd; [discriminate|].
  destruct (Loop.truncate_after _ _) as [post|e] eqn:Ht; [|discriminate].
  injection Hi as <- <- <-. by exists blocks, (c :: calls), messages2, results.
Qed.

(** What lines 592-593 do after a loop pass that goes on to the next one,
    with [flags] the flags of its tool results in order and [pre] the log as
    line 590 leaves it: the test reads the flag of the last tool result
    only.  If that one carried an image, the log is message 0 followed by
    the last 60 messages of [pre]; if not, the log is [pre], whatever the
    earlier results carried.  Message 0 stays the original instruction. *)
Lemma iteration_truncates_on_last_image
    (user_prompt : string) (i : nat) (headers : RateLimit.Headers)
    (events : list Decoder.Event) (st st' : Loop.State W)
    (flags : list string) (pre : list dict) :
  Loop.messages st !! 0%nat = Some (Loop.initial_message user_prompt) ->
  iteration_trace i headers events st = (None, st', (flags, pre)) ->
  (List.last flags "" = "image" ->
     Loop.messages st' = Loop.initial_message user_prompt :: History.last_n 60 pre /\
     (length (Loop.messages st') <= 61)%nat) /\
  (List.last flags "" <> "image" -> Loop.messages st' = pre) /\
  Loop.messages st' !! 0%nat = Some (Loop.initial_message user_prompt).
Proof.
  intros Hm Hi.
  destruct (iteration_continues _ _ _ _ _ _ _ Hi)
    as (blocks & calls & messages2 & results & Hc & Hd & -> & Ht).
  assert (messages2 !! 0%nat = Some (Loop.initial_message user_prompt)) as Hm2.
  { eapply dispatch_calls_head; [exact Hd|]. by apply lookup_app_l_Some. }
  destruct messages2 as [|m0 messages2]; [done|]. injection Hm2 as ->.
  unfold Loop.truncate_after in Ht. simpl in Ht.
  destruct (String.eqb (List.last flags "") "image") eqn:Hf.
  - apply String.eqb_eq in Hf. injection Ht as <-.
    split; [|split; [done|done]]. intros _. split; [done|].
    simpl. pose proof (last_n_length 60
      (Loop.initial_message user_prompt :: messages2 ++ [Loop.user_message results])).
    lia.
  - apply String.eqb_neq in Hf. injection Ht as <-.
    split; [done|]. split; done.
Qed.

(** C9. When a loop pass truncates (its flag is "image"), the log becomes
    the first message of the log [pre] of line 590 followed by the last 60
    messages of [pre]: [pre] splits into what is dropped and a window of
    [min 60 (length pre)] messages, and the log is the first message of
    [pre] followed by that window.  So when [pre] holds at most 60 messages
    the first message stands twice, at positions 0 and 1, and the log is one
    message longer than [pre]. *)
Theorem iteration_truncation_duplicates_head
    (i : nat) (headers : RateLimit.Headers)
    (events : list Decoder.Event) (st st' : Loop.State W)
    (flags : list string) (pre : list dict) :
  iteration_trace i headers events st = (None, st', (flags, pre)) ->
  List.last flags "" = "image" ->
  exists m0 rest dropped window,
    pre = m0 :: rest /\
    pre = dropped ++ window /\
    length window = Nat.min 60 (length pre) /\
    Loop.messages st' = m0 :: window /\
    ((length pre <= 60)%nat ->
       Loop.messages st' = m0 :: m0 :: rest /\
       length (Loop.messages st') = S (length pre)).
Proof.
  intros Hi Hf.
  destruct (iteration_continues _ _ _ _ _ _ _ Hi)
    as (blocks & calls & messages2 & results & Hc & Hd & Hpre & Ht).
  unfold Loop.truncate_after in Ht. rewrite Hf in Ht. simpl in Ht.
  destruct pre as [|m0 rest]; [discriminate|].
  injection Ht as <-.
  exists m0, rest, (take (length (m0 :: rest) - 60) (m0 :: rest)),
    (drop (length (m0 :: rest) - 60) (m0 :: rest)).
  split; [done|]. split; [by rewrite take_drop|].
  split; [rewrite length_drop; lia|]. split; [done|].
  intros Hlen. rewrite last_n_all by done. split; [done|]. reflexivity.
Qed.

(** Message 0 of the log is the user instruction in every state of a run. *)
Lemma await_provider_messages script : forall (st : Loop.State W),
  Loop.messages (snd (fst (await_provider script st))) = Loop.messages st.
Proof.
  induction script as [|response script IH]; intros st; [done|].
  destruct response as [headers events|headers now| |e]; simpl; try done.
  destruct (Loop.TIME_TO_WAIT st) as [ts|]; [|done].
  destruct (RateLimit.wait_until_itpm_reset _ _ _ _ _ _) as [wait|e]; [|done].
  by rewrite IH.
Qed.

Lemma iteration_head user_prompt i headers events (st : Loop.State W) :
  Loop.messages st !! 0%nat = Some (Loop.initial_message user_prompt) ->
  Loop.messages (snd (iteration i headers events st)) !! 0%nat
  = Some (Loop.initial_message user_prompt).
Proof.
  intros Hm. unfold Loop.iteration, Loop.iteration_trace.
  destruct (Decoder.collect_from_stream json_loads events) as [[blocks calls]|e];
    [|done].
  destruct calls as [|c calls]; [by apply lookup_app_l_Some|].
  destruct (Loop.dispatch_calls _ _ _ _ _ _ _ _ _)
    as [[exn [[messages2 results] flags]] rs] eqn:Hd.
  assert (messages2 !! 0%nat = Some (Loop.initial_message user_prompt)) as Hm2.
  { eapply dispatch_calls_head; [exact Hd|]. by apply lookup_app_l_Some. }
  destruct exn as [e|]; [done|].
  destruct messages2 as [|m0 messages2]; [done|].
  unfold Loop.truncate_after. simpl.
  by destruct (String.eqb (List.last flags "") "image").
Qed.

Lemma iterations_head user_prompt remaining : forall i script (st : Loop.State W),
  Loop.messages st !! 0%nat = Some (Loop.initial_message user_prompt) ->
  Loop.messages
    (snd (Loop.iterations py_repr py_int json_loads fromisoformat py_float graph_db
            remaining i script st)) !! 0%nat
  = Some (Loop.initial_message user_prompt).
Proof.
  induction remaining as [|remaining IH]; intros i script st Hm; [done|].
  simpl. pose proof (await_provider_messages script st) as Ha.
  destruct (Loop.await_provider _ _ script st) as [[[exit|[headers events]] st1] script1];
    simpl in Ha; [simpl; by rewrite Ha|].
  pose proof (iteration_head user_prompt i headers events st1) as Hi.
  rewrite Ha in Hi. specialize (Hi Hm).
  destruct (Loop.iteration _ _ _ _ i headers events st1) as [[exit|] st2];
    simpl in Hi; [done|]. by apply IH.
Qed.

Lemma run_agent_loop_keeps_instruction user_prompt max_iterations script
    (rs : Dispatcher.State W) :
  Loop.messages (snd (run_agent_loop user_prompt max_iterations script rs)) !! 0%nat
  = Some (Loop.initial_message user_prompt).
Proof. by apply iterations_head. Qed.

(** C8. When the events the decoder consumes (those before the first
    [message_stop]) reference an index in a [content_block_delta] or a
    [content_block_stop] before any [content_block_start] of that index,
    [collect_from_stream] returns no decoded result: it raises, and the
    loop pass that decodes the stream leaves [run_agent_loop] with that
    exception instead of going on. *)
Theorem collect_from_stream_unopened_reference (stream : list Decoder.Event) :
  Decoder.unopened_reference ∅ stream = true ->
  exists e,
    Decoder.collect_from_stream json_loads stream = Raise e /\
    forall i headers (st : Loop.State W),
      fst (iteration i headers stream st) = Some (Loop.raised e).
Proof.
  intros Hun. destruct (collect_from_stream_raises json_loads stream Hun) as [e He].
  exists e. split; [done|]. intros i headers st.
  unfold Loop.iteration, Loop.iteration_trace. by rewrite He.
Qed.

(** C4, the failing case: when the very first request is throttled, the
    handler reads the local [TIME_TO_WAIT] before any assignment to it; the
    [UnboundLocalError] leaves [run_agent_loop] after one request, without
    any wait and without a retry. *)
Theorem run_agent_loop_first_request_throttled
    (user_prompt : string) (max_iterations : nat)
    (headers : RateLimit.Headers) (now : Q) (rest : list Loop.Response)
    (rs : Dispatcher.State W) :
  exists msg st,
    run_agent_loop user_prompt (S max_iterations)
      (Loop.rate_limited headers now :: rest) rs
      = (Loop.raised (UnboundLocalError msg), st) /\
    Loop.slept st = [] /\
    Loop.sent st = [[Loop.initial_message user_prompt]] /\
    Loop.run st = rs.
Proof. eexists _, _. split; [reflexivity|]. by simpl. Qed.


End LoopFacts.

(** ** Rate limiter *)

Section RateLimitFacts.

Variable fromisoformat : string -> result Q.
Variable py_float : string -> option Q.

Abbreviation wait_until_itpm_reset :=
  (RateLimit.wait_until_itpm_reset fromisoformat py_float).

(** With a reset stamp, the fudge enters the wait twice: once on line 475
    and once more on line 482. *)
Lemma wait_with_reset headers ts fudge now reset :
  ts <> "" ->
  fromisoformat ts = Ok reset ->
  wait_until_itpm_reset headers (Some ts) fudge now
  = Ok (RateLimit.ceil_ms (Qmax 0 (((reset - now) + fudge) + fudge))).
Proof.
  intros Hts Hr. unfold RateLimit.wait_until_itpm_reset.
  apply String.eqb_neq in Hts. rewrite Hts. simpl. by rewrite Hr.
Qed.

(** Without a stamp, the wait is the "retry-after" header plus the fudge. *)
Lemma wait_with_retry_after headers fudge now :
  wait_until_itpm_reset headers None fudge now
  = Ok (RateLimit.ceil_ms
          (Qmax 0 (match py_float (default "0" (RateLimit.headers_get "retry-after" headers)) with
                   | Some w => w
                   | None => 0
                   end + fudge))).
Proof. reflexivity. Qed.

Lemma ceil_ms_nonneg (wait : Q) : (0 <= wait -> 0 <= RateLimit.ceil_ms wait)%Q.
Proof.
  intros Hw. unfold RateLimit.ceil_ms.
  assert (0 <= wait * 1000)%Q as H1000.
  { apply Qmult_le_0_compat; [done|]. by unfold Qle. }
  assert (0 <= Qceiling (wait * 1000))%Z as Hc.
  { change 0%Z with (Qceiling 0). by apply Qceiling_resp_le. }
  unfold Qdiv. apply Qmult_le_0_compat.
  - unfold Qle. simpl. lia.
  - by unfold Qle.
Qed.

(** The wait handed to [time.sleep] is never negative. *)
Lemma wait_until_itpm_reset_nonneg headers ts fudge now wait :
  wait_until_itpm_reset headers ts fudge now = Ok wait -> (0 <= wait)%Q.
Proof.
  unfold RateLimit.wait_until_itpm_reset. intros Hw.
  apply bind_Ok in Hw as (w & _ & Hw). injection Hw as <-.
  apply ceil_ms_nonneg, Q.le_max_l.
Qed.

End RateLimitFacts.

(** C2, the failing input: for a reset stamp ten seconds after [now] and a
    fudge of half a second, [wait_until_itpm_reset] sleeps 11 seconds, not
    the 10.5 seconds of [max(0, (reset - now) + fudge)] rounded up to the
    millisecond. *)
Theorem wait_until_itpm_reset_ten_seconds :
  exists wait,
    RateLimit.wait_until_itpm_reset Examples.iso_stub Examples.float_stub
      [] (Some "2025-07-25T12:34:56Z") (1 # 2) (inject_Z 1753446886) = Ok wait /\
    (wait == 11)%Q /\
    (RateLimit.wait_as_stated (inject_Z 1753446896) (inject_Z 1753446886) (1 # 2)
       == 21 # 2)%Q /\
    ~ (wait == RateLimit.wait_as_stated
                 (inject_Z 1753446896) (inject_Z 1753446886) (1 # 2))%Q /\
    RateLimit.wait_binary64 10%float 0.5%float = Some 11%float.
Proof.
  eexists. split; [vm_compute; reflexivity|].
  split; [by vm_compute|]. split; [by vm_compute|]. split; [by vm_compute|].
  reflexivity.
Qed.

(** ** Counterexamples and instances *)

(** Two fragments of one tool call decode to one request with the parsed
    input. *)
Example decode_two_fragments :
  (fun '(blocks, reqs) => Decoder.tool_request_blocks blocks reqs)
    <$> Decoder.collect_from_stream Examples.loads_stub Examples.stream_two_fragments
  = Ok [ [("type", JStr "tool_use"); ("id", JStr "toolu_01");
          ("name", JStr "computer");
          ("input", JDict [("action", JStr "screenshot")])] ].
Proof. reflexivity. Qed.

(** A tool call whose argument text does not parse is still requested, with
    an empty input. *)
Example decode_broken_tool :
  (fun '(blocks, reqs) => Decoder.tool_request_blocks blocks reqs)
    <$> Decoder.collect_from_stream Examples.loads_stub
          Examples.stream_text_and_broken_tool
  = Ok [ [("type", JStr "tool_use"); ("id", JStr "toolu_01");
          ("name", JStr "computer"); ("input", JDict [])] ].
Proof. reflexivity. Qed.

(** Scrolling down by 3 calls [pyautogui.scroll(-300)], waits for the
    desktop to settle and counts one action. *)
Example scroll_down_three :
  Dispatcher.execute_computer_tool (H:=Examples.recording_desktop)
    Examples.repr_stub Examples.int_stub
    [("action", JStr "scroll"); ("scroll_direction", JStr "down");
     ("scroll_amount", JInt 3)]
    None (Dispatcher.mkState 1 7 [])
  = (("text", JStr "", false),
     Dispatcher.mkState 1 8 [("scroll", JInt (-300)); ("sleep", Dispatcher.settle)]).
Proof. reflexivity. Qed.

(** A run of two passes whose second request is throttled once: the wait
    is computed from the reset stamp of the first response, the request is
    sent again with the same log, and the run returns from the second
    pass. *)
Example throttled_second_request :
  let r := Loop.run_agent_loop Examples.repr_stub Examples.int_stub
             Examples.loads_stub Examples.iso_stub Examples.float_stub None
             "Open the settings." 2
             [ Loop.stream_ok
                 [("anthropic-ratelimit-input-tokens-reset", "2025-07-25T12:34:56Z")]
                 Examples.stream_screenshot;
               Loop.rate_limited [("retry-after", "30")] (inject_Z 1753446886);
               Loop.stream_ok [] [Decoder.message_stop] ]
             Examples.start_state in
  fst r = Loop.returned (Some 2%nat)
  /\ Loop.slept (snd r) = [(11000 # 1000)%Q]
  /\ (Loop.sent (snd r) !! 1%nat = Loop.sent (snd r) !! 2%nat
      /\ length (Loop.sent (snd r)) = 3%nat).
Proof. by vm_compute. Qed.

(** A click that pyautogui refuses is reported as an error and not
    counted. *)
Example left_click_refused :
  Dispatcher.execute_computer_tool (H:=Examples.stuck_desktop)
    Examples.repr_stub Examples.int_stub
    [("action", JStr "left_click"); ("coordinate", JList [JInt 10; JInt 20])]
    None Examples.start_state
  = (("text", JStr "PyAutoGUI fail-safe triggered", true), Examples.start_state).
Proof. reflexivity. Qed.

(** C1 as stated fails twice: [prev] succeeds and leaves [PROCESSSTEP] as it
    was, and an unknown action adds one to it. *)
Lemma counter_as_stated_fails :
  ~ Dispatcher.counter_as_stated Examples.repr_stub Examples.int_stub
      [("action", JStr "prev")] (Some Examples.empty_graph) Examples.start_state
  /\
  ~ Dispatcher.counter_as_stated Examples.repr_stub Examples.int_stub
      [("action", JStr "fly")] (Some Examples.empty_graph) Examples.start_state.
Proof.
  split.
  - intros Hc. vm_compute in Hc. by specialize (Hc eq_refl).
  - intros Hc. vm_compute in Hc. by destruct Hc as [Hc _].
Qed.

(** The 31st pass of a run in which every pass takes a screenshot and then
    clicks: it goes on, its first result carries an image, and it leaves in
    the log all 63 messages of the log of line 590. *)
Lemma thirty_first_pass :
  fst (fst (Loop.iteration_trace Examples.repr_stub Examples.int_stub
              Examples.loads_stub (Some Examples.empty_graph) 31%nat []
              Examples.stream_screenshot_then_click Examples.after_thirty))
    = None
  /\ fst (snd (Loop.iteration_trace Examples.repr_stub Examples.int_stub
                 Examples.loads_stub (Some Examples.empty_graph) 31%nat []
                 Examples.stream_screenshot_then_click Examples.after_thirty))
     = ["image"; "text"]
  /\ length (Loop.messages
               (snd (fst (Loop.iteration_trace Examples.repr_stub Examples.int_stub
                            Examples.loads_stub (Some Examples.empty_graph) 31%nat []
                            Examples.stream_screenshot_then_click
                            Examples.after_thirty))))
     = 63%nat
  /\ Loop.messages
       (snd (fst (Loop.iteration_trace Examples.repr_stub Examples.int_stub
                    Examples.loads_stub (Some Examples.empty_graph) 31%nat []
                    Examples.stream_screenshot_then_click Examples.after_thirty)))
     = snd (snd (Loop.iteration_trace Examples.repr_stub Examples.int_stub
                   Examples.loads_stub (Some Examples.empty_graph) 31%nat []
                   Examples.stream_screenshot_then_click Examples.after_thirty))
  /\ length (Loop.messages Examples.after_thirty) = 61%nat.
Proof. by vm_compute. Qed.

(** From the same log, a 31st pass that takes the screenshot only: its
    single result carries an image, and of the 63 messages of the log of
    line 590 it keeps 61. *)
Lemma thirty_first_pass_screenshot_only :
  fst (fst Samples.cut_pass) = None
  /\ fst (snd Samples.cut_pass) = ["image"]
  /\ length (snd (snd Samples.cut_pass)) = 63%nat
  /\ length (Loop.messages (snd (fst Samples.cut_pass))) = 61%nat.
Proof. by vm_compute. Qed.

(** C3, the failing case.  In a run whose every response asks for a
    screenshot and then for a click, the 31st pass starts from a log of 61
    messages, its results carry the flags "image" and "text", and it goes
    on with all 63 messages of the log of line 590: line 592 tests the flag
    that the last tool call left, so the image result of the pass does not
    trigger the truncation, and the log exceeds the 61 messages that the
    rule of the specification allows.  From the same log, the pass that
    takes the screenshot only is truncated to 61 messages. *)
Theorem iteration_image_then_click_untruncated :
  (exists (st' : Loop.State unit) (pre : list dict),
     Loop.iteration_trace Examples.repr_stub Examples.int_stub
       Examples.loads_stub (Some Examples.empty_graph) 31%nat []
       Examples.stream_screenshot_then_click Examples.after_thirty
     = (None, st', (["image"; "text"], pre)) /\
     length (Loop.messages Examples.after_thirty) = 61%nat /\
     length pre = 63%nat /\
     Loop.messages st' = pre /\
     (61 < length (Loop.messages st'))%nat) /\
  ~ Loop.truncation_as_stated Examples.repr_stub Examples.int_stub
      Examples.loads_stub (Some Examples.empty_graph) 31%nat []
      Examples.stream_screenshot_then_click Examples.after_thirty /\
  (exists (st' : Loop.State unit) (pre : list dict),
     Loop.iteration_trace Examples.repr_stub Examples.int_stub
       Examples.loads_stub (Some Examples.empty_graph) 31%nat []
       Examples.stream_screenshot Examples.after_thirty
     = (None, st', (["image"], pre)) /\
     length pre = 63%nat /\
     length (Loop.messages st') = 61%nat).
Proof.
  split; [|split].
  - destruct thirty_first_pass as (Hexit & Hflags & Hlen & Hsame & Hstart).
    destruct (Loop.iteration_trace _ _ _ _ _ _ _ _) as [[exit st'] [flags pre]].
    simpl in Hexit, Hflags, Hlen, Hsame. subst exit flags.
    exists st', pre. split; [done|]. split; [done|].
    split; [by rewrite <- Hsame|]. split; [done|]. lia.
  - unfold Loop.truncation_as_stated.
    destruct thirty_first_pass as (Hexit & Hflags & Hlen & Hsame & Hstart).
    destruct (Loop.iteration_trace _ _ _ _ _ _ _ _) as [[exit st'] [flags pre]].
    simpl in Hexit, Hflags, Hlen, Hsame. subst exit flags.
    intros [Himg _].
    destruct Himg as (m0 & dropped & window & _ & _ & _ & _ & Hle); [left|]. lia.
  - destruct thirty_first_pass_screenshot_only as (Hexit & Hflags & Hpre & Hlen).
    unfold Samples.cut_pass in *.
    destruct (Loop.iteration_trace _ _ _ _ _ _ _ _) as [[exit st'] [flags pre]].
    simpl in Hexit, Hflags, Hpre, Hlen. subst exit flags.
    by exists st', pre.
Qed.

Lemma cut_pass_facts :
  Samples.cut_pass
    = (None, snd (fst Samples.cut_pass), (["image"], snd (snd Samples.cut_pass)))
  /\ length (snd (snd Samples.cut_pass)) = 63%nat
  /\ snd (snd Samples.cut_pass) !! 3%nat
     = Some (Loop.assistant_message
               [dict_set "input" (JDict [("action", JStr "screenshot")])
                  (Examples.tool_use_stub "toolu_01");
                dict_set "input" (JDict [("action", JStr "left_click")])
                  (Examples.tool_use_stub "toolu_02")]).
Proof. by vm_compute. Qed.

Lemma iteration_truncation_duplicates_head_witness :
  (length (Loop.messages (snd (fst Samples.cut_pass))) = 61%nat
   /\ Loop.messages (snd (fst Samples.cut_pass)) !! 1%nat
      = Some (Loop.assistant_message
                [dict_set "input" (JDict [("action", JStr "screenshot")])
                   (Examples.tool_use_stub "toolu_01");
                 dict_set "input" (JDict [("action", JStr "left_click")])
                   (Examples.tool_use_stub "toolu_02")]))
  /\ (length (Loop.messages Examples.after_screenshot) = 4%nat
      /\ Loop.messages Examples.after_screenshot !! 1%nat
         = Some (Loop.initial_message "Open the settings.")).
Proof.
  split.
  - destruct cut_pass_facts as (Hpass & Hlen & Hthird).
    destruct (iteration_truncation_duplicates_head
                Examples.repr_stub Examples.int_stub Examples.loads_stub
                (Some Examples.empty_graph) 31%nat []
                Examples.stream_screenshot Examples.after_thirty
                (snd (fst Samples.cut_pass)) ["image"] (snd (snd Samples.cut_pass)))
      as (m0 & rest & dropped & window & Hpre & Hsplit & Hwin & Hm & _).
    + exact Hpass.
    + reflexivity.
    + rewrite Hlen in Hwin. simpl in Hwin.
      assert (length dropped = 3%nat) as Hdrop.
      { apply (f_equal length) in Hsplit. rewrite length_app, Hlen in Hsplit. lia. }
      rewrite Hm. split; [simpl; by rewrite Hwin|].
      rewrite Hsplit in Hthird. rewrite lookup_app_r in Hthird by lia.
      rewrite Hdrop in Hthird. exact Hthird.
  - destruct (iteration_truncation_duplicates_head
                Examples.repr_stub Examples.int_stub Examples.loads_stub
                (Some Examples.empty_graph) 1%nat []
                Examples.stream_screenshot Examples.loop_start
                Examples.after_screenshot ["image"]
                (snd (snd (Loop.iteration_trace
                   Examples.repr_stub Examples.int_stub Examples.loads_stub
                   (Some Examples.empty_graph) 1%nat []
                   Examples.stream_screenshot Examples.loop_start))))
      as (m0 & rest & dropped & window & Hpre & _ & _ & _ & Hdup).
    + vm_compute. reflexivity.
    + reflexivity.
    + vm_compute in Hpre. injection Hpre as <- <-.
      destruct Hdup as [Hm Hlen]; [vm_compute; lia|].
      rewrite Hm. split; reflexivity.
Defined.

Lemma collect_from_stream_text_witness :
  exists blk,
    [ [("type", JStr "text"); ("text", JStr "Hello world")] ] !! 0%nat = Some blk /\
    Decoder.get_text blk = JStr "Hello world".
Proof.
  apply (collect_from_stream_text Examples.loads_stub
           Examples.stream_prefilled_stub _ [] 0%nat 0
           [("type", JStr "text"); ("text", JStr "Hello")] "Hello").
  - vm_compute. reflexivity.
  - vm_compute. reflexivity.
  - reflexivity.
  - reflexivity.
Defined.

(** C5 as stated fails: when the stub of a text block already carries text,
    the reconstructed text is that text followed by the fragments, not the
    fragments alone. *)
Lemma text_as_stated_fails :
  Decoder.collect_from_stream Examples.loads_stub Examples.stream_prefilled_stub
    = Ok ([ [("type", JStr "text"); ("text", JStr "Hello world")] ], [])
  /\ Decoder.text_fragments 0 (Decoder.consumed Examples.stream_prefilled_stub)
     = [" world"]
  /\ ~ Decoder.text_as_stated Examples.loads_stub Examples.stream_prefilled_stub.
Proof.
  split; [by vm_compute|]. split; [reflexivity|].
  intros Hc.
  destruct (Hc [ [("type", JStr "text"); ("text", JStr "Hello world")] ] [] 0%nat 0
               [("type", JStr "text"); ("text", JStr "Hello")])
    as (blk & Hb & Ht); [by vm_compute..|].
  injection Hb as <-. vm_compute in Ht. discriminate Ht.
Qed.

Lemma collect_from_stream_unopened_reference_witness :
  exists e,
    Decoder.collect_from_stream Examples.loads_stub Examples.stream_delta_first
      = Raise e /\
    forall i headers (st : Loop.State unit),
      fst (Loop.iteration Examples.repr_stub Examples.int_stub Examples.loads_stub
             (Some Examples.empty_graph) i headers Examples.stream_delta_first st)
      = Some (Loop.raised e).
Proof.
  apply (collect_from_stream_unopened_reference
           Examples.repr_stub Examples.int_stub Examples.loads_stub
           (Some Examples.empty_graph) Examples.stream_delta_first).
  vm_compute. reflexivity.
Defined.

(* ===================================================================== *)
(** * Part III: further properties of the code *)
(* ===================================================================== *)

(** ** History manager *)

Lemma dict_set_same k v d : dict_get k d = Some v -> dict_set k v d = d.
Proof.
  induction d as [|[k0 v0] d IH]; simpl; [done|].
  destruct (String.eqb k k0) eqn:E.
  - by intros [= ->].
  - intros Hd. by rewrite IH.
Qed.

Lemma strip_block_payload blk :
  Log.image_payload (History.strip_block blk)
  = (fun _ => JStr "") <$> Log.image_payload blk.
Proof.
  destruct blk as [| | | | |l|b]; try reflexivity.
  unfold History.strip_block, Log.image_payload.
  destruct (get_eq_str "type" b "image") eqn:Ht; [|by rewrite Ht].
  destruct (dict_get "source" b) as [src|] eqn:Hs.
  - destruct (truthy src) eqn:Htr.
    + destruct src as [| | | | | |s]; try (by rewrite Ht, Hs, Htr).
      unfold dict_mem. destruct (dict_get "data" s) as [v|] eqn:Hd.
      * rewrite get_eq_str_set_ne, Ht, dict_get_set_eq by done.
        assert (truthy (JDict (dict_set "data" (JStr "") s)) = true) as ->.
        { destruct s as [|[k0 v0] s]; simpl; [done|].
          by destruct (String.eqb "data" k0). }
        by rewrite dict_get_set_eq.
      * by rewrite Ht, Hs, Htr, Hd.
    + unfold dict_mem. destruct (dict_get "data" b) as [v|] eqn:Hd.
      * rewrite get_eq_str_set_ne, Ht by done.
        by rewrite dict_get_set_ne, Hs, Htr, dict_get_set_eq.
      * by rewrite Ht, Hs, Htr, Hd.
  - unfold dict_mem. destruct (dict_get "data" b) as [v|] eqn:Hd.
    + rewrite get_eq_str_set_ne, Ht by done.
      by rewrite dict_get_set_ne, Hs, dict_get_set_eq.
    + by rewrite Ht, Hs, Hd.
Qed.

(** X1. After [strip_old_images], no image block of a message content
    carries a payload any more: the "data" entry the function aims at (in
    the source object, or in the block when it has no usable source) is
    absent or the empty string. *)
Theorem strip_old_images_blanks_payloads
    (messages : list dict) (i j : nat) (msg : dict) (content : list json)
    (blk : json) :
  History.strip_old_images messages !! i = Some msg ->
  dict_get "content" msg = Some (JList content) ->
  content !! j = Some blk ->
  Log.image_payload blk = None \/ Log.image_payload blk = Some (JStr "").
Proof.
  rewrite strip_old_images_map, list_lookup_fmap.
  destruct (messages !! i) as [msg0|]; [|done]. intros [= <-].
  destruct (dict_get "content" msg0) as [[| | | | |content0|]|] eqn:Hc;
    try (unfold History.strip_message; rewrite Hc; intros Hc'; congruence).
  rewrite (strip_message_content _ _ Hc), dict_get_set_eq. intros [= <-].
  rewrite list_lookup_fmap. destruct (content0 !! j) as [blk0|]; [|done].
  intros [= <-]. rewrite strip_block_payload.
  destruct (Log.image_payload blk0); simpl; auto.
Qed.

Lemma strip_block_not_image blk :
  Log.is_image_block blk = false -> History.strip_block blk = blk.
Proof.
  destruct blk as [| | | | |l|b]; try reflexivity.
  simpl. by intros ->.
Qed.

Lemma map_strip_block_no_image content :
  existsb Log.is_image_block content = false ->
  map History.strip_block content = content.
Proof.
  induction content as [|blk content IH]; [done|].
  simpl. intros [Hb Hrest]%orb_false_iff.
  by rewrite strip_block_not_image, IH.
Qed.

Lemma strip_message_no_image msg :
  Log.has_image_block msg = false -> History.strip_message msg = msg.
Proof.
  unfold Log.has_image_block.
  destruct (dict_get "content" msg) as [[| | | | |content|]|] eqn:Hc;
    try (intros _; unfold History.strip_message; by rewrite Hc).
  intros Hno. rewrite (strip_message_content _ _ Hc).
  apply dict_set_same. by rewrite Hc, map_strip_block_no_image.
Qed.

Lemma strip_old_images_no_image (messages : list dict) :
  Forall (fun msg => Log.has_image_block msg = false) messages ->
  History.strip_old_images messages = messages.
Proof.
  rewrite strip_old_images_map. induction 1 as [|msg messages Hmsg _ IH]; [done|].
  simpl. by rewrite strip_message_no_image, IH.
Qed.

(** X2. [strip_old_images] changes nothing in a log none of whose messages
    has an image block directly in its content list; images nested deeper,
    such as those inside tool results, are not looked at. *)
Theorem strip_old_images_without_image_blocks (messages : list dict) :
  Forall (fun msg => Log.has_image_block msg = false) messages ->
  History.strip_old_images messages = messages.
Proof. apply strip_old_images_no_image. Qed.

Lemma last_n_last_n {A} (n : nat) (x : A) (l : list A) :
  (n <= length l)%nat -> History.last_n n (x :: History.last_n n l) = History.last_n n l.
Proof.
  intros Hn. unfold History.last_n. simpl.
  rewrite length_drop.
  replace (S (length l - (length l - n)) - n)%nat with 1%nat by lia.
  done.
Qed.

(** X3. The truncation of line 593 is idempotent on a log of at least 60
    messages: applied again to its own result, it returns the same log.  (On
    a shorter log each application puts one more copy of message 0 in
    front.) *)
Theorem truncate_idempotent (messages truncated : list dict) :
  (60 <= length messages)%nat ->
  History.truncate messages = Ok truncated ->
  History.truncate truncated = Ok truncated.
Proof.
  intros Hlen. destruct messages as [|m0 rest]; [done|].
  intros [= <-]. unfold History.truncate.
  by rewrite (last_n_last_n 60 m0 (m0 :: rest)).
Qed.

(** X4. What the truncation keeps: the result is message 0 followed by a
    suffix of the log, so the order of the messages is kept; it holds
    [min (length messages) 60 + 1] messages, and its last 60 messages are the
    last 60 of the log. *)
Theorem truncate_keeps_suffix (messages truncated : list dict) :
  History.truncate messages = Ok truncated ->
  exists m0 dropped,
    messages !! 0%nat = Some m0 /\
    messages = dropped ++ History.last_n 60 messages /\
    truncated = m0 :: History.last_n 60 messages /\
    length truncated = S (Nat.min (length messages) 60).
Proof.
  destruct messages as [|m0 rest]; [done|]. intros [= <-].
  exists m0, (take (length (m0 :: rest) - 60) (m0 :: rest)).
  split; [done|]. split; [unfold History.last_n; by rewrite take_drop|].
  split; [done|].
  unfold History.last_n. simpl length. rewrite length_drop. simpl length. lia.
Qed.

(** ** Stream decoder *)

Section DecoderMore.

Variable json_loads : string -> result json.

Abbreviation step := (Decoder.step json_loads).
Abbreviation run_steps := (Decoder.run_steps json_loads).
Abbreviation collect_from_stream := (Decoder.collect_from_stream json_loads).

Lemma consumed_app_message_stop pre post :
  Decoder.consumed (pre ++ Decoder.message_stop :: post) = Decoder.consumed pre.
Proof.
  induction pre as [|ev pre IH]; [done|].
  destruct ev; simpl; by rewrite ?IH.
Qed.

Lemma consumed_idem stream :
  Decoder.consumed (Decoder.consumed stream) = Decoder.consumed stream.
Proof.
  induction stream as [|ev stream IH]; [done|].
  destruct ev; simpl; congruence.
Qed.

Lemma collect_from_stream_consumed stream :
  collect_from_stream stream = collect_from_stream (Decoder.consumed stream).
Proof.
  unfold Decoder.collect_from_stream.
  by rewrite (collect_loop_consumed _ stream),
    (collect_loop_consumed _ (Decoder.consumed stream)), consumed_idem.
Qed.

(** X5. [collect_from_stream] never reads past a [message_stop]: whatever
    follows it in the stream, events that would decode or events that would
    raise, the result is that of the events before it. *)
Theorem collect_from_stream_stops_at_message_stop (pre post : list Decoder.Event) :
  collect_from_stream (pre ++ Decoder.message_stop :: post) = collect_from_stream pre.
Proof.
  rewrite collect_from_stream_consumed, consumed_app_message_stop.
  symmetry. apply collect_from_stream_consumed.
Qed.

(** What one pass of the loop body does to the list of blocks. *)
Lemma step_blocks ev st st' :
  step ev st = Ok st' ->
  (Decoder.creators [ev] = [Decoder.by_start
                             match ev with Decoder.content_block_start i _ => i | _ => 0 end
                             match ev with Decoder.content_block_start _ b => b | _ => [] end]
   /\ (exists i b, ev = Decoder.content_block_start i b /\
         Decoder.assistant_blocks st' = Decoder.assistant_blocks st ++ [b])) \/
  (exists tdict, ev = Decoder.tool_use tdict /\
     Decoder.assistant_blocks st' = Decoder.assistant_blocks st ++ [tdict]) \/
  (Decoder.creators [ev] = [] /\
   (Decoder.assistant_blocks st' = Decoder.assistant_blocks st \/
    exists i ref key v,
      Decoder.open_blocks st !! i = Some ref /\
      (key = "text" \/ key = "input") /\
      Decoder.assistant_blocks st'
        = alter (dict_set key v) ref (Decoder.assistant_blocks st))).
Proof.
  intros H. destruct ev as [index blk|index delta|index|tdict| |ty]; simpl in H.
  - bind_inv H. injection H as <-. left. split; [done|]. by exists index, blk.
  - right; right. split; [done|]. bind_inv H. rename a into ref.
    unfold Decoder.open_block in Ha.
    destruct (Decoder.open_blocks st !! index) as [r|] eqn:Ho; [|done].
    injection Ha as ->. destruct delta as [text|frag|ty].
    + bind_inv H. destruct (Decoder.get_text a); try done. injection H as <-.
      right. exists index, ref, "text", (JStr (s +:+ text)). auto.
    + destruct (Decoder.partial_json st !! index); [|done]. injection H as <-.
      by left.
    + injection H as <-. by left.
  - right; right. split; [done|]. bind_inv H. rename a into ref.
    unfold Decoder.open_block in Ha.
    destruct (Decoder.open_blocks st !! index) as [r|] eqn:Ho; [|done].
    injection Ha as ->. bind_inv H. bind_inv H.
    destruct (eq_str _ _); [|injection H as <-; by left].
    destruct (Decoder.partial_json st !! index) as [acc|]; [|done].
    bind_inv H. injection H as <-. right. exists index, ref, "input". eexists. eauto.
  - injection H as <-. right; left. by exists tdict.
  - injection H as <-. right; right. split; [done|]. by left.
  - injection H as <-. right; right. split; [done|]. by left.
Qed.

Lemma frame_inv_step done ev st st' :
  Stream.frame_inv done st -> step ev st = Ok st' ->
  Stream.frame_inv (done ++ [ev]) st'.
Proof.
  intros (F1 & F2 & F3) H.
  pose proof (step_open_blocks _ _ _ _ H) as Ho.
  destruct (step_blocks _ _ _ H)
    as [[Hc (i & b & -> & Hb)] | [(tdict & -> & Hb) | [Hc Hb]]];
    unfold Stream.frame_inv; rewrite creators_app.
  - (* content_block_start *)
    simpl. rewrite Hb, Ho, !length_app, F1. split; [done|]. split.
    + intros j r. destruct (decide (i = j)) as [->|Hne].
      * rewrite lookup_insert_eq. intros [= <-]. exists b.
        by rewrite lookup_app_r, Nat.sub_diag.
      * rewrite lookup_insert_ne by done. intros Hj.
        destruct (F2 j r Hj) as [stub Hr]. exists stub. by apply lookup_app_l_Some.
    + intros k c [Hk|[Hge Hk]]%lookup_app_Some.
      * destruct (F3 k c Hk) as (blk & Hblk & Hrest). exists blk.
        split; [by apply lookup_app_l_Some|done].
      * destruct (k - length (Decoder.creators done))%nat as [|n] eqn:Hk0; [|done].
        injection Hk as <-. exists b. split.
        -- assert (k = length (Decoder.assistant_blocks st)) as -> by lia.
           by rewrite lookup_app_r, Nat.sub_diag.
        -- by split.
  - (* tool_use event *)
    simpl. rewrite Hb, Ho, !length_app, F1. split; [done|]. split.
    + intros j r Hj. destruct (F2 j r Hj) as [stub Hr]. exists stub.
      by apply lookup_app_l_Some.
    + intros k c [Hk|[Hge Hk]]%lookup_app_Some.
      * destruct (F3 k c Hk) as (blk & Hblk & Hrest). exists blk.
        split; [by apply lookup_app_l_Some|done].
      * destruct (k - length (Decoder.creators done))%nat as [|n] eqn:Hk0; [|done].
        injection Hk as <-. exists tdict. split.
        -- assert (k = length (Decoder.assistant_blocks st)) as -> by lia.
           by rewrite lookup_app_r, Nat.sub_diag.
        -- split; [done|]. by intros ? [= ->].
  - (* no block is created *)
    rewrite Hc, app_nil_r.
    assert (Decoder.open_blocks st' = Decoder.open_blocks st) as ->.
    { rewrite Ho. destruct ev; try done. }
    destruct Hb as [-> | (i & ref & key & v & Hi & Hkey & ->)]; [done|].
    rewrite length_alter. split; [done|]. split; [done|].
    intros k c Hk. destruct (F3 k c Hk) as (blk & Hblk & Hkeys & Htool).
    destruct (decide (ref = k)) as [->|Hne].
    + exists (dict_set key v blk). rewrite list_lookup_alter_eq, Hblk.
      split; [done|]. split.
      * intros key' H1 H2. rewrite dict_get_set_ne; [by apply Hkeys|].
        destruct Hkey; congruence.
      * intros tdict ->. destruct (F2 i k Hi) as [stub Hs]. congruence.
    + exists blk. by rewrite list_lookup_alter_ne.
Qed.

Lemma run_steps_frame_inv evs : forall st,
  run_steps evs Decoder.init = Ok st -> Stream.frame_inv evs st.
Proof.
  induction evs as [|ev evs IH] using rev_ind; intros st H.
  - injection H as <-. split; [done|]. split; [|done].
    intros i r. simpl. by rewrite lookup_empty.
  - apply run_steps_snoc in H as (st1 & H1 & H2).
    eauto using frame_inv_step.
Qed.

(** X6. The blocks that [collect_from_stream] returns are in the order of
    the events that created them, one per [content_block_start] or
    "tool_use" event consumed.  Decoding writes the entries "text" and
    "input" only: on every other key a block agrees with the dict it was
    created from, and a block from a "tool_use" event is returned as it
    came. *)
Theorem collect_from_stream_frame
    (stream : list Decoder.Event) (blocks : list dict) (reqs : list nat) :
  collect_from_stream stream = Ok (blocks, reqs) ->
  length blocks = length (Decoder.creators (Decoder.consumed stream)) /\
  forall (k : nat) (c : Decoder.Creator),
    Decoder.creators (Decoder.consumed stream) !! k = Some c ->
    exists blk, blocks !! k = Some blk /\
      (forall key, key <> "text" -> key <> "input" ->
         dict_get key blk = dict_get key (Stream.creator_dict c)) /\
      (forall tdict, c = Decoder.by_tool_use tdict -> blk = tdict).
Proof.
  unfold Decoder.collect_from_stream. intros H. bind_inv H.
  injection H as <- <-. rewrite collect_loop_consumed in Ha.
  apply run_steps_frame_inv in Ha as (F1 & _ & F3). by split.
Qed.

(** *** Inversion of one pass of the loop body *)

Lemma step_start_inv index blk st st' :
  step (Decoder.content_block_start index blk) st = Ok st' ->
  st' = Decoder.mkState
          (Decoder.assistant_blocks st ++ [blk]) (Decoder.tool_requests st)
          (<[index := length (Decoder.assistant_blocks st)]> (Decoder.open_blocks st))
          (if get_eq_str "type" blk "tool_use"
           then <[index := ""]> (Decoder.partial_json st)
           else Decoder.partial_json st).
Proof.
  simpl. intros H. bind_inv H. injection H as <-.
  unfold dict_item in Ha. unfold get_eq_str.
  destruct (dict_get "type" blk); [|done]. by injection Ha as <-.
Qed.

Lemma step_delta_inv index delta st st' :
  step (Decoder.content_block_delta index delta) st = Ok st' ->
  exists ref, Decoder.open_blocks st !! index = Some ref /\
    match delta with
    | Decoder.text_delta text =>
        exists v, st' = Decoder.write_block st ref "text" v
    | Decoder.input_json_delta fragment =>
        exists acc, Decoder.partial_json st !! index = Some acc /\
          st' = Decoder.mkState (Decoder.assistant_blocks st) (Decoder.tool_requests st)
                  (Decoder.open_blocks st)
                  (<[index := acc +:+ fragment]> (Decoder.partial_json st))
    | Decoder.other_delta _ => st' = st
    end.
Proof.
  simpl. intros H. bind_inv H. rename a into ref. unfold Decoder.open_block in Ha.
  destruct (Decoder.open_blocks st !! index) as [r|] eqn:Ho; [|done].
  injection Ha as ->. exists ref. split; [done|].
  destruct delta as [text|frag|ty].
  - bind_inv H. destruct (Decoder.get_text a); try done. injection H as <-. eauto.
  - destruct (Decoder.partial_json st !! index) as [acc|]; [|done].
    injection H as <-. eauto.
  - by injection H as <-.
Qed.

Lemma loads_input_Ok acc input :
  Decoder.loads_input json_loads acc = Ok input ->
  input = Stream.parsed_input json_loads acc.
Proof.
  unfold Decoder.loads_input, Stream.parsed_input.
  destruct (json_loads acc) as [v|e]; [by intros [= <-]|].
  destruct (caught_by "JSONDecodeError" e); [by intros [= <-]|done].
Qed.

Lemma step_stop_inv index st st' :
  step (Decoder.content_block_stop index) st = Ok st' ->
  exists ref blk,
    Decoder.open_blocks st !! index = Some ref /\
    Decoder.assistant_blocks st !! ref = Some blk /\
    ((get_eq_str "type" blk "tool_use" = false /\ st' = st) \/
     (get_eq_str "type" blk "tool_use" = true /\
      exists acc, Decoder.partial_json st !! index = Some acc /\
        Decoder.loads_input json_loads acc
        = Ok (Stream.parsed_input json_loads acc) /\
        st' = Decoder.mkState
                (alter (dict_set "input" (Stream.parsed_input json_loads acc)) ref
                       (Decoder.assistant_blocks st))
                (Decoder.tool_requests st ++ [ref])
                (Decoder.open_blocks st) (Decoder.partial_json st))).
Proof.
  simpl. intros H. bind_inv H. rename a into ref. unfold Decoder.open_block in Ha.
  destruct (Decoder.open_blocks st !! index) as [r|] eqn:Ho; [|done].
  injection Ha as ->. bind_inv H. rename a into blk. unfold Decoder.deref in Ha.
  destruct (Decoder.assistant_blocks st !! ref) as [b|] eqn:Hb; [|done].
  injection Ha as ->. bind_inv H. rename a into ty.
  exists ref, blk. split; [done|]. split; [done|].
  unfold dict_item in Ha. unfold get_eq_str.
  destruct (dict_get "type" blk); [|done]. injection Ha as ->.
  destruct (eq_str ty "tool_use").
  - right. split; [done|].
    destruct (Decoder.partial_json st !! index) as [acc|]; [|done].
    bind_inv H. injection H as <-. exists acc.
    pose proof (loads_input_Ok _ _ Ha) as ->. done.
  - left. by injection H as <-.
Qed.

Lemma json_fragments_app i evs1 evs2 :
  Stream.json_fragments i (evs1 ++ evs2)
  = Stream.json_fragments i evs1 ++ Stream.json_fragments i evs2.
Proof.
  induction evs1 as [|ev evs1 IH]; [done|].
  destruct ev as [| ? [] | | | |]; simpl; try done.
  case_bool_decide; simpl; by rewrite IH.
Qed.

Lemma wf_run_snoc phase evs ev phase' :
  Decoder.wf_run phase (evs ++ [ev]) = Some phase' <->
  exists phase1, Decoder.wf_run phase evs = Some phase1 /\
    Decoder.wf_step phase1 ev = Some phase'.
Proof.
  revert phase. induction evs as [|e evs IH]; intros phase.
  - change (Decoder.wf_run phase ([] ++ [ev]))
      with (match Decoder.wf_step phase ev with
            | Some p => Some p | None => None end).
    change (Decoder.wf_run phase []) with (Some phase).
    split.
    + intros H. exists phase. split; [done|].
      by destruct (Decoder.wf_step phase ev).
    + intros (p1 & [= <-] & ->). done.
  - change (Decoder.wf_run phase ((e :: evs) ++ [ev]))
      with (match Decoder.wf_step phase e with
            | Some p => Decoder.wf_run p (evs ++ [ev]) | None => None end).
    change (Decoder.wf_run phase (e :: evs))
      with (match Decoder.wf_step phase e with
            | Some p => Decoder.wf_run p evs | None => None end).
    destruct (Decoder.wf_step phase e) as [p|]; [apply IH|].
    split; [done|]. by intros (? & ? & _).
Qed.

Lemma json_fragments_snoc i done ev :
  Stream.json_fragments i (done ++ [ev])
  = Stream.json_fragments i done ++
    match ev with
    | Decoder.content_block_delta j (Decoder.input_json_delta fragment) =>
        if bool_decide (j = i) then [fragment] else []
    | _ => []
    end.
Proof.
  rewrite json_fragments_app. f_equal.
Qed.

Lemma open_inv_step done ev st st' phase phase' :
  Stream.frame_inv done st -> Stream.open_inv done st phase ->
  step ev st = Ok st' -> Decoder.wf_step phase ev = Some phase' ->
  Stream.open_inv (done ++ [ev]) st' phase'.
Proof.
  intros (F1 & F2 & F3) (O1 & O2 & O3) H Hwf.
  unfold Stream.open_inv. rewrite creators_app.
  destruct ev as [i b | i d | i | t | | ty].
  - (* content_block_start *)
    apply step_start_inv in H as ->. simpl in Hwf |- *.
    destruct (phase !! i) eqn:Hp; [done|]. injection Hwf as <-.
    pose proof (proj1 (O1 i) Hp) as Hoi.
    split; [|split].
    + intros j. destruct (decide (i = j)) as [->|Hne].
      * by rewrite !lookup_insert_eq.
      * rewrite !lookup_insert_ne by done. apply O1.
    + intros k j stub Hk. apply lookup_app_Some in Hk as [Hk | [Hle Hk]].
      * pose proof (O2 _ _ _ Hk) as Hj.
        rewrite lookup_insert_ne; [done|]. intros ->. congruence.
      * destruct (k - length (Decoder.creators done))%nat as [|n] eqn:Hn; [|done].
        injection Hk as <- <-. rewrite lookup_insert_eq. f_equal. lia.
    + intros j Hj. destruct (decide (i = j)) as [->|Hne].
      * by rewrite lookup_insert_eq in Hj.
      * rewrite lookup_insert_ne in Hj by done.
        destruct (O3 j Hj) as [Hf Hpj]. rewrite json_fragments_snoc, Hf.
        split; [done|]. destruct (get_eq_str "type" b "tool_use"); [|done].
        by rewrite lookup_insert_ne.
  - (* content_block_delta *)
    apply step_delta_inv in H as (ref & Ho & H). simpl in Hwf.
    destruct (phase !! i) as [[]|] eqn:Hp; try done. injection Hwf as <-.
    simpl. rewrite app_nil_r.
    assert (Decoder.open_blocks st' = Decoder.open_blocks st) as ->.
    { destruct d; [destruct H as (v & ->) | destruct H as (acc & _ & ->) | subst];
        done. }
    split; [done|]. split; [done|].
    intros j Hj. assert (i <> j) as Hne by (intros ->; congruence).
    destruct (O3 j Hj) as [Hf Hpj]. rewrite json_fragments_snoc, Hf.
    destruct d; [destruct H as (v & ->) | destruct H as (acc & _ & ->) | subst];
      simpl; rewrite ?bool_decide_eq_false_2 by done; split; try done.
    by rewrite lookup_insert_ne.
  - (* content_block_stop *)
    apply step_stop_inv in H as (ref & blk & Ho & Hb & H). simpl in Hwf.
    destruct (phase !! i) as [[]|] eqn:Hp; try done. injection Hwf as <-.
    simpl. rewrite app_nil_r.
    assert (Decoder.open_blocks st' = Decoder.open_blocks st /\
            Decoder.partial_json st' = Decoder.partial_json st) as [-> ->].
    { destruct H as [[_ ->] | [_ (acc & _ & _ & ->)]]; done. }
    split; [|split].
    + intros j. destruct (decide (i = j)) as [->|Hne].
      * rewrite lookup_insert_eq, Ho. done.
      * rewrite lookup_insert_ne by done. apply O1.
    + done.
    + intros j Hj. destruct (decide (i = j)) as [->|Hne].
      * by rewrite lookup_insert_eq in Hj.
      * rewrite lookup_insert_ne in Hj by done.
        rewrite json_fragments_snoc, app_nil_r. auto.
  - (* tool_use *)
    injection H as <-. injection Hwf as <-. simpl.
    split; [done|]. split.
    + intros k j stub Hk. apply lookup_app_Some in Hk as [Hk | [Hle Hk]]; [eauto|].
      by destruct (k - length (Decoder.creators done))%nat.
    + intros j Hj. rewrite json_fragments_snoc, app_nil_r. auto.
  - injection H as <-. injection Hwf as <-. simpl. rewrite app_nil_r.
    split; [done|]. split; [done|].
    intros j Hj. rewrite json_fragments_snoc, app_nil_r. auto.
  - injection H as <-. injection Hwf as <-. simpl. rewrite app_nil_r.
    split; [done|]. split; [done|].
    intros j Hj. rewrite json_fragments_snoc, app_nil_r. auto.
Qed.

Lemma acc_inv_step done ev st st' phase phase' :
  Stream.open_inv done st phase -> Stream.acc_inv done st ->
  step ev st = Ok st' -> Decoder.wf_step phase ev = Some phase' ->
  Stream.acc_inv (done ++ [ev]) st'.
Proof.
  intros (O1 & O2 & O3) A H Hwf.
  unfold Stream.acc_inv. rewrite creators_app.
  intros k j stub Hk. rewrite json_fragments_snoc.
  destruct ev as [i b | i d | i | t | | ty].
  - (* content_block_start *)
    apply step_start_inv in H as ->. simpl in Hwf, Hk |- *. rewrite app_nil_r.
    destruct (phase !! i) eqn:Hp; [done|]. clear Hwf.
    pose proof (proj1 (O1 i) Hp) as Hoi. destruct (O3 i Hp) as [Hf Hpj].
    apply lookup_app_Some in Hk as [Hk | [Hle Hk]].
    + assert (i <> j) by (intros ->; pose proof (O2 _ _ _ Hk); congruence).
      rewrite <- (A _ _ _ Hk).
      destruct (get_eq_str "type" b "tool_use"); [|done]. by rewrite lookup_insert_ne.
    + destruct (k - length (Decoder.creators done))%nat; [|done].
      injection Hk as <- <-. rewrite Hf. simpl.
      destruct (get_eq_str "type" b "tool_use"); [by rewrite lookup_insert_eq | done].
  - (* content_block_delta *)
    apply step_delta_inv in H as (ref & Ho & H). simpl in Hk. rewrite app_nil_r in Hk.
    specialize (A _ _ _ Hk). destruct d as [text|f|ty].
    + destruct H as (v & ->). simpl. by rewrite app_nil_r.
    + destruct H as (acc & Hacc & ->). simpl. case_bool_decide as Hij.
      * subst j. rewrite lookup_insert_eq. rewrite Hacc in A.
        destruct (get_eq_str "type" stub "tool_use"); [|done].
        injection A as ->. by rewrite concat_str_snoc.
      * rewrite lookup_insert_ne by done. by rewrite app_nil_r.
    + subst. by rewrite app_nil_r.
  - (* content_block_stop *)
    apply step_stop_inv in H as (ref & blk & Ho & Hb & H).
    simpl in Hk. rewrite app_nil_r in Hk |- *. specialize (A _ _ _ Hk).
    by destruct H as [[_ ->] | [_ (acc & _ & _ & ->)]].
  - (* tool_use *)
    injection H as <-. simpl in Hk |- *. rewrite app_nil_r.
    apply lookup_app_Some in Hk as [Hk | [Hle Hk]]; [eauto|].
    by destruct (k - length (Decoder.creators done))%nat.
  - injection H as <-. simpl in Hk. rewrite app_nil_r in Hk |- *. eauto.
  - injection H as <-. simpl in Hk. rewrite app_nil_r in Hk |- *. eauto.
Qed.

Lemma type_of_creator done st k i stub blk :
  Stream.frame_inv done st ->
  Decoder.creators done !! k = Some (Decoder.by_start i stub) ->
  Decoder.assistant_blocks st !! k = Some blk ->
  get_eq_str "type" blk "tool_use" = get_eq_str "type" stub "tool_use".
Proof.
  intros (_ & _ & F3) Hk Hb. destruct (F3 _ _ Hk) as (blk' & Hb' & Hkeys & _).
  assert (blk' = blk) as -> by congruence.
  unfold get_eq_str. by rewrite (Hkeys "type").
Qed.

Lemma req_inv_step done ev st st' phase phase' :
  Stream.frame_inv done st -> Stream.open_inv done st phase ->
  Stream.acc_inv done st -> Stream.req_inv json_loads done st phase ->
  step ev st = Ok st' -> Decoder.wf_step phase ev = Some phase' ->
  Stream.req_inv json_loads (done ++ [ev]) st' phase'.
Proof.
  intros F (O1 & O2 & O3) A (R1 & R2 & R3) H Hwf.
  pose proof F as (F1 & F2 & F3).
  unfold Stream.req_inv. rewrite creators_app.
  destruct ev as [i b | i d | i | t | | ty].
  - (* content_block_start *)
    apply step_start_inv in H as ->. simpl in Hwf |- *.
    destruct (phase !! i) eqn:Hp; [done|]. injection Hwf as <-.
    pose proof (proj1 (O1 i) Hp) as Hoi.
    split; [done|]. split.
    + intros ref Hin. destruct (R2 ref Hin) as [(t & Ht) | (j & stub & Hj & Hsj & Hpj)].
      * left. exists t. by apply lookup_app_l_Some.
      * right. exists j, stub. split; [by apply lookup_app_l_Some|].
        split; [done|]. rewrite lookup_insert_ne; [done|]. intros ->. congruence.
    + intros k j stub Hk Hty Hpj.
      destruct (decide (i = j)) as [->|Hne]; [by rewrite lookup_insert_eq in Hpj|].
      rewrite lookup_insert_ne in Hpj by done.
      apply lookup_app_Some in Hk as [Hk | [Hle Hk]].
      * destruct (R3 _ _ _ Hk Hty Hpj) as (Hin & blk & Hb & Hinp).
        split; [done|]. exists blk. split; [by apply lookup_app_l_Some|].
        by rewrite json_fragments_snoc, app_nil_r.
      * destruct (k - length (Decoder.creators done))%nat; [|done].
        injection Hk as <- <-. done.
  - (* content_block_delta *)
    apply step_delta_inv in H as (ref & Ho & H). simpl in Hwf.
    destruct (phase !! i) as [[]|] eqn:Hp; try done. injection Hwf as <-.
    simpl. rewrite app_nil_r.
    assert (Decoder.tool_requests st' = Decoder.tool_requests st) as ->.
    { destruct d; [destruct H as (v & ->) | destruct H as (acc & _ & ->) | subst];
        done. }
    split; [done|]. split; [done|].
    intros k j stub Hk Hty Hpj.
    assert (i <> j) as Hne by (intros ->; congruence).
    destruct (R3 _ _ _ Hk Hty Hpj) as (Hin & blk & Hb & Hinp).
    split; [done|]. rewrite json_fragments_snoc.
    destruct d as [text|f|ty'].
    + destruct H as (v & ->). simpl. rewrite app_nil_r.
      destruct (decide (k = ref)) as [->|Hkr].
      * exists (dict_set "text" v blk). split.
        -- by rewrite list_lookup_alter_eq, Hb.
        -- by rewrite dict_get_set_ne.
      * exists blk. split; [|done]. by rewrite list_lookup_alter_ne.
    + destruct H as (acc & _ & ->). simpl.
      rewrite bool_decide_eq_false_2, app_nil_r by done. eauto.
    + subst. rewrite app_nil_r. eauto.
  - (* content_block_stop *)
    apply step_stop_inv in H as (ref & blk & Ho & Hb & H). simpl in Hwf.
    destruct (phase !! i) as [[]|] eqn:Hp; try done. injection Hwf as <-.
    simpl. rewrite app_nil_r.
    destruct (F2 _ _ Ho) as (stub0 & Hc0).
    pose proof (type_of_creator _ _ _ _ _ _ F Hc0 Hb) as Hty0.
    destruct H as [[Hnt ->] | [Htu (acc & Hacc & Hloads & ->)]]; simpl.
    + split; [done|]. split.
      * intros r Hin. destruct (R2 r Hin) as [(t & Ht) | (j & stub & Hj & Hsj & Hpj)];
          [by left; eauto|].
        right. exists j, stub. split; [done|]. split; [done|].
        destruct (decide (i = j)) as [->|Hne]; [congruence|].
        by rewrite lookup_insert_ne.
      * intros k j stub Hk Hty Hpj. rewrite json_fragments_snoc, app_nil_r.
        destruct (decide (i = j)) as [->|Hne].
        -- pose proof (O2 _ _ _ Hk) as Hk'. rewrite Ho in Hk'. injection Hk' as ->.
           rewrite Hc0 in Hk. injection Hk as ->. congruence.
        -- rewrite lookup_insert_ne in Hpj by done. eauto.
    + split; [|split].
      * apply NoDup_app. split; [done|]. split; [|apply NoDup_singleton].
        intros r Hin Hr. apply list_elem_of_singleton in Hr as ->.
        destruct (R2 ref Hin) as [(t & Ht) | (j & stub & Hj & Hsj & Hpj)]; [congruence|].
        rewrite Hc0 in Hj. injection Hj as -> ->. congruence.
      * intros r Hin. apply elem_of_app in Hin as [Hin | Hin].
        -- destruct (R2 r Hin) as [(t & Ht) | (j & stub & Hj & Hsj & Hpj)];
             [by left; eauto|].
           right. exists j, stub. split; [done|]. split; [done|].
           destruct (decide (i = j)) as [->|Hne]; [by rewrite lookup_insert_eq|].
           by rewrite lookup_insert_ne.
        -- apply list_elem_of_singleton in Hin as ->. right.
           exists i, stub0. split; [done|].
           split; [congruence|]. by rewrite lookup_insert_eq.
      * intros k j stub Hk Hty Hpj. rewrite json_fragments_snoc, app_nil_r.
        destruct (decide (i = j)) as [->|Hne].
        -- pose proof (O2 _ _ _ Hk) as Hk'. rewrite Ho in Hk'. injection Hk' as ->.
           rewrite Hc0 in Hk. injection Hk as ->.
           split; [apply elem_of_app; right; by apply list_elem_of_singleton|].
           exists (dict_set "input" (Stream.parsed_input json_loads acc) blk).
           split; [by rewrite list_lookup_alter_eq, Hb|].
           rewrite dict_get_set_eq. pose proof (A _ _ _ Hc0) as Ha.
           rewrite Hty, Hacc in Ha. by injection Ha as ->.
        -- rewrite lookup_insert_ne in Hpj by done.
           destruct (R3 _ _ _ Hk Hty Hpj) as (Hin & blk' & Hb' & Hinp).
           split; [apply elem_of_app; by left|].
           exists blk'. split; [|done].
           rewrite list_lookup_alter_ne; [done|]. intros ->.
           rewrite Hc0 in Hk. by injection Hk.
  - (* tool_use *)
    injection H as <-. injection Hwf as <-. simpl.
    split; [|split].
    + apply NoDup_app. split; [done|]. split; [|apply NoDup_singleton].
      intros r Hin Hr. apply list_elem_of_singleton in Hr as ->.
      assert (is_Some (Decoder.creators done !! length (Decoder.assistant_blocks st)))
        as Hs by (destruct (R2 _ Hin) as [(? & ?) | (? & ? & ? & _)]; eauto).
      apply lookup_lt_is_Some in Hs. lia.
    + intros r Hin. apply elem_of_app in Hin as [Hin | Hin].
      * destruct (R2 r Hin) as [(t0 & Ht) | (j & stub & Hj & Hsj & Hpj)].
        -- left. exists t0. by apply lookup_app_l_Some.
        -- right. exists j, stub. split; [by apply lookup_app_l_Some|done].
      * apply list_elem_of_singleton in Hin as ->. left. exists t.
        rewrite F1. by rewrite list_lookup_middle.
    + intros k j stub Hk Hty Hpj. rewrite json_fragments_snoc, app_nil_r.
      apply lookup_app_Some in Hk as [Hk | [Hle Hk]].
      * destruct (R3 _ _ _ Hk Hty Hpj) as (Hin & blk & Hb & Hinp).
        split; [apply elem_of_app; by left|].
        exists blk. split; [by apply lookup_app_l_Some|done].
      * by destruct (k - length (Decoder.creators done))%nat.
  - injection H as <-. injection Hwf as <-. simpl. rewrite app_nil_r.
    split; [done|]. split; [done|].
    intros k j stub Hk Hty Hpj. rewrite json_fragments_snoc, app_nil_r. eauto.
  - injection H as <-. injection Hwf as <-. simpl. rewrite app_nil_r.
    split; [done|]. split; [done|].
    intros k j stub Hk Hty Hpj. rewrite json_fragments_snoc, app_nil_r. eauto.
Qed.

Lemma run_steps_invs evs : forall st phase,
  run_steps evs Decoder.init = Ok st -> Decoder.wf_run ∅ evs = Some phase ->
  Stream.open_inv evs st phase /\ Stream.acc_inv evs st /\
  Stream.req_inv json_loads evs st phase.
Proof.
  induction evs as [|ev evs IH] using rev_ind; intros st phase H Hwf.
  - injection H as <-. injection Hwf as <-. split; [|split].
    + split; [done|]. split; [done|]. done.
    + done.
    + split; [apply NoDup_nil_2|]. split; [|done].
      intros ref Hin. by apply elem_of_nil in Hin.
  - apply run_steps_snoc in H as (st1 & H1 & H2).
    apply wf_run_snoc in Hwf as (phase1 & Hw1 & Hw2).
    destruct (IH _ _ H1 Hw1) as (HO & HA & HR).
    pose proof (run_steps_frame_inv _ _ H1) as HF.
    split; [|split].
    + exact (open_inv_step _ _ _ _ _ _ HF HO H2 Hw2).
    + exact (acc_inv_step _ _ _ _ _ _ HO HA H2 Hw2).
    + exact (req_inv_step _ _ _ _ _ _ HF HO HA HR H2 Hw2).
Qed.

(** The phase [Decoder.wf_run] records for an index is "stopped" exactly
    when its [content_block_stop] is among the events. *)
Lemma wf_run_stopped evs : forall phase i,
  Decoder.wf_run ∅ evs = Some phase ->
  phase !! i = Some true <-> Decoder.content_block_stop i ∈ evs.
Proof.
  induction evs as [|ev evs IH] using rev_ind; intros phase i Hwf.
  - injection Hwf as <-. rewrite lookup_empty. split; [done|].
    intros H. by apply elem_of_nil in H.
  - apply wf_run_snoc in Hwf as (phase1 & Hw1 & Hw2).
    specialize (IH _ i Hw1). rewrite elem_of_app, list_elem_of_singleton, <- IH.
    destruct ev as [j b | j d | j | t | | ty]; simpl in Hw2.
    + destruct (phase1 !! j) eqn:Hp; [done|]. injection Hw2 as <-.
      destruct (decide (j = i)) as [->|Hne].
      * rewrite lookup_insert_eq, Hp. split; [done|]. by intros [|].
      * rewrite lookup_insert_ne by done. split; [auto|]. by intros [|].
    + destruct (phase1 !! j) as [[]|]; try done. injection Hw2 as <-.
      split; [auto|]. by intros [|].
    + destruct (phase1 !! j) as [[]|] eqn:Hp; try done. injection Hw2 as <-.
      destruct (decide (j = i)) as [->|Hne].
      * rewrite lookup_insert_eq. split; auto.
      * rewrite lookup_insert_ne by done. split; [auto|].
        intros [|[= ->]]; done.
    + injection Hw2 as <-. split; [auto|]. by intros [|].
    + injection Hw2 as <-. split; [auto|]. by intros [|].
    + injection Hw2 as <-. split; [auto|]. by intros [|].
Qed.

(** X7. In a well-formed stream that is decoded, a tool-use block whose
    [content_block_stop] was consumed is among the tool requests, and its
    "input" is [json.loads] of the [input_json_delta] fragments delivered for
    its index, concatenated in arrival order, or the empty dict when that
    text does not parse. *)
Theorem collect_from_stream_tool_input
    (stream : list Decoder.Event) (blocks : list dict) (reqs : list nat)
    (k : nat) (i : Z) (stub : dict) :
  Decoder.well_formed stream = true ->
  collect_from_stream stream = Ok (blocks, reqs) ->
  Decoder.creators (Decoder.consumed stream) !! k = Some (Decoder.by_start i stub) ->
  get_eq_str "type" stub "tool_use" = true ->
  Decoder.content_block_stop i ∈ Decoder.consumed stream ->
  k ∈ reqs /\
  exists blk, blocks !! k = Some blk /\
    dict_get "input" blk
    = Some (Stream.parsed_input json_loads
              (Decoder.concat_str
                 (Stream.json_fragments i (Decoder.consumed stream)))).
Proof.
  unfold Decoder.well_formed, Decoder.collect_from_stream.
  destruct (Decoder.wf_run ∅ (Decoder.consumed stream)) as [phase|] eqn:Hwf; [|done].
  intros _ H Hk Hty Hstop. bind_inv H. injection H as <- <-.
  rewrite collect_loop_consumed in Ha.
  destruct (run_steps_invs _ _ _ Ha Hwf) as (_ & _ & _ & _ & R3).
  apply (R3 k i stub Hk Hty). by apply (wf_run_stopped _ _ _ Hwf).
Qed.

(** X8. In a well-formed stream that is decoded, no block is requested
    twice, and every request is either a block made by a "tool_use" event or
    a block of type "tool_use" whose [content_block_stop] was consumed: a
    tool-use block that the stream never stops is not requested. *)
Theorem collect_from_stream_requests
    (stream : list Decoder.Event) (blocks : list dict) (reqs : list nat) :
  Decoder.well_formed stream = true ->
  collect_from_stream stream = Ok (blocks, reqs) ->
  NoDup reqs /\
  forall ref : nat, ref ∈ reqs ->
    (exists tdict,
       Decoder.creators (Decoder.consumed stream) !! ref
       = Some (Decoder.by_tool_use tdict)) \/
    (exists i stub,
       Decoder.creators (Decoder.consumed stream) !! ref
       = Some (Decoder.by_start i stub) /\
       get_eq_str "type" stub "tool_use" = true /\
       Decoder.content_block_stop i ∈ Decoder.consumed stream).
Proof.
  unfold Decoder.well_formed, Decoder.collect_from_stream.
  destruct (Decoder.wf_run ∅ (Decoder.consumed stream)) as [phase|] eqn:Hwf; [|done].
  intros _ H. bind_inv H. injection H as <- <-.
  rewrite collect_loop_consumed in Ha.
  destruct (run_steps_invs _ _ _ Ha Hwf) as (_ & _ & R1 & R2 & _).
  split; [done|]. intros ref Hin.
  destruct (R2 ref Hin) as [Ht | (i & stub & Hc & Hty & Hp)]; [by left|].
  right. exists i, stub. split; [done|]. split; [done|].
  by apply (wf_run_stopped _ _ _ Hwf).
Qed.





End DecoderMore.

(** ** The dispatcher: frames, shapes of the result and edge cases *)

Section DispatcherMore.

Context {W : Type} `{Dispatcher.Effector W}.
Variable py_repr : dict -> string.
Variable py_int : json -> result Z.

Abbreviation execute_computer_tool := (Dispatcher.execute_computer_tool py_repr py_int).

Ltac leaf x :=
  lazymatch x with
  | context [match _ with (_, _) => _ end] => fail
  | context [match _ with Ok _ => _ | Raise _ => _ end] => fail
  | context [if _ then _ else _] => fail
  | _ => idtac
  end.

Ltac run_branch :=
  unfold Dispatcher.click_at, Dispatcher.navigate, Dispatcher.done_text;
  unfold mbind, mret, Dispatcher.M_bind, Dispatcher.M_ret, Dispatcher.effect,
    Dispatcher.lift, Dispatcher.incr_PROCESSSTEP,
    Dispatcher.get_PROCESSSTEP_ID, Dispatcher.set_PROCESSSTEP_ID;
  repeat first
    [ progress cbn [Dispatcher.PROCESSSTEP Dispatcher.PROCESSSTEP_ID Dispatcher.world
                    fst snd]
    | match goal with
      | |- context [match ?x with (_, _) => _ end] => leaf x; destruct x eqn:?
      | |- context [match ?x with Ok _ => _ | Raise _ => _ end] =>
          leaf x; destruct x eqn:?
      | |- context [if ?c then _ else _] => leaf c; destruct c eqn:?
      end ].

(** Splits on the guards of the [if]/[elif] chain, in their order. *)
Ltac guards :=
  repeat match goal with
         | |- context [if ?c then _ else _] =>
             lazymatch c with
             | eq_str (Dispatcher.py_get "action" _) _ => destruct c eqn:?
             | (eq_str (Dispatcher.py_get "action" _) _ && _)%bool => destruct c eqn:?
             end
         end.

(** X10. What a request leaves alone: a desktop action never changes
    [PROCESSSTEP_ID]; a navigation action never touches the desktop; an
    invalid request changes neither. *)
Theorem execute_computer_tool_frame tool_input graph_db (st : Dispatcher.State W) :
  let st' := snd (execute_computer_tool tool_input graph_db st) in
  match Dispatcher.classify tool_input with
  | Dispatcher.DesktopAction =>
      Dispatcher.PROCESSSTEP_ID st' = Dispatcher.PROCESSSTEP_ID st
  | Dispatcher.Navigation =>
      Dispatcher.world st' = Dispatcher.world st
  | Dispatcher.Invalid =>
      Dispatcher.PROCESSSTEP_ID st' = Dispatcher.PROCESSSTEP_ID st /\
      Dispatcher.world st' = Dispatcher.world st
  end.
Proof.
  unfold Dispatcher.classify, Dispatcher.execute_computer_tool, Dispatcher.dispatch.
  guards; run_branch; auto.
Qed.

(** X11. The shape of the result: it is an image only for a screenshot
    that succeeded, and then carries the base64 text that the capture
    returned; every other result, and every error, is text, an error being
    reported by a string. *)
Theorem execute_computer_tool_result_shape
    tool_input graph_db (st : Dispatcher.State W) :
  let '((flag, data, is_err), st') := execute_computer_tool tool_input graph_db st in
  (flag = "text" /\ (is_err = true -> exists msg, data = JStr msg)) \/
  (flag = "image" /\ is_err = false /\
   eq_str (Dispatcher.py_get "action" tool_input) "screenshot" = true /\
   exists encoded,
     Dispatcher.capture (Dispatcher.world st) = (Ok encoded, Dispatcher.world st') /\
     data = JDict [("type", JStr "base64"); ("media_type", JStr "image/png");
                   ("data", JStr encoded)]).
Proof.
  unfold Dispatcher.execute_computer_tool, Dispatcher.dispatch.
  guards; run_branch;
    first [ by left; split; [|intros]
          | left; split; [done|]; intros _; eexists; reflexivity
          | right; do 3 (split; [done|]); by eexists ].
Qed.

(** X12. Without a graph connection every navigation request is answered
    by the error text of the failed attribute access; the globals and the
    desktop stay as they were. *)
Theorem execute_computer_tool_without_graph tool_input (st : Dispatcher.State W) :
  Dispatcher.classify tool_input = Dispatcher.Navigation ->
  execute_computer_tool tool_input None st
  = (("text", JStr "'NoneType' object has no attribute 'run'", true), st).
Proof.
  unfold Dispatcher.classify, Dispatcher.execute_computer_tool, Dispatcher.dispatch.
  guards; try discriminate; intros _; by destruct st.
Qed.

(** Evaluates the comparisons of a known action with the literals of the
    guards. *)
Ltac known_action :=
  repeat match goal with
         | |- context [eq_str (JStr ?a) ?b] =>
             let v := eval vm_compute in (eq_str (JStr a) b) in
             change (eq_str (JStr a) b) with v
         end;
  cbn [andb].

(** X13. A click request whose coordinate is falsy (absent, [None], an
    empty list) is carried out as the same request without a coordinate: the
    click lands at the pointer. *)
Theorem click_with_empty_coordinate
    (name : string) tool_input graph_db (st : Dispatcher.State W) :
  name ∈ ["left_click"; "right_click"; "double_click"] ->
  Dispatcher.py_get "action" tool_input = JStr name ->
  truthy (Dispatcher.py_get "coordinate" tool_input) = false ->
  execute_computer_tool tool_input graph_db st
  = execute_computer_tool [("action", JStr name)] graph_db st.
Proof.
  intros Hn Ha Hc.
  unfold Dispatcher.execute_computer_tool, Dispatcher.dispatch.
  rewrite Ha.
  change (Dispatcher.py_get "action" [("action", JStr name)]) with (JStr name).
  change (Dispatcher.py_get "coordinate" [("action", JStr name)]) with JNull.
  repeat (apply elem_of_cons in Hn as [->|Hn]); [| | |by apply elem_of_nil in Hn];
    known_action; unfold Dispatcher.click_at; by rewrite Hc.
Qed.

(** X14. A click request whose coordinate list has a single element fails
    on [coord[1]] before pyautogui is called: the result is the text of the
    [IndexError], flagged as an error, and neither the desktop nor the
    counters change. *)
Theorem click_with_short_coordinate
    (name : string) (x : json) tool_input graph_db (st : Dispatcher.State W) :
  name ∈ ["left_click"; "right_click"; "double_click"] ->
  Dispatcher.py_get "action" tool_input = JStr name ->
  Dispatcher.py_get "coordinate" tool_input = JList [x] ->
  execute_computer_tool tool_input graph_db st
  = (("text", JStr "list index out of range", true), st).
Proof.
  intros Hn Ha Hc.
  unfold Dispatcher.execute_computer_tool, Dispatcher.dispatch.
  rewrite Ha, Hc.
  repeat (apply elem_of_cons in Hn as [->|Hn]); [| | |by apply elem_of_nil in Hn];
    known_action; by destruct st.
Qed.

(** X15. A scroll request whose direction is truthy but none of "up",
    "down" and "left" is carried out as a scroll to the right. *)
Theorem scroll_unknown_direction
    tool_input graph_db (st : Dispatcher.State W) :
  Dispatcher.py_get "action" tool_input = JStr "scroll" ->
  truthy (Dispatcher.py_get "scroll_direction" tool_input) = true ->
  eq_str (Dispatcher.py_get "scroll_direction" tool_input) "up" = false ->
  eq_str (Dispatcher.py_get "scroll_direction" tool_input) "down" = false ->
  eq_str (Dispatcher.py_get "scroll_direction" tool_input) "left" = false ->
  execute_computer_tool tool_input graph_db st
  = execute_computer_tool
      (dict_set "scroll_direction" (JStr "right") tool_input) graph_db st.
Proof.
  intros Ha Ht Hu Hd Hl.
  unfold Dispatcher.execute_computer_tool, Dispatcher.dispatch, Dispatcher.py_get,
    dict_get_default in *.
  rewrite dict_get_set_eq, !dict_get_set_ne by done.
  destruct (dict_get "action" tool_input) as [action|]; [|done]. subst action.
  known_action. rewrite Ht, Hu, Hd, Hl. by known_action.
Qed.

(** X16. Where the graph has no row for the query, navigation reports no
    error and still moves [PROCESSSTEP_ID]: "prev" to the id below, "next"
    to the id above.  So "prev" followed by "next", both without a row,
    returns to the step id the pair started from, each answering with its
    sentinel text. *)
Theorem prev_then_next_without_rows
    (g : Dispatcher.Graph) (st : Dispatcher.State W) :
  Dispatcher.run_prev g (Dispatcher.PROCESSSTEP_ID st) = Ok [] ->
  Dispatcher.run_next g (Dispatcher.PROCESSSTEP_ID st - 1) = Ok [] ->
  let '(out1, st1) := execute_computer_tool [("action", JStr "prev")] (Some g) st in
  let '(out2, st2) := execute_computer_tool [("action", JStr "next")] (Some g) st1 in
  out1 = ("text", JStr Dispatcher.no_prev_step, false) /\
  Dispatcher.PROCESSSTEP_ID st1 = Dispatcher.PROCESSSTEP_ID st - 1 /\
  out2 = ("text", JStr Dispatcher.no_next_step, false) /\
  st2 = st.
Proof.
  intros Hp Hn.
  unfold Dispatcher.execute_computer_tool, Dispatcher.dispatch.
  change (Dispatcher.py_get "action" [("action", JStr "prev")]) with (JStr "prev").
  change (Dispatcher.py_get "action" [("action", JStr "next")]) with (JStr "next").
  known_action.
  unfold Dispatcher.navigate, Dispatcher.get_prev_step, Dispatcher.get_next_step,
    Dispatcher.graph_run, mbind, mret, Dispatcher.M_bind, Dispatcher.M_ret,
    Dispatcher.lift, Dispatcher.get_PROCESSSTEP_ID, Dispatcher.set_PROCESSSTEP_ID.
  rewrite Hp. cbn. rewrite Hn. cbn.
  destruct st as [id n w]. cbn. do 3 (split; [done|]). f_equal. lia.
Qed.

(** One request adds nothing or one to [PROCESSSTEP]. *)
Lemma execute_computer_tool_counter_bounds tool_input graph_db (st : Dispatcher.State W) :
  Dispatcher.PROCESSSTEP st
    <= Dispatcher.PROCESSSTEP (snd (execute_computer_tool tool_input graph_db st))
    <= Dispatcher.PROCESSSTEP st + 1.
Proof.
  unfold Dispatcher.execute_computer_tool, Dispatcher.dispatch.
  guards; run_branch; lia.
Qed.

End DispatcherMore.

(** ** The agent loop: retries, results, the log and the counter *)

Lemma existsb_false_Forall {A} (f : A -> bool) (l : list A) :
  existsb f l = false <-> Forall (fun x => f x = false) l.
Proof.
  induction l as [|x l IH]; simpl; [by split|].
  rewrite orb_false_iff, Forall_cons, IH. done.
Qed.

Lemma collect_from_stream_no_image json_loads events blocks calls :
  Decoder.collect_from_stream json_loads events = Ok (blocks, calls) ->
  Provider.no_image_stub events = true ->
  Log.has_image_block (Loop.assistant_message blocks) = false.
Proof.
  unfold Decoder.collect_from_stream, Provider.no_image_stub. intros H Hno.
  bind_inv H. injection H as <- <-. rewrite collect_loop_consumed in Ha.
  apply run_steps_frame_inv in Ha as (F1 & _ & F3).
  change (Log.has_image_block (Loop.assistant_message (Decoder.assistant_blocks a)))
    with (existsb Log.is_image_block (map JDict (Decoder.assistant_blocks a))).
  apply existsb_false_Forall, Forall_fmap, Forall_lookup. intros k blk Hk. simpl.
  destruct (lookup_lt_is_Some_2 (Decoder.creators (Decoder.consumed events)) k)
    as [c Hc]; [rewrite <- F1; by eapply lookup_lt_Some|].
  destruct (F3 _ _ Hc) as (blk' & Hb' & Hkeys & _).
  assert (blk' = blk) as -> by (unfold dict in *; congruence).
  rewrite forallb_forall in Hno. specialize (Hno c).
  unfold get_eq_str in *. rewrite (Hkeys "type") by done.
  apply negb_true_iff, Hno. apply list_elem_of_In. by eapply list_elem_of_lookup_2.
Qed.

Section LoopMore.

Context {W : Type} `{Dispatcher.Effector W}.
Variable py_repr : dict -> string.
Variable py_int : json -> result Z.
Variable json_loads : string -> result json.
Variable fromisoformat : string -> result Q.
Variable py_float : string -> option Q.
Variable graph_db : option Dispatcher.Graph.

Abbreviation dispatch_calls := (Loop.dispatch_calls py_repr py_int graph_db).
Abbreviation iteration := (Loop.iteration py_repr py_int json_loads graph_db).
Abbreviation await_provider := (Loop.await_provider (W:=W) fromisoformat py_float).
Abbreviation iterations :=
  (Loop.iterations py_repr py_int json_loads fromisoformat py_float graph_db).
Abbreviation run_agent_loop :=
  (Loop.run_agent_loop py_repr py_int json_loads fromisoformat py_float graph_db).

(** *** Retries *)


(** *** The tool results of a pass *)





(** *** The value returned *)

Lemma await_provider_exit script : forall (st : Loop.State W) exit st' script' v,
  await_provider script st = (inl exit, st', script') ->
  exit <> Loop.returned (Some v).
Proof.
  induction script as [|response script IH]; intros st exit st' script' v Ha;
    simpl in Ha.
  - by injection Ha as <- _ _.
  - destruct response as [headers events|headers now| |e];
      try (by injection Ha as <- _ _); [done|].
    destruct (Loop.TIME_TO_WAIT st) as [ts|]; [|by injection Ha as <- _ _].
    destruct (RateLimit.wait_until_itpm_reset _ _ _ _ _ _) as [wait|e];
      [|by injection Ha as <- _ _].
    by eapply IH.
Qed.

Lemma iteration_exit i headers events (st st' : Loop.State W) v :
  iteration i headers events st = (Some (Loop.returned (Some v)), st') -> v = i.
Proof.
  unfold Loop.iteration, Loop.iteration_trace.
  destruct (Decoder.collect_from_stream json_loads events) as [[blocks calls]|e];
    [|done].
  destruct calls as [|c calls]; [by intros [= ->]|].
  destruct (Loop.dispatch_calls _ _ _ _ _ _ _ _ _)
    as [[[e|] [[messages2 results] flags]] rs]; [done|].
  by destruct (Loop.truncate_after _ _).
Qed.

Lemma iterations_returned remaining : forall i script (st st' : Loop.State W) v,
  iterations remaining i script st = (Loop.returned (Some v), st') ->
  (i <= v < i + remaining)%nat.
Proof.
  induction remaining as [|remaining IH]; intros i script st st' v Hi;
    simpl in Hi; [done|].
  destruct (Loop.await_provider _ _ script st)
    as [[[exit|[headers events]] st1] script1] eqn:Ha.
  - injection Hi as -> _. by apply await_provider_exit with (v := v) in Ha.
  - destruct (Loop.iteration _ _ _ _ i headers events st1) as [[exit|] st2] eqn:Hit.
    + injection Hi as -> ->. apply iteration_exit in Hit. lia.
    + apply IH in Hi. lia.
Qed.

(** X21. When [run_agent_loop] returns a number, it is the number of the
    pass in which the model requested no tool, between 1 and
    [max_iterations]. *)
Theorem run_agent_loop_return_value
    (user_prompt : string) (max_iterations : nat) (script : list Loop.Response)
    (rs : Dispatcher.State W) (v : nat) (st : Loop.State W) :
  run_agent_loop user_prompt max_iterations script rs = (Loop.returned (Some v), st) ->
  (1 <= v <= max_iterations)%nat.
Proof.
  unfold Loop.run_agent_loop. intros Hr. apply iterations_returned in Hr. lia.
Qed.

(** *** The counter over a run *)

Lemma dispatch_calls_counter a calls : forall messages results flags
    (rs : Dispatcher.State W) exn out rs',
  dispatch_calls a calls messages results flags rs = (exn, out, rs') ->
  Dispatcher.PROCESSSTEP rs <= Dispatcher.PROCESSSTEP rs'.
Proof.
  induction calls as [|ref calls IH];
    intros messages results flags rs exn out rs' Hd; simpl in Hd.
  - injection Hd as _ _ <-. lia.
  - destruct (mbind _ (Loop.tool_call messages a ref)) as [tool_input|e];
      [|injection Hd as _ _ <-; lia].
    pose proof (execute_computer_tool_counter_bounds py_repr py_int
                  tool_input graph_db rs) as Hb.
    destruct (Dispatcher.execute_computer_tool _ _ _ _ _)
      as [[[flag result] is_err] rs1].
    simpl in Hb.
    destruct (mbind _ (Loop.tool_call _ a ref)) as [id|e];
      [|injection Hd as _ _ <-; lia].
    apply IH in Hd. lia.
Qed.

Lemma await_provider_run script : forall (st : Loop.State W),
  Loop.run (snd (fst (await_provider script st))) = Loop.run st.
Proof.
  induction script as [|response script IH]; intros st; [done|].
  destruct response as [headers events|headers now| |e]; simpl; try done.
  destruct (Loop.TIME_TO_WAIT st) as [ts|]; [|done].
  destruct (RateLimit.wait_until_itpm_reset _ _ _ _ _ _) as [wait|e]; [|done].
  by rewrite IH.
Qed.

Lemma iteration_counter i headers events (st : Loop.State W) :
  Dispatcher.PROCESSSTEP (Loop.run st)
  <= Dispatcher.PROCESSSTEP (Loop.run (snd (iteration i headers events st))).
Proof.
  unfold Loop.iteration, Loop.iteration_trace.
  destruct (Decoder.collect_from_stream json_loads events) as [[blocks calls]|e];
    [|simpl; lia].
  destruct calls as [|c calls]; [simpl; lia|].
  destruct (Loop.dispatch_calls _ _ _ _ _ _ _ _ _)
    as [[exn [[messages2 results] flags]] rs] eqn:Hd.
  apply dispatch_calls_counter in Hd.
  destruct exn as [e|]; [done|].
  by destruct (Loop.truncate_after _ _).
Qed.

Lemma iterations_counter remaining : forall i script (st : Loop.State W),
  Dispatcher.PROCESSSTEP (Loop.run st)
  <= Dispatcher.PROCESSSTEP (Loop.run (snd (iterations remaining i script st))).
Proof.
  induction remaining as [|remaining IH]; intros i script st; simpl; [lia|].
  pose proof (await_provider_run script st) as Ha.
  destruct (Loop.await_provider _ _ script st)
    as [[[exit|[headers events]] st1] script1]; simpl in Ha.
  - simpl. rewrite Ha. lia.
  - pose proof (iteration_counter i headers events st1) as Hi. rewrite Ha in Hi.
    destruct (Loop.iteration _ _ _ _ i headers events st1) as [[exit|] st2];
      simpl in Hi; [done|].
    specialize (IH (S i) script1 st2). lia.
Qed.

(** X22. However a run of [run_agent_loop] ends, [PROCESSSTEP] is at least
    what it was when the run began: no pass, retry or failure takes a
    counted action back. *)
Theorem run_agent_loop_counter_monotone
    (user_prompt : string) (max_iterations : nat) (script : list Loop.Response)
    (rs : Dispatcher.State W) :
  Dispatcher.PROCESSSTEP rs
  <= Dispatcher.PROCESSSTEP
       (Loop.run (snd (run_agent_loop user_prompt max_iterations script rs))).
Proof.
  exact (iterations_counter max_iterations 1%nat script
           (Loop.mkState [Loop.initial_message user_prompt] None rs [] [])).
Qed.

(** *** Images in the log *)

Lemma dispatch_calls_log a calls : forall messages results flags
    (rs : Dispatcher.State W) exn messages' results' flags' rs',
  Forall (fun msg => Log.has_image_block msg = false) messages ->
  Forall (fun r => Log.is_image_block r = false) results ->
  dispatch_calls a calls messages results flags rs
    = (exn, (messages', results', flags'), rs') ->
  messages' = messages /\ Forall (fun r => Log.is_image_block r = false) results'.
Proof.
  induction calls as [|ref calls IH];
    intros messages results flags rs exn messages' results' flags' rs' Hm Hr Hd;
    simpl in Hd.
  - by injection Hd as _ <- <- _ _.
  - destruct (mbind _ (Loop.tool_call messages a ref)) as [tool_input|e];
      [|by injection Hd as _ <- <- _ _].
    destruct (Dispatcher.execute_computer_tool _ _ _ _ _)
      as [[[flag result] is_err] rs1].
    assert ((if String.eqb flag "image" then History.strip_old_images messages
             else messages) = messages) as Hsame.
    { destruct (String.eqb flag "image"); [|done].
      by apply strip_old_images_no_image. }
    rewrite Hsame in Hd.
    destruct (mbind _ (Loop.tool_call messages a ref)) as [id|e];
      [|by injection Hd as _ <- <- _ _].
    eapply IH; [done| |exact Hd].
    apply Forall_app. split; [done|]. by constructor.
Qed.

(** X23. While no message of the log has an image block directly in its
    content list, the [for] loop over the tool calls leaves the log as it
    found it, screenshots or not: the call of [strip_old_images] after an
    image result changes nothing. *)
Theorem dispatch_calls_keeps_log
    (a : nat) (calls : list nat) (messages : list dict) (rs : Dispatcher.State W)
    (exn : option exn) (messages' : list dict) (results : list json)
    (flags : list string) (rs' : Dispatcher.State W) :
  Forall (fun msg => Log.has_image_block msg = false) messages ->
  dispatch_calls a calls messages [] [] rs = (exn, (messages', results, flags), rs') ->
  messages' = messages /\
  Log.has_image_block (Loop.user_message results) = false.
Proof.
  intros Hm Hd.
  apply dispatch_calls_log in Hd as [-> Hr]; [|done|constructor].
  split; [done|]. by apply existsb_false_Forall.
Qed.

Lemma await_provider_script script : forall (st st' : Loop.State W) headers events script',
  await_provider script st = (inr (headers, events), st', script') ->
  Provider.sends_no_image script = true ->
  Provider.no_image_stub events = true /\ Provider.sends_no_image script' = true.
Proof.
  induction script as [|response script IH]; intros st st' headers events script' Ha Hs;
    simpl in Ha; [done|].
  simpl in Hs. apply andb_true_iff in Hs as [Hr Hs].
  destruct response as [h evs|h now| |e]; try done.
  - by injection Ha as <- <- _ <-.
  - destruct (Loop.TIME_TO_WAIT st) as [ts|]; [|done].
    destruct (RateLimit.wait_until_itpm_reset _ _ _ _ _ _) as [wait|e]; [|done].
    by eapply IH.
Qed.

Lemma iteration_no_image i headers events (st : Loop.State W) :
  Forall (fun msg => Log.has_image_block msg = false) (Loop.messages st) ->
  Provider.no_image_stub events = true ->
  Forall (fun msg => Log.has_image_block msg = false)
         (Loop.messages (snd (iteration i headers events st))).
Proof.
  intros Hm Hno. unfold Loop.iteration, Loop.iteration_trace.
  destruct (Decoder.collect_from_stream json_loads events)
    as [[blocks calls]|e] eqn:Hc; [|done].
  pose proof (collect_from_stream_no_image _ _ _ _ Hc Hno) as Ha.
  assert (Forall (fun msg => Log.has_image_block msg = false)
            (Loop.messages st ++ [Loop.assistant_message blocks])) as Hm1.
  { apply Forall_app. split; [done|]. by constructor. }
  destruct calls as [|c calls]; [done|].
  destruct (Loop.dispatch_calls _ _ _ _ _ _ _ _ _)
    as [[exn [[messages2 results] flags]] rs] eqn:Hd.
  apply dispatch_calls_log in Hd as [-> Hr]; [|done|constructor].
  destruct exn as [e|]; [done|].
  assert (Forall (fun msg => Log.has_image_block msg = false)
            ((Loop.messages st ++ [Loop.assistant_message blocks])
               ++ [Loop.user_message results])) as Hpre.
  { apply Forall_app. split; [done|]. constructor; [|done].
    by apply existsb_false_Forall. }
  unfold Loop.truncate_after.
  destruct (String.eqb (List.last flags "") "image"); [|done].
  unfold History.truncate.
  destruct ((Loop.messages st ++ [Loop.assistant_message blocks])
              ++ [Loop.user_message results]) as [|m0 pre] eqn:Hp; [done|].
  cbn [fst snd Loop.messages]. constructor.
  - by apply Forall_cons in Hpre as [? _].
  - unfold History.last_n. by apply Forall_drop.
Qed.

Lemma iterations_no_image remaining : forall i script (st : Loop.State W),
  Forall (fun msg => Log.has_image_block msg = false) (Loop.messages st) ->
  Provider.sends_no_image script = true ->
  Forall (fun msg => Log.has_image_block msg = false)
         (Loop.messages (snd (iterations remaining i script st))).
Proof.
  induction remaining as [|remaining IH]; intros i script st Hm Hs; [done|].
  simpl. pose proof (await_provider_messages fromisoformat py_float script st) as Ha.
  destruct (Loop.await_provider _ _ script st)
    as [[[exit|[headers events]] st1] script1] eqn:Hap; simpl in Ha.
  - simpl. by rewrite Ha.
  - destruct (await_provider_script _ _ _ _ _ _ Hap Hs) as [Hno Hs1].
    pose proof (iteration_no_image i headers events st1) as Hi.
    rewrite Ha in Hi. specialize (Hi Hm Hno).
    destruct (Loop.iteration _ _ _ _ i headers events st1) as [[exit|] st2];
      simpl in Hi; [done|]. by apply IH.
Qed.

(** X24. When the provider streams no image block, no message of the log
    ever has an image block directly in its content list, however the run
    ends: the screenshots sit inside the tool results, where
    [strip_old_images] does not look, so that function leaves the log of
    such a run as it is. *)
Theorem run_agent_loop_never_strips
    (user_prompt : string) (max_iterations : nat) (script : list Loop.Response)
    (rs : Dispatcher.State W) :
  Provider.sends_no_image script = true ->
  let log := Loop.messages (snd (run_agent_loop user_prompt max_iterations script rs)) in
  Forall (fun msg => Log.has_image_block msg = false) log /\
  History.strip_old_images log = log.
Proof.
  intros Hs log.
  assert (Forall (fun msg => Log.has_image_block msg = false) log) as Hlog.
  { apply iterations_no_image; [|done]. by constructor. }
  split; [done|]. by apply strip_old_images_no_image.
Qed.

(** *** The requests sent *)

Lemma await_provider_sent (P : list dict -> Prop) script : forall (st : Loop.State W),
  P (Loop.messages st) -> Forall P (Loop.sent st) ->
  Forall P (Loop.sent (snd (fst (await_provider script st)))).
Proof.
  induction script as [|response script IH]; intros st Hm Hs; [done|].
  assert (Forall P (Loop.sent st ++ [Loop.messages st])) as Hs'.
  { apply Forall_app. split; [done|]. by constructor. }
  destruct response as [headers events|headers now| |e]; simpl; try done.
  destruct (Loop.TIME_TO_WAIT st) as [ts|]; [|done].
  destruct (RateLimit.wait_until_itpm_reset _ _ _ _ _ _) as [wait|e]; [|done].
  by apply IH.
Qed.

Lemma iteration_sent i headers events (st : Loop.State W) :
  Loop.sent (snd (iteration i headers events st)) = Loop.sent st.
Proof.
  unfold Loop.iteration, Loop.iteration_trace.
  destruct (Decoder.collect_from_stream json_loads events) as [[blocks calls]|e];
    [|done].
  destruct calls as [|c calls]; [done|].
  destruct (Loop.dispatch_calls _ _ _ _ _ _ _ _ _)
    as [[[e|] [[messages2 results] flags]] rs]; [done|].
  by destruct (Loop.truncate_after _ _).
Qed.

Lemma iterations_sent user_prompt remaining : forall i script (st : Loop.State W),
  Loop.messages st !! 0%nat = Some (Loop.initial_message user_prompt) ->
  Forall (fun log => log !! 0%nat = Some (Loop.initial_message user_prompt))
         (Loop.sent st) ->
  Forall (fun log => log !! 0%nat = Some (Loop.initial_message user_prompt))
         (Loop.sent (snd (iterations remaining i script st))).
Proof.
  induction remaining as [|remaining IH]; intros i script st Hm Hs; [done|].
  simpl. pose proof (await_provider_messages fromisoformat py_float script st) as Ha.
  pose proof (await_provider_sent _ script st Hm Hs) as Hsent.
  destruct (Loop.await_provider _ _ script st)
    as [[[exit|[headers events]] st1] script1]; simpl in Ha, Hsent; [done|].
  pose proof (iteration_head py_repr py_int json_loads graph_db
                user_prompt i headers events st1) as Hi.
  rewrite Ha in Hi. specialize (Hi Hm).
  pose proof (iteration_sent i headers events st1) as Hsame.
  destruct (Loop.iteration _ _ _ _ i headers events st1) as [[exit|] st2];
    simpl in Hi, Hsame; [simpl; by rewrite Hsame|].
  apply IH; [done|]. by rewrite Hsame.
Qed.

(** X25. Every request that a run of [run_agent_loop] sends to the
    provider, retries included, carries a log whose first message is the
    user instruction, whatever truncation has removed in between. *)
Theorem run_agent_loop_requests_start_with_instruction
    (user_prompt : string) (max_iterations : nat) (script : list Loop.Response)
    (rs : Dispatcher.State W) :
  Forall (fun log => log !! 0%nat = Some (Loop.initial_message user_prompt))
         (Loop.sent (snd (run_agent_loop user_prompt max_iterations script rs))).
Proof. apply iterations_sent; [done|constructor]. Qed.

End LoopMore.

(** ** The import of the step graph *)

Section StepGraphFacts.

Variable py_str : json -> string.
Variable fails : list StepGraph.Call -> StepGraph.Call -> option exn.

#[local] Existing Instances StepGraph.T_ret StepGraph.T_bind.

Abbreviation merge_nodes := (StepGraph.merge_nodes py_str fails).
Abbreviation merge_rels := (StepGraph.merge_rels py_str fails).
Abbreviation import_steps := (StepGraph.import_steps py_str fails).

Ltac run_T :=
  unfold mbind, mret, StepGraph.T_bind, StepGraph.T_ret, StepGraph.lift,
    StepGraph.call.

(** The first loop only merges nodes, whether it ends or raises. *)
Lemma merge_nodes_calls steps : forall nodes made r made',
  merge_nodes steps nodes made = (r, made') ->
  exists merges, made' = made ++ merges /\
    Forall (fun c => StepGraph.is_merge c = true) merges.
Proof.
  induction steps as [|s steps IH]; intros nodes made r made' Hm; simpl in Hm.
  - injection Hm as _ <-. exists []. by rewrite app_nil_r.
  - destruct s as [| | | | | |d];
      try (injection Hm as _ <-; exists []; by rewrite app_nil_r).
    revert Hm. run_T. unfold dict_item.
    destruct (dict_get "id" d) as [id|];
      [|intros [= _ <-]; exists []; by rewrite app_nil_r].
    destruct (fails made _).
    + intros [= _ <-]. eexists [_]. split; [done|]. by constructor.
    + intros Hm. apply IH in Hm as (merges & -> & Hall).
      eexists (_ :: merges). rewrite <- app_assoc. split; [done|]. by constructor.
Qed.

(** When the first loop ends, it has merged one node per step, in order,
    and [nodes] holds exactly the ids of these nodes besides what it held. *)
Lemma merge_nodes_ok steps : forall nodes made nodes' made',
  merge_nodes steps nodes made = (Ok nodes', made') ->
  exists ns,
    made' = made ++ map StepGraph.merge_node ns /\
    Forall2 (fun s n => exists d id, s = JDict d /\ dict_get "id" d = Some id /\
                          n = StepGraph.node_of py_str d id) steps ns /\
    (forall k n, nodes' !! k = Some n -> nodes !! k = Some n \/ n ∈ ns) /\
    (forall k, is_Some (nodes' !! k) ->
       is_Some (nodes !! k) \/ exists n, n ∈ ns /\ StepGraph.node_id n = k).
Proof.
  induction steps as [|s steps IH]; intros nodes made nodes' made' Hm; simpl in Hm.
  - injection Hm as <- <-. exists []. rewrite app_nil_r.
    split; [done|]. split; [constructor|]. split; auto.
  - destruct s as [| | | | | |d]; try discriminate.
    revert Hm. run_T. unfold dict_item.
    destruct (dict_get "id" d) as [id|] eqn:Hid; [|discriminate].
    destruct (fails made _); [discriminate|].
    intros Hm. apply IH in Hm as (ns & -> & Hall & Hval & Hkey).
    exists (StepGraph.node_of py_str d id :: ns).
    rewrite <- app_assoc. split; [done|]. split; [|split].
    + constructor; [by exists d, id|done].
    + intros k n Hk. destruct (Hval k n Hk) as [Hin|Hin].
      * destruct (decide (py_str id = k)) as [<-|Hne].
        -- rewrite lookup_insert_eq in Hin. injection Hin as <-.
           right. by left.
        -- rewrite lookup_insert_ne in Hin by done. by left.
      * right. by right.
    + intros k Hk. destruct (Hkey k Hk) as [Hin|(n & Hin & Hn)].
      * destruct (decide (py_str id = k)) as [<-|Hne].
        -- right. exists (StepGraph.node_of py_str d id). split; [by left|done].
        -- rewrite lookup_insert_ne in Hin by done. by left.
      * right. exists n. split; [by right|done].
Qed.

Lemma merge_rels_cons d steps nodes :
  merge_rels (JDict d :: steps) nodes
  = if StepGraph.has_next (JDict d) then
      id ← StepGraph.lift (dict_item "id" d);
      a ← StepGraph.lift (StepGraph.nodes_item nodes (py_str id));
      b ← StepGraph.lift
            (StepGraph.nodes_item nodes (py_str (dict_get_default "next" JNull d)));
      StepGraph.call fails (StepGraph.merge_rel a b);;
      merge_rels steps nodes
    else merge_rels steps nodes.
Proof.
  simpl. unfold StepGraph.has_next.
  by destruct (dict_get_default "next" JNull d).
Qed.

(** The second loop only merges relationships, whether it ends or raises. *)
Lemma merge_rels_calls steps nodes : forall made r made',
  merge_rels steps nodes made = (r, made') ->
  exists merges, made' = made ++ merges /\
    Forall (fun c => StepGraph.is_merge c = true) merges.
Proof.
  induction steps as [|s steps IH]; intros made r made' Hm.
  - injection Hm as _ <-. exists []. by rewrite app_nil_r.
  - destruct s as [| | | | | |d];
      try (injection Hm as _ <-; exists []; by rewrite app_nil_r).
    rewrite merge_rels_cons in Hm.
    destruct (StepGraph.has_next (JDict d)); [|by apply IH in Hm].
    revert Hm. run_T. unfold dict_item, StepGraph.nodes_item.
    destruct (dict_get "id" d) as [id|];
      [|intros [= _ <-]; exists []; by rewrite app_nil_r].
    destruct (nodes !! py_str id) as [na|];
      [|intros [= _ <-]; exists []; by rewrite app_nil_r].
    destruct (nodes !! py_str (dict_get_default "next" JNull d)) as [nb|];
      [|intros [= _ <-]; exists []; by rewrite app_nil_r].
    destruct (fails made _).
    + intros [= _ <-]. eexists [_]. split; [done|]. by constructor.
    + intros Hm. apply IH in Hm as (merges & -> & Hall).
      eexists (_ :: merges). rewrite <- app_assoc. split; [done|]. by constructor.
Qed.

(** When the second loop ends, it has merged one relationship per step
    with a "next", each between two nodes of [nodes], and every "next" names
    a key of [nodes]. *)
Lemma merge_rels_ok steps nodes : forall made made',
  merge_rels steps nodes made = (Ok tt, made') ->
  exists rels,
    made' = made ++ rels /\
    length rels = length (List.filter StepGraph.has_next steps) /\
    Forall (fun c => exists a b ka kb, c = StepGraph.merge_rel a b /\
                       nodes !! ka = Some a /\ nodes !! kb = Some b) rels /\
    (forall d, JDict d ∈ steps -> StepGraph.has_next (JDict d) = true ->
       is_Some (nodes !! py_str (dict_get_default "next" JNull d))).
Proof.
  induction steps as [|s steps IH]; intros made made' Hm.
  - injection Hm as <-. exists []. rewrite app_nil_r.
    split; [done|]. split; [done|]. split; [constructor|].
    intros d Hd. by apply elem_of_nil in Hd.
  - destruct s as [| | | | | |d]; try discriminate.
    rewrite merge_rels_cons in Hm. cbn [List.filter].
    destruct (StepGraph.has_next (JDict d)) eqn:Hh.
    + revert Hm. run_T. unfold dict_item, StepGraph.nodes_item.
      destruct (dict_get "id" d) as [id|]; [|discriminate].
      destruct (nodes !! py_str id) as [na|] eqn:Ha; [|discriminate].
      destruct (nodes !! py_str (dict_get_default "next" JNull d)) as [nb|] eqn:Hb;
        [|discriminate].
      destruct (fails made _); [discriminate|].
      intros Hm. apply IH in Hm as (rels & -> & Hlen & Hall & Hnext).
      exists (StepGraph.merge_rel na nb :: rels). rewrite <- app_assoc.
      split; [done|]. split; [simpl; by rewrite Hlen|].
      split; [constructor; [by eexists na, nb, _, _|done]|].
      intros d' Hd' Hh'. apply elem_of_cons in Hd' as [[= ->]|Hd']; [|auto].
      by rewrite Hb.
    + apply IH in Hm as (rels & -> & Hlen & Hall & Hnext).
      exists rels. do 3 (split; [done|]).
      intros d' Hd' Hh'. apply elem_of_cons in Hd' as [[= ->]|Hd']; [|auto].
      congruence.
Qed.

(** X26. However [import_steps] ends, the calls it made on the database
    bracket the merges: when it returns, they are [begin], merges and one
    [commit], with no rollback; when it raises, either nothing was called
    (the data is no list of steps), or [begin] itself failed, or the calls
    are [begin], merges, possibly the failed [commit], and then one
    [rollback]. *)
Theorem import_steps_commits_or_rolls_back (data : json) :
  let '(r, made) := import_steps data [] in
  match r with
  | Ok _ =>
      exists merges,
        made = StepGraph.begin :: merges ++ [StepGraph.commit] /\
        Forall (fun c => StepGraph.is_merge c = true) merges
  | Raise e =>
      (made = [] /\ e = StepGraph.not_a_list) \/
      (made = [StepGraph.begin] /\ fails [] StepGraph.begin = Some e) \/
      exists merges,
        Forall (fun c => StepGraph.is_merge c = true) merges /\
        (made = StepGraph.begin :: merges ++ [StepGraph.rollback] \/
         made = StepGraph.begin :: merges ++ [StepGraph.commit; StepGraph.rollback])
  end.
Proof.
  unfold StepGraph.import_steps.
  destruct (StepGraph.steps_of data) as [| | | | |steps|]; try (by left).
  run_T. cbn [app]. destruct (fails [] StepGraph.begin) as [e|] eqn:Hb;
    [right; left; by split|].
  unfold StepGraph.rolling_back, StepGraph.transaction. run_T.
  destruct (StepGraph.merge_nodes py_str fails steps ∅ [StepGraph.begin])
    as [[nodes|e] made1] eqn:Hn;
    apply merge_nodes_calls in Hn as (m1 & -> & Hm1).
  - destruct (StepGraph.merge_rels py_str fails steps nodes ([StepGraph.begin] ++ m1))
      as [[[]|e] made2] eqn:Hr;
      apply merge_rels_calls in Hr as (m2 & -> & Hm2).
    + assert (Forall (fun c => StepGraph.is_merge c = true) (m1 ++ m2)) as Hm
        by (by apply Forall_app).
      destruct (fails _ StepGraph.commit) as [e|].
      * assert (((([StepGraph.begin] ++ m1) ++ m2) ++ [StepGraph.commit])
                  ++ [StepGraph.rollback]
                = StepGraph.begin :: (m1 ++ m2)
                    ++ [StepGraph.commit; StepGraph.rollback]) as ->
          by (by rewrite <- !app_assoc).
        destruct (fails _ StepGraph.rollback); right; right; eauto.
      * exists (m1 ++ m2). split; [|done]. by rewrite <- !app_assoc.
    + assert ((([StepGraph.begin] ++ m1) ++ m2) ++ [StepGraph.rollback]
              = StepGraph.begin :: (m1 ++ m2) ++ [StepGraph.rollback]) as ->
        by (by rewrite <- !app_assoc).
      assert (Forall (fun c => StepGraph.is_merge c = true) (m1 ++ m2)) as Hm
        by (by apply Forall_app).
      destruct (fails _ StepGraph.rollback); right; right; eauto.
  - destruct (fails _ StepGraph.rollback); right; right; eauto.
Qed.


(** X28. When a step names as its "next" an id that no step of the list
    has (ids compared as [str] prints them), [import_steps] raises and
    [commit] is never called, whatever the database does. *)
Theorem import_steps_dangling_next
    (data : json) (steps : list json) (d : dict) :
  StepGraph.steps_of data = JList steps ->
  JDict d ∈ steps ->
  StepGraph.has_next (JDict d) = true ->
  (forall d' id, JDict d' ∈ steps -> dict_get "id" d' = Some id ->
     py_str id <> py_str (dict_get_default "next" JNull d)) ->
  exists e made,
    import_steps data [] = (Raise e, made) /\ StepGraph.commit ∉ made.
Proof.
  intros Hdata Hd Hnext Hids. unfold StepGraph.import_steps. rewrite Hdata.
  assert (forall merges : list StepGraph.Call,
            Forall (fun c => StepGraph.is_merge c = true) merges ->
            StepGraph.commit ∉ StepGraph.begin :: merges ++ [StepGraph.rollback])
    as Hnc.
  { intros merges Hm Hin. apply elem_of_cons in Hin as [?|Hin]; [done|].
    apply elem_of_app in Hin as [Hin|Hin].
    - rewrite Forall_forall in Hm. by apply Hm in Hin.
    - by apply list_elem_of_singleton in Hin. }
  run_T. cbn [app]. destruct (fails [] StepGraph.begin) as [e|].
  { exists e, [StepGraph.begin]. split; [done|].
    intros Hin. by apply list_elem_of_singleton in Hin. }
  unfold StepGraph.rolling_back, StepGraph.transaction. run_T.
  destruct (StepGraph.merge_nodes py_str fails steps ∅ [StepGraph.begin])
    as [[nodes|e] made1] eqn:Hn.
  2: { apply merge_nodes_calls in Hn as (m1 & -> & Hm1).
       destruct (fails _ StepGraph.rollback); eexists _, _; (split; [done|]);
         by apply (Hnc m1). }
  pose proof (merge_nodes_calls _ _ _ _ _ Hn) as (m1 & Hmade1 & Hm1).
  apply merge_nodes_ok in Hn as (ns & _ & Hsteps & _ & Hkey).
  subst made1.
  destruct (StepGraph.merge_rels py_str fails steps nodes _)
    as [[[]|e] made2] eqn:Hr.
  - exfalso. apply merge_rels_ok in Hr as (rels & _ & _ & _ & Hall).
    destruct (Hkey _ (Hall d Hd Hnext)) as [[? Hx]|(n & Hin & Hn)];
      [by rewrite lookup_empty in Hx|].
    apply list_elem_of_lookup in Hin as [k Hk].
    destruct (Forall2_lookup_r _ _ _ _ _ Hsteps Hk) as (s & Hs & d' & id & -> & Hid & ->).
    apply (Hids d' id); [by eapply list_elem_of_lookup_2|done|done].
  - apply merge_rels_calls in Hr as (m2 & -> & Hm2).
    assert ((([StepGraph.begin] ++ m1) ++ m2) ++ [StepGraph.rollback]
            = StepGraph.begin :: (m1 ++ m2) ++ [StepGraph.rollback]) as Heq
      by (by rewrite <- !app_assoc).
    destruct (fails _ StepGraph.rollback); eexists _, _; (split; [done|]);
      rewrite Heq; apply Hnc; by apply Forall_app.
Qed.

End StepGraphFacts.

(** ** The properties above at sample inputs *)

Lemma strip_old_images_blanks_payloads_witness :
  Log.image_payload (JDict [("type", JStr "image"); ("data", JStr "")]) = None \/
  Log.image_payload (JDict [("type", JStr "image"); ("data", JStr "")])
  = Some (JStr "").
Proof.
  apply (strip_old_images_blanks_payloads History.log_direct_image 0%nat 0%nat
           [("role", JStr "user");
            ("content", JList [JDict [("type", JStr "image"); ("data", JStr "")]])]
           [JDict [("type", JStr "image"); ("data", JStr "")]]).
  - vm_compute. reflexivity.
  - reflexivity.
  - reflexivity.
Defined.

Lemma strip_old_images_without_image_blocks_witness :
  History.strip_old_images Samples.first_log = Samples.first_log.
Proof.
  apply (strip_old_images_without_image_blocks Samples.first_log).
  vm_compute. repeat (constructor; [reflexivity|]). constructor.
Defined.

Lemma truncate_idempotent_witness :
  History.truncate (replicate 61 (Loop.initial_message "Open the settings."))
  = Ok (replicate 61 (Loop.initial_message "Open the settings.")).
Proof.
  apply (truncate_idempotent Samples.long_log).
  - vm_compute. lia.
  - vm_compute. reflexivity.
Defined.

Lemma truncate_keeps_suffix_witness :
  exists m0 dropped,
    Samples.long_log !! 0%nat = Some m0 /\
    Samples.long_log = dropped ++ History.last_n 60 Samples.long_log /\
    replicate 61 (Loop.initial_message "Open the settings.")
    = m0 :: History.last_n 60 Samples.long_log /\
    length (replicate 61 (Loop.initial_message "Open the settings."))
    = S (Nat.min (length Samples.long_log) 60).
Proof.
  apply (truncate_keeps_suffix Samples.long_log). vm_compute. reflexivity.
Defined.

Lemma collect_from_stream_frame_witness :
  length (fst (Samples.decoded Examples.stream_two_fragments)) = 1%nat.
Proof.
  destruct (collect_from_stream_frame Examples.loads_stub
              Examples.stream_two_fragments
              (fst (Samples.decoded Examples.stream_two_fragments))
              (snd (Samples.decoded Examples.stream_two_fragments)))
    as [Hlen _].
  - vm_compute. reflexivity.
  - exact Hlen.
Defined.

Lemma collect_from_stream_tool_input_witness :
  (0%nat ∈ snd (Samples.decoded Examples.stream_two_fragments)) /\
  exists blk,
    fst (Samples.decoded Examples.stream_two_fragments) !! 0%nat = Some blk /\
    dict_get "input" blk
    = Some (Stream.parsed_input Examples.loads_stub
              (Decoder.concat_str
                 (Stream.json_fragments 0
                    (Decoder.consumed Examples.stream_two_fragments)))).
Proof.
  apply (collect_from_stream_tool_input Examples.loads_stub
           Examples.stream_two_fragments _ _ 0%nat 0
           (Examples.tool_use_stub "toolu_01")).
  - vm_compute. reflexivity.
  - vm_compute. reflexivity.
  - reflexivity.
  - reflexivity.
  - do 3 apply list_elem_of_further. apply list_elem_of_here.
Defined.

Lemma collect_from_stream_requests_witness :
  NoDup (snd (Samples.decoded Examples.stream_screenshot_then_click)).
Proof.
  destruct (collect_from_stream_requests Examples.loads_stub
              Examples.stream_screenshot_then_click
              (fst (Samples.decoded Examples.stream_screenshot_then_click))
              (snd (Samples.decoded Examples.stream_screenshot_then_click)))
    as [Hnd _].
  - vm_compute. reflexivity.
  - vm_compute. reflexivity.
  - exact Hnd.
Defined.


Lemma execute_computer_tool_without_graph_witness :
  Dispatcher.execute_computer_tool Examples.repr_stub Examples.int_stub
    [("action", JStr "next")] None Examples.start_state
  = (("text", JStr "'NoneType' object has no attribute 'run'", true),
     Examples.start_state).
Proof.
  apply (execute_computer_tool_without_graph Examples.repr_stub Examples.int_stub
           [("action", JStr "next")] Examples.start_state).
  vm_compute. reflexivity.
Defined.

Lemma click_with_empty_coordinate_witness :
  Dispatcher.execute_computer_tool Examples.repr_stub Examples.int_stub
    Samples.click_nowhere (Some Examples.empty_graph) Examples.start_state
  = Dispatcher.execute_computer_tool Examples.repr_stub Examples.int_stub
      [("action", JStr "left_click")] (Some Examples.empty_graph) Examples.start_state.
Proof.
  apply (click_with_empty_coordinate Examples.repr_stub Examples.int_stub
           "left_click" Samples.click_nowhere (Some Examples.empty_graph)
           Examples.start_state).
  - apply list_elem_of_here.
  - reflexivity.
  - reflexivity.
Defined.

Lemma click_with_short_coordinate_witness :
  Dispatcher.execute_computer_tool Examples.repr_stub Examples.int_stub
    Samples.click_short (Some Examples.empty_graph) Examples.start_state
  = (("text", JStr "list index out of range", true), Examples.start_state).
Proof.
  apply (click_with_short_coordinate Examples.repr_stub Examples.int_stub
           "left_click" (JInt 5) Samples.click_short (Some Examples.empty_graph)
           Examples.start_state).
  - apply list_elem_of_here.
  - reflexivity.
  - reflexivity.
Defined.

Lemma scroll_unknown_direction_witness :
  Dispatcher.execute_computer_tool (H := Examples.recording_desktop)
    Examples.repr_stub Examples.int_stub
    Samples.scroll_diagonal None (Dispatcher.mkState 1 0 [])
  = Dispatcher.execute_computer_tool (H := Examples.recording_desktop)
      Examples.repr_stub Examples.int_stub
      (dict_set "scroll_direction" (JStr "right") Samples.scroll_diagonal) None
      (Dispatcher.mkState 1 0 []).
Proof.
  apply (scroll_unknown_direction (H := Examples.recording_desktop)
           Examples.repr_stub Examples.int_stub
           Samples.scroll_diagonal None (Dispatcher.mkState 1 0 []));
    reflexivity.
Defined.

Lemma prev_then_next_without_rows_witness :
  let '(out1, st1) :=
    Dispatcher.execute_computer_tool Examples.repr_stub Examples.int_stub
      [("action", JStr "prev")] (Some Examples.empty_graph) Examples.start_state in
  let '(out2, st2) :=
    Dispatcher.execute_computer_tool Examples.repr_stub Examples.int_stub
      [("action", JStr "next")] (Some Examples.empty_graph) st1 in
  out1 = ("text", JStr Dispatcher.no_prev_step, false) /\
  Dispatcher.PROCESSSTEP_ID st1 = Dispatcher.PROCESSSTEP_ID Examples.start_state - 1 /\
  out2 = ("text", JStr Dispatcher.no_next_step, false) /\
  st2 = Examples.start_state.
Proof.
  apply (prev_then_next_without_rows Examples.repr_stub Examples.int_stub
           Examples.empty_graph Examples.start_state); reflexivity.
Defined.



Lemma run_agent_loop_return_value_witness : (1 <= 2 <= 5)%nat.
Proof.
  apply (run_agent_loop_return_value Examples.repr_stub Examples.int_stub
           Examples.loads_stub Examples.iso_stub Examples.float_stub
           (Some Examples.empty_graph) "Open the settings." 5%nat
           Samples.script_two_passes Examples.start_state 2%nat
           (snd Samples.run_two_passes)).
  vm_compute. reflexivity.
Defined.

Lemma dispatch_calls_keeps_log_witness :
  fst (fst (snd (fst Samples.first_pass))) = Samples.first_log /\
  Log.has_image_block (Loop.user_message (snd (fst (snd (fst Samples.first_pass)))))
  = false.
Proof.
  apply (dispatch_calls_keeps_log Examples.repr_stub Examples.int_stub
           (Some Examples.empty_graph) 1%nat
           (snd (Samples.decoded Examples.stream_screenshot))
           Samples.first_log Examples.start_state
           (fst (fst Samples.first_pass)) _ _ (snd (snd (fst Samples.first_pass)))
           (snd Samples.first_pass)).
  - vm_compute. repeat (constructor; [reflexivity|]). constructor.
  - vm_compute. reflexivity.
Defined.

Lemma run_agent_loop_never_strips_witness :
  Forall (fun msg => Log.has_image_block msg = false)
         (Loop.messages (snd Samples.run_two_passes)) /\
  History.strip_old_images (Loop.messages (snd Samples.run_two_passes))
  = Loop.messages (snd Samples.run_two_passes).
Proof.
  apply (run_agent_loop_never_strips Examples.repr_stub Examples.int_stub
           Examples.loads_stub Examples.iso_stub Examples.float_stub
           (Some Examples.empty_graph) "Open the settings." 5%nat
           Samples.script_two_passes Examples.start_state).
  vm_compute. reflexivity.
Defined.


Lemma import_steps_dangling_next_witness :
  exists e made,
    Samples.imported (JList [JDict Samples.dangling_step]) = (Raise e, made) /\
    StepGraph.commit ∉ made.
Proof.
  apply (import_steps_dangling_next Samples.str_stub StepGraph.sound_store
           (JList [JDict Samples.dangling_step]) [JDict Samples.dangling_step]
           Samples.dangling_step).
  - reflexivity.
  - apply list_elem_of_here.
  - reflexivity.
  - intros d' id Hin Hid. apply list_elem_of_singleton in Hin.
    injection Hin as ->. vm_compute in Hid. injection Hid as <-.
    vm_compute. discriminate.
Defined.


